(** * Data Cleaning App (src/app.py): a shallow embedding and its properties

    The program is a Streamlit script over pandas.  Every user action re-runs
    the script top to bottom against [st.session_state], which holds two
    DataFrame objects, the original upload and the working copy.

    Modelling decisions, all stated once here:
    - a cell is missing (NaN/None), a number or a text; the numbers in a
      table are exact rationals without infinities, and no property states
      the value of a mean or a median of several numbers;
    - the percentages of the summary are float64 values: every operation of
      line 34 rounds to the nearest float64, ties to even ([rnd64]);
    - a DataFrame is a list of named, typed columns over a list of labelled
      rows; pandas operations are embedded by their documented behaviour
      (pandas 1.x/2.x);
    - DataFrames are mutable Python objects: they live in a heap of
      locations, [df.copy()] allocates, [df[col] = ...] writes in place;
    - Python exceptions and [st.stop()] are explicit outcomes of a small
      state monad;
    - Python's builtin [float] is a parameter of the development. *)

From Stdlib Require Import QArith Qcanon Qabs.
From stdpp Require Import base decidable option list strings numbers pretty.

Open Scope string_scope.
Open Scope nat_scope.

(** ** Cells, dtypes, Series and DataFrames *)

Inductive cell : Type :=
  | Missing
  | Num (q : Qc)
  | Text (s : string).

#[global] Instance cell_eq_dec : EqDecision cell.
Proof. solve_decision. Defined.

Definition isnull (c : cell) : bool :=
  match c with Missing => true | _ => false end.

Inductive dtype : Type := Int64 | Float64 | Bool | Object.

#[global] Instance dtype_eq_dec : EqDecision dtype.
Proof. solve_decision. Defined.

(** [ptypes.is_numeric_dtype] *)
Definition is_numeric_dtype (t : dtype) : bool :=
  match t with Object => false | _ => true end.

(** [str(dtype)] *)
Definition dtype_str (t : dtype) : string :=
  match t with
  | Int64 => "int64" | Float64 => "float64" | Bool => "bool" | Object => "object"
  end.

Abbreviation row := (list cell).

Record Series : Type := mkSeries {
  s_dtype : dtype;
  s_values : list cell
}.

(** Row-major table: [df_columns] gives name and dtype of each position,
    [df_rows] pairs every row with its index label. *)
Record DataFrame : Type := mkDF {
  df_columns : list (string * dtype);
  df_rows : list (nat * row)
}.

#[global] Instance DataFrame_eq_dec : EqDecision DataFrame.
Proof. solve_decision. Defined.

(** [len(df)] *)
Definition df_len (df : DataFrame) : nat := length (df_rows df).

(** the rows without their labels: what row comparisons look at *)
Definition df_values (df : DataFrame) : list row := (df_rows df).*2.


(** [df.columns] *)
Definition df_names (df : DataFrame) : list string := (df_columns df).*1.

(** position of the first column called [c] *)
Fixpoint col_pos (cols : list (string * dtype)) (c : string) : option nat :=
  match cols with
  | [] => None
  | (n, _) :: cols' =>
      if decide (n = c) then Some 0 else S <$> col_pos cols' c
  end.

(** a cell read out of a row; a row too short reads as missing *)
Definition cell_at (j : nat) (r : row) : cell := default Missing (r !! j).

Definition col_values (j : nat) (rs : list (nat * row)) : list cell :=
  map (fun r => cell_at j r.2) rs.

(** positional column write; the Series written always comes from the same
    frame, so labels align by position *)
Fixpoint set_col (j : nat) (rs : list (nat * row)) (vs : list cell)
  : list (nat * row) :=
  match rs, vs with
  | (i, r) :: rs', v :: vs' => (i, <[j := v]> r) :: set_col j rs' vs'
  | _, _ => rs
  end.

Definition set_dtype (j : nat) (t : dtype) (cols : list (string * dtype))
  : list (string * dtype) :=
  match cols !! j with
  | Some (n, _) => <[j := (n, t)]> cols
  | None => cols
  end.

(** ** Python exceptions *)

Inductive exn : Type :=
  | KeyError (k : string)
  | ValueError
  | TypeError.

Inductive result_of (E A : Type) : Type :=
  | Ok (a : A)
  | Raise (e : E).
Arguments Ok {E A} a.
Arguments Raise {E A} e.

(** a value, or one of the exceptions the script meets *)
Abbreviation result := (result_of exn).

(** [try: x = e  except Exception: x = d] *)
Definition try_except {A} (e : result A) (d : A) : A :=
  match e with Ok a => a | Raise _ => d end.

(** [df[col]] *)
Definition getitem (df : DataFrame) (c : string) : result Series :=
  match col_pos (df_columns df) c with
  | Some j =>
      Ok (mkSeries (default Object (snd <$> df_columns df !! j))
                   (col_values j (df_rows df)))
  | None => Raise (KeyError c)
  end.

(** [df[col] = s] for an existing column *)
Definition setitem (df : DataFrame) (c : string) (s : Series) : DataFrame :=
  match col_pos (df_columns df) c with
  | Some j =>
      mkDF (set_dtype j (s_dtype s) (df_columns df))
           (set_col j (df_rows df) (s_values s))
  | None => df
  end.

(** ** Row operations: duplicated, drop_duplicates, dropna, reset_index *)

Inductive keep : Type := KeepFirst | KeepFalse.

(** [keep='first']: a row is marked when an equal row was seen before it *)
Fixpoint duplicated_first (seen : list row) (rs : list row) : list bool :=
  match rs with
  | [] => []
  | r :: rs' => bool_decide (r ∈ seen) :: duplicated_first (r :: seen) rs'
  end.

(** [keep=False]: a row is marked when an equal row stands before or after *)
Fixpoint duplicated_false (before : list row) (rs : list row) : list bool :=
  match rs with
  | [] => []
  | r :: rs' =>
      bool_decide (r ∈ before ∨ r ∈ rs') :: duplicated_false (r :: before) rs'
  end.

(** [df.duplicated(keep=k)], a boolean Series *)
Definition duplicated (k : keep) (df : DataFrame) : list bool :=
  match k with
  | KeepFirst => duplicated_first [] (df_values df)
  | KeepFalse => duplicated_false [] (df_values df)
  end.

(** [.sum()] of a boolean Series *)
Definition bsum (m : list bool) : nat := length (filter (fun b => b = true) m).

(** [df[~mask]] when [drop] is the mask *)
Fixpoint drop_mask {A} (drop : list bool) (l : list A) : list A :=
  match drop, l with
  | b :: drop', x :: l' =>
      if b then drop_mask drop' l' else x :: drop_mask drop' l'
  | _, _ => []
  end.

(** [df.drop_duplicates()] *)
Definition drop_duplicates (df : DataFrame) : DataFrame :=
  mkDF (df_columns df) (drop_mask (duplicated KeepFirst df) (df_rows df)).

(** [df.dropna()] *)
Definition dropna (df : DataFrame) : DataFrame :=
  mkDF (df_columns df)
       (filter (fun r => forallb (fun c => negb (isnull c)) r.2 = true)
               (df_rows df)).

(** [df.reset_index(drop=True)] *)
Definition reset_index (df : DataFrame) : DataFrame :=
  mkDF (df_columns df) (imap (fun i r => (i, r.2)) (df_rows df)).

(** a freshly loaded frame has the labels 0..n-1 *)
Definition of_rows (cols : list (string * dtype)) (rs : list row) : DataFrame :=
  mkDF cols (imap (fun i r => (i, r)) rs).

(** ** Column operations: fillna, mean, median, mode, ffill, bfill *)

Definition is_text (c : cell) : bool :=
  match c with Text _ => true | _ => false end.

(** [s.fillna(v)]: every missing cell takes [v]; a fill value that is itself
    NaN leaves the cell missing.  A numeric column that receives a text
    becomes an object column.  After a fill pandas infers the dtype of an
    object column again (one that holds only booleans becomes bool); a cell
    here does not tell a boolean from a number, the dtype is kept, and no
    property below speaks of the dtype of an object column after a fill,
    except with a text, which keeps it an object column. *)
Definition fillna (v : cell) (s : Series) : Series :=
  mkSeries
    (if existsb isnull (s_values s) && is_text v then Object else s_dtype s)
    (map (fun c => if isnull c then v else c) (s_values s)).

Fixpoint ffill_from (last : cell) (vs : list cell) : list cell :=
  match vs with
  | [] => []
  | c :: vs' =>
      if isnull c then last :: ffill_from last vs' else c :: ffill_from c vs'
  end.

Inductive fill_method : Type := FFill | BFill.

(** [s.fillna(method=...)]; for the dtype see [fillna] *)
Definition fillna_method (m : fill_method) (s : Series) : Series :=
  mkSeries (s_dtype s)
    (match m with
     | FFill => ffill_from Missing (s_values s)
     | BFill => rev (ffill_from Missing (rev (s_values s)))
     end).

(** the non-missing values, as pandas reductions see them ([skipna=True]) *)
Definition dropna_values (vs : list cell) : list cell :=
  filter (fun c => isnull c = false) vs.

(** the numbers of a column; a text among them is what makes pandas raise
    [TypeError] in a numeric reduction *)
Fixpoint as_numbers (vs : list cell) : result (list Qc) :=
  match vs with
  | [] => Ok []
  | Num q :: vs' =>
      match as_numbers vs' with Ok qs => Ok (q :: qs) | Raise e => Raise e end
  | Missing :: vs' => as_numbers vs'
  | Text _ :: _ => Raise TypeError
  end.

Definition Qc_of_nat (n : nat) : Qc := Q2Qc (inject_Z (Z.of_nat n)).

Definition Qc_sum (qs : list Qc) : Qc := foldr Qcplus (Q2Qc 0) qs.

(** [s.mean()]: NaN (a missing cell) when there is no value to average.
    The sum and the quotient are exact here; pandas rounds them in float64,
    and no property below states the value of a mean of several numbers *)
Definition series_mean (s : Series) : result cell :=
  match as_numbers (s_values s) with
  | Raise e => Raise e
  | Ok [] => Ok Missing
  | Ok qs => Ok (Num (Qc_sum qs / Qc_of_nat (length qs))%Qc)
  end.

Definition Qc_leb (x y : Qc) : bool := Qle_bool x y.

Section Isort.
Context {A : Type} (leb : A -> A -> bool).

Fixpoint insert_sorted (x : A) (l : list A) : list A :=
  match l with
  | [] => [x]
  | y :: l' => if leb x y then x :: l else y :: insert_sorted x l'
  end.

Definition isort (l : list A) : list A := foldr insert_sorted [] l.
End Isort.

(** [s.median()]: middle value of the sorted numbers, the average of the two
    middle ones for an even count, NaN when there is none *)
Definition series_median (s : Series) : result cell :=
  match as_numbers (s_values s) with
  | Raise e => Raise e
  | Ok [] => Ok Missing
  | Ok qs =>
      let srt := isort Qc_leb qs in
      let n := length srt in
      let hi := default (Q2Qc 0) (srt !! (n / 2)) in
      if Nat.even n
      then let lo := default (Q2Qc 0) (srt !! (n / 2 - 1)) in
           Ok (Num ((lo + hi) / Qc_of_nat 2)%Qc)
      else Ok (Num hi)
  end.

(** distinct values in order of first appearance *)
Fixpoint unique (seen : list cell) (vs : list cell) : list cell :=
  match vs with
  | [] => []
  | c :: vs' =>
      if decide (c ∈ seen) then unique seen vs' else c :: unique (c :: seen) vs'
  end.

Definition count_of (c : cell) (vs : list cell) : nat :=
  length (filter (fun d => d = c) vs).

(** the values tied for the highest count, in order of first appearance *)
Definition tied_modes (vs : list cell) : list cell :=
  let nn := dropna_values vs in
  let u := unique [] nn in
  let top := max_list (map (fun c => count_of c nn) u) in
  filter (fun c => count_of c nn = top) u.

(** values NumPy can sort: all numbers or all texts *)
Definition sortable (vs : list cell) : bool :=
  forallb (fun c => negb (is_text c)) vs || forallb is_text vs.

Definition cell_leb (a b : cell) : bool :=
  match a, b with
  | Num x, Num y => Qc_leb x y
  | Text s, Text t => String.leb s t
  | Missing, _ => true
  | Num _, Text _ => true
  | _, _ => false
  end.

(** [s.mode()]: the tied values, sorted; when they cannot be compared pandas
    warns and returns them unsorted *)
Definition series_mode (s : Series) : list cell :=
  let t := tied_modes (s_values s) in
  if sortable t then isort cell_leb t else t.

(** ** The summary table *)

(** a float64 as pandas shows it: NaN, infinite or finite; a finite one is
    the rational it stands for *)
Inductive pyfloat : Type :=
  | FNaN
  | FInf
  | FFin (q : Q).

(** nearest integer, ties to even *)
Definition round_half_even (q : Q) : Z :=
  let n := Qnum q in
  let d := Z.pos (Qden q) in
  let f := (n / d)%Z in
  let r := (n mod d)%Z in
  if (2 * r <? d)%Z then f
  else if (d <? 2 * r)%Z then (f + 1)%Z
  else if Z.even f then f else (f + 1)%Z.

(** *** IEEE 754 binary64 *)

(** [2^k] *)
Definition pow2 (k : Z) : Q :=
  if (0 <=? k)%Z then inject_Z (2 ^ k) else (/ inject_Z (2 ^ (- k)))%Q.

(** the binary exponent [e] of a positive rational: [2^e <= q < 2^(e+1)] *)
Definition mag (q : Q) : Z :=
  let d := (Z.log2 (Qnum q) - Z.log2 (Z.pos (Qden q)))%Z in
  if Qle_bool (pow2 d) q then d else (d - 1)%Z.

(** the float64 nearest to a rational, ties to even: a multiple of
    [2^(e-52)], of [2^-1074] among the subnormals *)
Definition rnd64 (q : Q) : Q :=
  if Qeq_bool q 0 then 0%Q
  else
    let s := Z.min (52 - mag (Qabs q)) 1074 in
    (inject_Z (round_half_even (q * pow2 s)) / pow2 s)%Q.

(** the result of a float64 operation whose exact value is [q]: rounded, and
    infinite from [2^1024] on *)
Definition f64 (q : Q) : pyfloat :=
  let r := rnd64 q in
  if Qle_bool (pow2 1024) (Qabs r) then FInf else FFin r.

(** count / count, line 34: both counts become float64, pandas divides
    without raising, 0/0 is NaN *)
Definition fdiv_count (a b : nat) : pyfloat :=
  match b with
  | O => match a with O => FNaN | _ => FInf end
  | _ => f64 (rnd64 (inject_Z (Z.of_nat a)) / rnd64 (inject_Z (Z.of_nat b)))%Q
  end.

(** a float64 times a float64 constant *)
Definition fmul (x : pyfloat) (k : Q) : pyfloat :=
  match x with FFin q => f64 (q * k)%Q | _ => x end.

(** [.round(2)], as NumPy rounds a float64: [rint(x * 100) / 100] *)
Definition fround2 (x : pyfloat) : pyfloat :=
  match x with
  | FFin q =>
      match f64 (q * 100)%Q with
      | FFin t => f64 (inject_Z (round_half_even t) / 100)%Q
      | o => o
      end
  | _ => x
  end.

Inductive sval : Type :=
  | SStr (s : string)
  | SInt (n : nat)
  | SFloat (f : pyfloat).

Record srow : Type := mkSrow {
  sr_dtype : sval;
  sr_missing : sval;
  sr_missing_pct : sval
}.

(** [df.isnull().sum()], one count per column position *)
Definition isnull_sum (df : DataFrame) : list nat :=
  imap (fun j _ => bsum (map isnull (col_values j (df_rows df)))) (df_columns df).

(** [summary.loc[label] = r]: overwrite the rows carrying the label, or append *)
Definition loc_set (label : string) (r : srow) (t : list (string * srow))
  : list (string * srow) :=
  if bool_decide (label ∈ t.*1)
  then map (fun x => if decide (x.1 = label) then (label, r) else x) t
  else t ++ [(label, r)].

Definition summary_stats (df : DataFrame) : list (string * srow) :=
  let miss := isnull_sum df in
  let miss_pct := map (fun m => fround2 (fmul (fdiv_count m (df_len df)) 100)) miss in
  let dup := bsum (duplicated KeepFirst df) in
  let types := map (fun c => dtype_str c.2) (df_columns df) in
  let summary :=
    imap (fun j c =>
            (c.1, mkSrow (SStr (default "" (types !! j)))
                         (SInt (default 0 (miss !! j)))
                         (SFloat (default FNaN (miss_pct !! j)))))
         (df_columns df) in
  loc_set "__duplicates" (mkSrow (SStr "") (SInt dup) (SStr "")) summary.

(** the cells of the summary the claims speak of *)
Definition summary_row (label : string) (t : list (string * srow)) : option srow :=
  (fun p => p.2.2) <$> list_find (fun x => x.1 = label) t.

Definition summary_duplicates (df : DataFrame) : option sval :=
  sr_missing <$> summary_row "__duplicates" (summary_stats df).


(** ** The session: heap, [st.session_state], messages *)

Definition loc : Type := nat.

Inductive level : Type := LError | LInfo | LWarning | LSuccess.

#[global] Instance level_eq_dec : EqDecision level.
Proof. solve_decision. Defined.

Definition message : Type := level * string.

(** [st.session_state] has the keys "uploaded_name", "original_df" and "df",
    each present or not; the two frames are references into the heap *)
Record world : Type := mkWorld {
  heap : list DataFrame;
  ss_uploaded_name : option string;
  ss_original_df : option loc;
  ss_df : option loc;
  out : list message
}.

(** how one run of a piece of the script ends *)
Inductive outcome (A : Type) : Type :=
  | Done (a : A)
  | Stopped
  | Raised (e : exn).
Arguments Done {A} a.
Arguments Stopped {A}.
Arguments Raised {A} e.

Definition M (A : Type) : Type := world -> world * outcome A.

#[global] Instance M_ret : MRet M := fun A a w => (w, Done a).

#[global] Instance M_bind : MBind M := fun A B f m w =>
  match m w with
  | (w', Done a) => f a w'
  | (w', Stopped) => (w', Stopped)
  | (w', Raised e) => (w', Raised e)
  end.

(** [st.stop()] *)
Definition stop {A} : M A := fun w => (w, Stopped).

Definition raise {A} (e : exn) : M A := fun w => (w, Raised e).

Definition lift {A} (r : result A) : M A :=
  match r with Ok a => mret a | Raise e => raise e end.

Definition get_world : M world := fun w => (w, Done w).

(** [st.error], [st.info], [st.warning], [st.success] *)
Definition emit (l : level) (s : string) : M unit := fun w =>
  (mkWorld (heap w) (ss_uploaded_name w) (ss_original_df w) (ss_df w)
           (out w ++ [(l, s)]), Done tt).

Definition empty_df : DataFrame := mkDF [] [].

(** the object a reference points to *)
Definition deref (l : loc) : M DataFrame := fun w =>
  (w, Done (default empty_df (heap w !! l))).

(** a new object, as [copy()], [drop_duplicates()], [dropna()] and
    [reset_index()] return *)
Definition alloc (d : DataFrame) : M loc := fun w =>
  (mkWorld (heap w ++ [d]) (ss_uploaded_name w) (ss_original_df w) (ss_df w)
           (out w), Done (length (heap w))).

(** in-place update of the object behind a reference *)
Definition store (l : loc) (d : DataFrame) : M unit := fun w =>
  (mkWorld (<[l := d]> (heap w)) (ss_uploaded_name w) (ss_original_df w)
           (ss_df w) (out w), Done tt).

Definition set_uploaded_name (n : string) : M unit := fun w =>
  (mkWorld (heap w) (Some n) (ss_original_df w) (ss_df w) (out w), Done tt).

Definition set_original_df (l : loc) : M unit := fun w =>
  (mkWorld (heap w) (ss_uploaded_name w) (Some l) (ss_df w) (out w), Done tt).

Definition set_df (l : loc) : M unit := fun w =>
  (mkWorld (heap w) (ss_uploaded_name w) (ss_original_df w) (Some l) (out w),
   Done tt).

(** [st.session_state["df"]] *)
Definition get_df : M loc := fun w =>
  match ss_df w with
  | Some l => (w, Done l)
  | None => (w, Raised (KeyError "df"))
  end.

(** [st.session_state["original_df"]] *)
Definition get_original_df : M loc := fun w =>
  match ss_original_df w with
  | Some l => (w, Done l)
  | None => (w, Raised (KeyError "original_df"))
  end.

(** [df.copy()] *)
Definition copy (l : loc) : M loc := d ← deref l; alloc d.

(** lines 21-24 *)
Definition reset_session_df (df : loc) : M unit :=
  o ← copy df;
  set_original_df o;;
  d ← copy df;
  set_df d.

(** [st.session_state["df"] = f(st.session_state["df"]).reset_index(drop=True)] *)
Definition replace_df (f : DataFrame -> DataFrame) : M unit :=
  l ← get_df;
  d ← deref l;
  n ← alloc (reset_index (f d));
  set_df n.

(** [len(st.session_state["df"])] *)
Definition len_df : M nat := l ← get_df; d ← deref l; mret (df_len d).

(** ** The script *)

Inductive button : Type :=
  | ShowDuplicateSample
  | RemoveDuplicateRows
  | ResetToOriginal
  | DropRowsMissing
  | ApplyImpute.

#[global] Instance button_eq_dec : EqDecision button.
Proof. solve_decision. Defined.

(** one entry of the [strategies] dict: column, strategy name, parameter *)
Definition strategy_entry : Type := string * (string * option string).

(** what one run of the script receives.  The uploader gives a file name and
    what [read_file] makes of the file: a table, or an exception, of which
    line 59 only uses the text [str(e)].  Lines 97-118 only ever build
    entries that suit the column's dtype; [strategies] is any dict, which
    covers them.  [excel_fails] says whether [download_excel_bytes] raises in
    this run (openpyxl is not installed, or a cell holds what Excel cannot
    store); the bytes themselves are not modelled. *)
Record inputs : Type := mkInputs {
  uploaded_file : option (string * result_of string DataFrame);
  default_remove_duplicates : bool;
  default_dropna_on_upload : bool;
  pressed : option button;
  strategies : list strategy_entry;
  excel_fails : bool
}.

Definition skip_notice (col : string) : string :=
  "Skipped " ++ col ++ ": incompatible strategy or dtype.".

Definition pretty_diff (before after : nat) : string :=
  pretty (Z.of_nat before - Z.of_nat after)%Z.

(** the choices of the select boxes, lines 106 and 113 *)
Inductive numeric_choice : Type := ChMean | ChMedian | ChNumConstant.

Inductive categorical_choice : Type := ChMode | ChFfill | ChBfill | ChCatConstant.

(** the state of the widgets of lines 98-118, per column *)
Record widgets : Type := mkWidgets {
  chosen_cols : list string;
  numeric_select : string -> numeric_choice;
  numeric_text : string -> string;
  categorical_select : string -> categorical_choice;
  categorical_text : string -> string
}.

(** lines 104-118 for one chosen column *)
Definition strategy_for (d : DataFrame) (wd : widgets) (col : string)
  : option strategy_entry :=
  match getitem d col with
  | Ok s =>
      Some (col,
        if is_numeric_dtype (s_dtype s) then
          match numeric_select wd col with
          | ChMean => ("mean", None)
          | ChMedian => ("median", None)
          | ChNumConstant => ("numeric_constant", Some (numeric_text wd col))
          end
        else
          match categorical_select wd col with
          | ChMode => ("mode", None)
          | ChFfill => ("ffill", None)
          | ChBfill => ("bfill", None)
          | ChCatConstant => ("cat_constant", Some (categorical_text wd col))
          end)
  | Raise _ => None
  end.

(** lines 102-118: the dict the page builds; the multiselect only offers
    columns of the frame, each once *)
Definition build_strategies (d : DataFrame) (wd : widgets) : list strategy_entry :=
  omap (strategy_for d wd) (chosen_cols wd).

(** line 98: the default of the multiselect, the columns with a missing cell *)
Definition default_chosen (d : DataFrame) : list string :=
  filter (fun c => match getitem d c with
                   | Ok s => existsb isnull (s_values s)
                   | Raise _ => false
                   end = true)
         (df_names d).

(** the widgets as the page first shows them: the default columns, the first
    option of every select box (lines 106 and 113), empty text inputs *)
Definition default_widgets (d : DataFrame) : widgets :=
  mkWidgets (default_chosen d) (fun _ => ChMean) (fun _ => "")
            (fun _ => ChMode) (fun _ => "").

Section Script.

(** Python's [float(text)]: a number, NaN ([None] here), or [ValueError] *)
Variable py_float : string -> result (option Qc).

Definition float_cell (p : string) : result cell :=
  match py_float p with
  | Ok (Some q) => Ok (Num q)
  | Ok None => Ok Missing
  | Raise e => Raise e
  end.

(** [df[col]] on the object behind [df] *)
Definition getitem_at (df : loc) (col : string) : M Series :=
  d ← deref df; lift (getitem d col).

(** [df[col] = s] on the object behind [df] *)
Definition setitem_at (df : loc) (col : string) (s : Series) : M unit :=
  d ← deref df; store df (setitem d col s).

(** lines 169-171 *)
Definition numeric_constant_fill (param : option string) : cell :=
  try_except
    (match param with
     | Some p => if decide (p = "") then Ok (Num (Q2Qc 0)) else float_cell p
     | None => Raise TypeError
     end)
    (Num (Q2Qc 0)).

(** lines 175-179 *)
Definition mode_fill (d : DataFrame) (col : string) : cell :=
  try_except
    (match getitem d col with
     | Ok s => Ok (default (Text "") (head (series_mode s)))
     | Raise e => Raise e
     end)
    (Text "").

(** line 186 *)
Definition cat_constant_fill (param : option string) : option cell :=
  match param with
  | Some p => if decide (p = "") then Some (Text "Unknown") else Some (Text p)
  | None => None
  end.

(** the body of the loop, lines 153-191; the result is [changed] *)
Definition impute_step (df : loc) (e : strategy_entry) (changed : bool)
  : M bool :=
  let '(col, (strategy, param)) := e in
  numeric_stat ←
    (if bool_decide (strategy ∈ ["mean"; "median"])
     then s ← getitem_at df col; mret (is_numeric_dtype (s_dtype s))
     else mret false);
  if (numeric_stat : bool) then
    s ← getitem_at df col;
    let fill_val :=
      if decide (strategy = "mean")
      then try_except (series_mean s) (Num (Q2Qc 0))
      else try_except (series_median s) (Num (Q2Qc 0)) in
    s ← getitem_at df col;
    setitem_at df col (fillna fill_val s);;
    mret true
  else if decide (strategy = "numeric_constant") then
    let fill_val := numeric_constant_fill param in
    s ← getitem_at df col;
    setitem_at df col (fillna fill_val s);;
    mret true
  else if decide (strategy = "mode") then
    d ← deref df;
    let fill_val := mode_fill d col in
    s ← getitem_at df col;
    setitem_at df col (fillna fill_val s);;
    mret true
  else if bool_decide (strategy ∈ ["ffill"; "bfill"]) then
    s ← getitem_at df col;
    setitem_at df col
      (fillna_method (if decide (strategy = "ffill") then FFill else BFill) s);;
    mret true
  else if decide (strategy = "cat_constant") then
    s ← getitem_at df col;
    match cat_constant_fill param with
    | Some fill_val => setitem_at df col (fillna fill_val s);; mret true
    | None => raise ValueError
    end
  else
    emit LWarning (skip_notice col);;
    mret changed.

(** lines 152-191 *)
Fixpoint impute_loop (df : loc) (es : list strategy_entry) (changed : bool)
  : M bool :=
  match es with
  | [] => mret changed
  | e :: es' => c ← impute_step df e changed; impute_loop df es' c
  end.

(** lines 150-194 *)
Definition apply_impute (es : list strategy_entry) : M bool :=
  df ← get_df;
  changed ← impute_loop df es false;
  (if (changed : bool)
   then d ← deref df;
        n ← alloc (reset_index d);
        set_df n;;
        emit LSuccess "Applied missing-value strategies."
   else mret tt);;
  mret changed.

(** lines 55-69 *)
Definition load_upload (inp : inputs) : M unit :=
  match uploaded_file inp with
  | None => mret tt
  | Some (name, content) =>
      match content with
      | Raise e =>
          emit LError ("Failed to read file: " ++ e);; stop
      | Ok d =>
          df_in ← alloc d;
          w ← get_world;
          if bool_decide (ss_uploaded_name w ≠ Some name) then
            set_uploaded_name name;;
            reset_session_df df_in;;
            (if default_remove_duplicates inp
             then replace_df drop_duplicates else mret tt);;
            (if default_dropna_on_upload inp
             then replace_df dropna else mret tt)
          else mret tt
      end
  end.

(** lines 124-146 *)
Definition press (b : option button) (df original_df : loc) : M unit :=
  match b with
  | Some ShowDuplicateSample =>
      d ← deref df;
      if bool_decide (bsum (duplicated KeepFalse d) = 0)
      then emit LInfo "No duplicate rows found."
      else mret tt
  | Some RemoveDuplicateRows =>
      before ← len_df;
      replace_df drop_duplicates;;
      after ← len_df;
      emit LSuccess ("Removed " ++ pretty_diff before after ++ " duplicate rows.")
  | Some ResetToOriginal =>
      reset_session_df original_df;;
      emit LSuccess "Reset working data to original uploaded data."
  | Some DropRowsMissing =>
      before ← len_df;
      replace_df dropna;;
      after ← len_df;
      emit LSuccess ("Dropped " ++ pretty_diff before after
                     ++ " rows containing missing values.")
  | _ => mret tt
  end.

(** lines 72-194: without a table the page shows the instructions and
    stops; with one, the buttons and the imputation.  What lines 82-91 display
    only reads the two frames. *)
Definition after_upload (inp : inputs) : M unit :=
  w ← get_world;
  (if bool_decide (ss_df w = None)
   then emit LInfo "Upload a CSV or Excel file (top-left) to start cleaning.";;
        stop
   else mret tt);;
  df ← get_df;
  original_df ← get_original_df;
  press (pressed inp) df original_df;;
  (if bool_decide (is_Some (uploaded_file inp) ∧ pressed inp = Some ApplyImpute)
   then apply_impute (strategies inp);; mret tt
   else mret tt).

(** lines 196-224: the comparison only reads the two frames, and the
    downloads serialise the working one ([to_csv] of a table that was read
    from a file does not raise); when the Excel export raises the page says
    so (lines 220-224) *)
Definition downloads (inp : inputs) : M unit :=
  if excel_fails inp
  then emit LInfo "Excel download requires openpyxl; CSV is available."
  else mret tt.

(** one run of the whole script *)
Definition script (inp : inputs) : M unit :=
  load_upload inp;;
  after_upload inp;;
  downloads inp.

(** a run starts with an empty page and leaves the session behind, however
    it ends *)
Definition run (inp : inputs) (w : world) : world :=
  (script inp
     (mkWorld (heap w) (ss_uploaded_name w) (ss_original_df w) (ss_df w) [])).1.

Definition runs (inps : list inputs) (w : world) : world :=
  foldl (fun w inp => run inp w) w inps.

End Script.

(** the session before the first run *)
Definition empty_world : world := mkWorld [] None None None [].

(** the frames behind the two session keys *)
Definition working (w : world) : option DataFrame :=
  l ← ss_df w; heap w !! l.

Definition original (w : world) : option DataFrame :=
  l ← ss_original_df w; heap w !! l.

(** * Definitions for the properties *)

(** ** What the duplicate handling keeps and counts *)

(** the rows [drop_duplicates] keeps, as values *)
Definition kept (seen rs : list row) : list row :=
  drop_mask (duplicated_first seen rs) rs.

(** row [i] has an equal row before it *)
Definition has_earlier_twin (rs : list row) (i : nat) : bool :=
  match rs !! i with
  | Some r => bool_decide (r ∈ take i rs)
  | None => false
  end.

(** row [i] has an equal row somewhere else in the table *)
Definition has_twin (rs : list row) (i : nat) : bool :=
  match rs !! i with
  | Some r => bool_decide (r ∈ take i rs ∨ r ∈ drop (S i) rs)
  | None => false
  end.

Definition count_rows (p : nat -> bool) (n : nat) : nat :=
  length (filter (fun i => p i = true) (seq 0 n)).

(** the count the specification describes: every member of every group of
    equal rows *)
Definition spec_duplicate_count (rs : list row) : nat :=
  count_rows (has_twin rs) (length rs).

(** the percentage the specification writes: [round(missing/total*100, 2)] *)
(** [round(x, 2)] of a float64 *)
Definition round2 (q : Q) : Q :=
  rnd64 (inject_Z (round_half_even (rnd64 (q * 100))) / 100)%Q.

(** [round(missing/total*100, 2)] as Python evaluates it on two counts *)
Definition spec_missing_pct (missing total : nat) : Q :=
  round2 (rnd64 (rnd64 (rnd64 (inject_Z (Z.of_nat missing))
                        / rnd64 (inject_Z (Z.of_nat total))) * 100))%Q.

(** ** The loop body as a function *)

(** what one pass of the loop body does to the frame *)
Inductive effect : Type :=
  | Applied (s : Series)
  | Skipped
  | Failed (e : exn).

Section Effects.
Variable py_float : string -> result (option Qc).

(** the loop body as a function of the frame: the column to write back, a
    skip, or the exception that leaves the loop *)
Definition apply_strategy (d : DataFrame) (col strategy : string)
    (param : option string) : effect :=
  if bool_decide (strategy ∈ ["mean"; "median"]) then
    match getitem d col with
    | Raise e => Failed e
    | Ok s =>
        if is_numeric_dtype (s_dtype s) then
          Applied (fillna
            (if decide (strategy = "mean")
             then try_except (series_mean s) (Num (Q2Qc 0))
             else try_except (series_median s) (Num (Q2Qc 0))) s)
        else Skipped
    end
  else if bool_decide (strategy ∈ ["numeric_constant"; "mode"; "ffill"; "bfill";
                                    "cat_constant"]) then
    match getitem d col with
    | Raise e => Failed e
    | Ok s =>
        if decide (strategy = "numeric_constant") then
          Applied (fillna (numeric_constant_fill py_float param) s)
        else if decide (strategy = "mode") then
          Applied (fillna (mode_fill d col) s)
        else if decide (strategy = "ffill") then
          Applied (fillna_method FFill s)
        else if decide (strategy = "bfill") then
          Applied (fillna_method BFill s)
        else
          match cat_constant_fill param with
          | Some v => Applied (fillna v s)
          | None => Failed ValueError
          end
    end
  else Skipped.

Definition entry_effect (d : DataFrame) (e : strategy_entry) : effect :=
  apply_strategy d e.1 e.2.1 e.2.2.

End Effects.

Definition is_applied (x : effect) : bool :=
  match x with Applied _ => true | _ => false end.

Definition is_failed (x : effect) : bool :=
  match x with Failed _ => true | _ => false end.

(** [w'] differs from [w] at most in the object behind [l] and in the page *)
Definition frame (l : loc) (w w' : world) : Prop :=
  ss_uploaded_name w' = ss_uploaded_name w /\
  ss_original_df w' = ss_original_df w /\
  ss_df w' = ss_df w /\
  length (heap w') = length (heap w) /\
  forall k, k <> l -> heap w' !! k = heap w !! k.

(** ** Sessions *)

(** the same file stays in the uploader, or the uploader is empty *)
Definition same_source (n : string) (inp : inputs) : Prop :=
  match uploaded_file inp with
  | None => True
  | Some (n', _) => n' = n
  end.

(** what the uploader holds can be read: [read_file] does not fail *)
Definition readable (inp : inputs) : Prop :=
  match uploaded_file inp with
  | Some (_, Raise _) => False
  | _ => True
  end.

(** a session loaded from the file [n] with content [T]: the two keys point
    to different objects and the original one holds [T] *)
Definition Loaded (n : string) (T : DataFrame) (w : world) : Prop :=
  ss_uploaded_name w = Some n /\
  exists l o,
    ss_df w = Some l /\ ss_original_df w = Some o /\
    l <> o /\ is_Some (heap w !! l) /\ heap w !! o = Some T.

(** what the download block adds to the page, lines 220-224 *)
Definition download_note (inp : inputs) : list message :=
  if excel_fails inp
  then [(LInfo, "Excel download requires openpyxl; CSV is available.")]
  else [].

(** the column [col] of the working table *)
Definition working_column (w : world) (col : string) : option (list cell) :=
  match working w with
  | Some d => match getitem d col with Ok s => Some (s_values s) | Raise _ => None end
  | None => None
  end.

(** ** The notices of a batch *)

Definition is_skipped (x : effect) : bool :=
  match x with Skipped => true | _ => false end.

(** the warnings line 191 shows for a batch, one per skipped entry, in the
    order of the entries *)
Definition skip_notices (py_float : string -> result (option Qc))
    (d : DataFrame) (es : list strategy_entry) : list message :=
  map (fun e => (LWarning, skip_notice e.1))
      (filter (fun e => is_skipped (entry_effect py_float d e) = true) es).

(** the message of line 194 *)
Definition applied_notice (changed : bool) : list message :=
  if changed then [(LSuccess, "Applied missing-value strategies.")] else [].

(** the seven strategy names the loop knows *)
Definition known_kinds : list string :=
  ["mean"; "median"; "numeric_constant"; "mode"; "ffill"; "bfill"; "cat_constant"].

(** ** Shapes, complete rows, valid neighbours *)

(** a row without a missing cell: the rows [dropna] keeps *)
Definition complete_row (r : row) : bool :=
  forallb (fun c => negb (isnull c)) r.

(** every row has one cell per column, as every pandas frame does *)
Definition rectangular (d : DataFrame) : Prop :=
  Forall (fun r => length r.2 = length (df_columns d)) (df_rows d).

(** the last and the first present value of a stretch of cells, missing when
    there is none *)
Definition last_valid (vs : list cell) : cell :=
  default Missing (last (dropna_values vs)).

Definition first_valid (vs : list cell) : cell :=
  default Missing (head (dropna_values vs)).

(** a session that holds a table: both keys are set, on different objects *)
Definition AnyLoaded (w : world) : Prop := exists n T, Loaded n T w.

(** ** What the mode strategy is asked for *)

(** [x] is one of the most frequent values of a column: it is there, and no
    value is there more often *)
Definition most_frequent (vs : list cell) (x : cell) : Prop :=
  x ∈ vs /\ x <> Missing /\
  forall y, y <> Missing ->
    count_occ cell_eq_dec vs y <= count_occ cell_eq_dec vs x.

(** the most frequent values can be sorted: all texts, or all numbers *)
Definition comparable_ties (vs : list cell) : Prop :=
  (forall x, most_frequent vs x -> is_text x = true) \/
  (forall x, most_frequent vs x -> is_text x = false).

(** ** Example tables and runs *)

(** a reading of [float] for the examples: it accepts a non-empty run of
    decimal digits and rejects every other text *)
Definition float_digits (s : string) : result (option Qc) :=
  let cs := String.list_ascii_of_string s in
  if negb (bool_decide (s = ""))
     && forallb (fun a => bool_decide
                   (a ∈ String.list_ascii_of_string "0123456789")) cs
  then Ok (Some (Q2Qc (inject_Z
         (foldl (fun acc a => acc * 10 + (Z.of_nat (Ascii.nat_of_ascii a) - 48))%Z
                0%Z cs))))
  else Raise ValueError.

(** the first run: a file arrives, no button has been pressed yet *)
Definition upload (n : string) (d : DataFrame) : inputs :=
  mkInputs (Some (n, Ok d)) false false None [] false.

(** a later run: the file is still in the uploader and a button is pressed *)
Definition click (n : string) (d : DataFrame) (b : button)
    (es : list strategy_entry) : inputs :=
  mkInputs (Some (n, Ok d)) false false (Some b) es false.

Definition ex_cols : list (string * dtype) := [("id", Int64); ("tag", Object)].

Definition n1 : cell := Num (Q2Qc 1).
Definition n2 : cell := Num (Q2Qc 2).

(** the table [[1,"a"],[1,"a"],[2,"b"]] *)
Definition ex_dup : DataFrame :=
  of_rows ex_cols [[n1; Text "a"]; [n1; Text "a"]; [n2; Text "b"]].


(** a table with missing cells: "age" has two of three, "city" one *)
Definition ex_missing : DataFrame :=
  of_rows [("age", Float64); ("city", Object)]
          [[Num (Q2Qc 30); Text "Paris"]; [Missing; Text "Rome"]; [Missing; Missing]].

(** a numeric column without a single value, next to a text column *)
Definition ex_all_missing : DataFrame :=
  of_rows [("x", Float64); ("y", Object)]
          [[Missing; Text "a"]; [Missing; Text "b"]].

(** a column as [read_excel] gives it, in which the text "b" and the number
    1 occur twice each, and the same column with its first two rows swapped *)
Definition ex_mixed_tie : DataFrame :=
  of_rows [("k", Object)]
          [[Text "b"]; [Num (Q2Qc 1)]; [Num (Q2Qc 1)]; [Text "b"]; [Missing]].

Definition ex_mixed_tie_swapped : DataFrame :=
  of_rows [("k", Object)]
          [[Num (Q2Qc 1)]; [Text "b"]; [Num (Q2Qc 1)]; [Text "b"]; [Missing]].

(** "x" and "y" occur twice each, "z" once: the fill is "x" *)
Definition ex_tie : DataFrame :=
  of_rows [("k", Object)]
          [[Text "y"]; [Text "x"]; [Missing]; [Text "z"]; [Text "y"]; [Text "x"]].

(** widgets with both columns of [ex_missing] chosen: the mean for the
    numeric one, a blank text constant for the other *)
Definition ex_widgets : widgets :=
  mkWidgets ["age"; "city"] (fun _ => ChMean) (fun _ => "")
            (fun _ => ChCatConstant) (fun _ => "").

(** the session after [d] was uploaded as "data.csv" *)
Definition session_of (d : DataFrame) : world :=
  run float_digits (upload "data.csv" d) empty_world.

(** * Properties *)

(** ** Duplicate rows *)

Section Duplicates.
Implicit Types (seen rs : list row) (r : row).

Lemma length_duplicated_first seen rs :
  length (duplicated_first seen rs) = length rs.
Proof.
  revert seen; induction rs as [|r rs IH]; intros seen; simpl; [done|].
  by rewrite IH.
Qed.

Lemma drop_mask_fmap {A B} (f : A -> B) (m : list bool) (l : list A) :
  f <$> drop_mask m l = drop_mask m (f <$> l).
Proof.
  revert l; induction m as [|b m IH]; intros [|x l]; simpl; try done.
  destruct b; simpl; by rewrite IH.
Qed.

Lemma drop_mask_sublist {A} (m : list bool) (l : list A) :
  drop_mask m l `sublist_of` l.
Proof.
  revert l; induction m as [|b m IH]; intros [|x l]; simpl;
    try apply sublist_nil_l.
  destruct b; [apply sublist_cons | apply sublist_skip]; apply IH.
Qed.

Lemma kept_cons seen r rs :
  kept seen (r :: rs) =
  if bool_decide (r ∈ seen) then kept (r :: seen) rs else r :: kept (r :: seen) rs.
Proof. done. Qed.

(** a row already seen can be forgotten or remembered twice: the mask only
    asks for membership *)
Lemma duplicated_first_ext seen seen' rs :
  (forall r, r ∈ seen <-> r ∈ seen') ->
  duplicated_first seen rs = duplicated_first seen' rs.
Proof.
  revert seen seen'; induction rs as [|r rs IH]; intros seen seen' H; simpl;
    [done|].
  f_equal.
  - apply bool_decide_ext, H.
  - apply IH. intros x. rewrite !elem_of_cons, H. done.
Qed.

Lemma kept_seen_dup seen r rs :
  r ∈ seen -> kept (r :: seen) rs = kept seen rs.
Proof.
  intros Hr. unfold kept. f_equal. apply duplicated_first_ext.
  intros x. rewrite elem_of_cons. split; [intros [->|]; done | auto].
Qed.

Lemma kept_not_seen seen rs r : r ∈ kept seen rs -> r ∉ seen.
Proof.
  revert seen; induction rs as [|x rs IH]; intros seen; rewrite ?kept_cons.
  - unfold kept; simpl. by intros ?%elem_of_nil.
  - case_bool_decide as Hx.
    + intros H%IH. rewrite not_elem_of_cons in H. tauto.
    + rewrite elem_of_cons. intros [->|H%IH]; [done|].
      rewrite not_elem_of_cons in H. tauto.
Qed.

Lemma kept_NoDup seen rs : NoDup (kept seen rs).
Proof.
  revert seen; induction rs as [|x rs IH]; intros seen; rewrite ?kept_cons.
  - constructor.
  - case_bool_decide; [apply IH|].
    constructor; [|apply IH].
    intros Hk%kept_not_seen. apply Hk, elem_of_cons; by left.
Qed.


Lemma kept_idemp seen rs : kept seen (kept seen rs) = kept seen rs.
Proof.
  revert seen; induction rs as [|x rs IH]; intros seen; [done|].
  rewrite kept_cons. case_bool_decide as Hx.
  - rewrite kept_seen_dup by done. apply IH.
  - rewrite kept_cons, bool_decide_eq_false_2 by done. f_equal. apply IH.
Qed.

(** the mask is clear exactly on the kept rows *)
Lemma bsum_duplicated_first seen rs :
  bsum (duplicated_first seen rs) + length (kept seen rs) = length rs.
Proof.
  revert seen; induction rs as [|x rs IH]; intros seen; [done|].
  rewrite kept_cons. simpl. unfold bsum in *. rewrite filter_cons.
  specialize (IH (x :: seen)).
  case_bool_decide; case_decide; simpl; try done; lia.
Qed.

(** position by position: marked iff an equal row stands earlier *)
Lemma duplicated_first_lookup seen rs i r :
  rs !! i = Some r ->
  duplicated_first seen rs !! i = Some (bool_decide (r ∈ seen ∨ r ∈ take i rs)).
Proof.
  revert seen i; induction rs as [|x rs IH]; intros seen [|i] H; simpl in *;
    try done.
  - simplify_eq. f_equal. apply bool_decide_ext.
    rewrite elem_of_nil. tauto.
  - rewrite (IH _ _ H). f_equal. apply bool_decide_ext.
    rewrite !elem_of_cons. tauto.
Qed.

End Duplicates.

(** ** Counting marked rows *)

Section Counting.

Lemma bsum_app m1 m2 : bsum (m1 ++ m2) = bsum m1 + bsum m2.
Proof. unfold bsum. by rewrite filter_app, length_app. Qed.

Lemma bsum_mask (m : list bool) (p : nat -> bool) :
  (forall i, i < length m -> m !! i = Some (p i)) ->
  bsum m = count_rows p (length m).
Proof.
  induction m as [|b m IH] using rev_ind; intros H; [done|].
  assert (Hlen : length (m ++ [b]) = S (length m))
    by (rewrite length_app; simpl; lia).
  rewrite bsum_app, Hlen in *.
  unfold count_rows in *. rewrite seq_S, filter_app, length_app. simpl.
  rewrite <- IH.
  - f_equal. specialize (H (length m) ltac:(lia)).
    rewrite lookup_app_r, Nat.sub_diag in H by lia. simpl in H.
    assert (b = p (length m)) as -> by congruence.
    unfold bsum. rewrite !filter_cons, !filter_nil.
    destruct (p (length m)); repeat case_decide; simpl; congruence.
  - intros i Hi. specialize (H i ltac:(lia)).
    by rewrite lookup_app_l in H.
Qed.

Lemma duplicated_false_lookup before rs i r :
  rs !! i = Some r ->
  duplicated_false before rs !! i
  = Some (bool_decide (r ∈ before ∨ r ∈ take i rs ∨ r ∈ drop (S i) rs)).
Proof.
  revert before i; induction rs as [|x rs IH]; intros before [|i] H;
    simpl in *; try done.
  - simplify_eq. f_equal. apply bool_decide_ext.
    rewrite elem_of_nil, drop_0. tauto.
  - rewrite (IH _ _ H). f_equal. apply bool_decide_ext.
    rewrite !elem_of_cons. tauto.
Qed.

Lemma length_duplicated_false before rs :
  length (duplicated_false before rs) = length rs.
Proof.
  revert before; induction rs as [|r rs IH]; intros before; simpl; [done|].
  by rewrite IH.
Qed.

Lemma bsum_keep_first rs :
  bsum (duplicated_first [] rs) = count_rows (has_earlier_twin rs) (length rs).
Proof.
  rewrite <- (length_duplicated_first [] rs). apply bsum_mask.
  intros i Hi. rewrite length_duplicated_first in Hi.
  destruct (lookup_lt_is_Some_2 rs i Hi) as [r Hr].
  rewrite (duplicated_first_lookup _ _ _ _ Hr). unfold has_earlier_twin.
  rewrite Hr. f_equal. apply bool_decide_ext. rewrite elem_of_nil. tauto.
Qed.

(** line 125: what [duplicated(keep=False)] marks is what the specification
    counts *)
Lemma bsum_keep_false rs :
  bsum (duplicated_false [] rs) = spec_duplicate_count rs.
Proof.
  unfold spec_duplicate_count.
  rewrite <- (length_duplicated_false [] rs). apply bsum_mask.
  intros i Hi. rewrite length_duplicated_false in Hi.
  destruct (lookup_lt_is_Some_2 rs i Hi) as [r Hr].
  rewrite (duplicated_false_lookup _ _ _ _ Hr). unfold has_twin.
  rewrite Hr. f_equal. apply bool_decide_ext. rewrite elem_of_nil. tauto.
Qed.

Lemma summary_row_loc_set label r t :
  summary_row label (loc_set label r t) = Some r.
Proof.
  unfold summary_row, loc_set. case_bool_decide as Hin.
  - induction t as [|[l x] t IH]; [by apply elem_of_nil in Hin|].
    simpl in *. destruct (decide (l = label)) as [->|Hne]; simpl.
    + rewrite decide_True by done. done.
    + rewrite decide_False by done.
      apply elem_of_cons in Hin as [?|Hin]; [congruence|].
      specialize (IH Hin).
      destruct (list_find _ _) as [[? [? ?]]|]; simpl in *; congruence.
  - induction t as [|[l x] t IH]; simpl.
    + rewrite decide_True by done. done.
    + simpl in Hin. apply not_elem_of_cons in Hin as [Hne Hin].
      rewrite decide_False by congruence.
      specialize (IH Hin).
      destruct (list_find _ _) as [[? [? ?]]|]; simpl in *; congruence.
Qed.

Lemma summary_duplicates_eq df :
  summary_duplicates df = Some (SInt (bsum (duplicated KeepFirst df))).
Proof.
  unfold summary_duplicates, summary_stats.
  by rewrite summary_row_loc_set.
Qed.

End Counting.

(** C1, as the code has it: the "__duplicates" cell of the summary is the
    number of rows that repeat an earlier row.  Together with the rows
    [drop_duplicates] keeps it makes up the whole table, so it is the number
    of rows "Remove duplicate rows" removes: one less than the size of every
    group of equal rows. *)
Theorem summary_duplicates_counts_repeats (df : DataFrame) :
  exists n,
    summary_duplicates df = Some (SInt n) /\
    n = count_rows (has_earlier_twin (df_values df)) (df_len df) /\
    n + df_len (drop_duplicates df) = df_len df /\
    NoDup (df_values (drop_duplicates df)).
Proof.
  exists (bsum (duplicated KeepFirst df)). split; [apply summary_duplicates_eq|].
  assert (Hlen : df_len df = length (df_values df))
    by (unfold df_len, df_values; by rewrite length_fmap).
  assert (Hval : df_values (drop_duplicates df) = kept [] (df_values df)).
  { unfold df_values, drop_duplicates, kept. simpl. apply drop_mask_fmap. }
  split; [|split].
  - rewrite Hlen. apply bsum_keep_first.
  - transitivity (bsum (duplicated_first [] (df_values df))
                  + length (kept [] (df_values df))).
    + f_equal. rewrite <- Hval. unfold df_len, df_values. by rewrite length_fmap.
    + rewrite Hlen. apply bsum_duplicated_first.
  - rewrite Hval. apply kept_NoDup.
Qed.

(** C1, as the specification has it, fails: in [[1,"a"],[1,"a"],[2,"b"]] two
    rows have an equal row elsewhere, and the summary reports 1. *)
Lemma summary_duplicates_not_keep_all :
  spec_duplicate_count (df_values ex_dup) = 2 /\
  summary_duplicates ex_dup = Some (SInt 1) /\
  summary_duplicates ex_dup <> Some (SInt (spec_duplicate_count (df_values ex_dup))).
Proof. vm_compute. repeat split; congruence. Qed.

(** ** Missing percentages *)

Section Percent.


Open Scope Q_scope.











Lemma zero_div (y : Q) : Qeq_bool (0 / y) 0 = true.
Proof. by destruct y as [[|yn|yn] yd]. Qed.

Lemma spec_missing_pct_zero (n : nat) : spec_missing_pct 0 n = 0.
Proof.
  unfold spec_missing_pct.
  change (rnd64 (inject_Z (Z.of_nat 0))) with 0.
  set (y := rnd64 (inject_Z (Z.of_nat n))).
  assert (E : rnd64 (0 / y) = 0) by (unfold rnd64; by rewrite zero_div).
  rewrite E. reflexivity.
Qed.

Lemma missing_pct_zero (n : nat) :
  (0 < n)%nat -> fround2 (fmul (fdiv_count 0 n) 100) = FFin (spec_missing_pct 0 n).
Proof.
  intros Hn. rewrite spec_missing_pct_zero.
  destruct n as [|n']; [lia|]. unfold fdiv_count.
  change (rnd64 (inject_Z (Z.of_nat 0))) with 0.
  set (y := rnd64 (inject_Z (Z.of_nat (S n')))).
  assert (E : f64 (0 / y) = FFin 0).
  { unfold f64, rnd64. rewrite zero_div. reflexivity. }
  rewrite E. reflexivity.
Qed.

Close Scope Q_scope.


Lemma loc_set_lookup_ne label r t j c x :
  t !! j = Some (c, x) -> c <> label -> loc_set label r t !! j = Some (c, x).
Proof.
  intros Hj Hne. unfold loc_set. case_bool_decide.
  - rewrite list_lookup_fmap, Hj. simpl. by rewrite decide_False.
  - by rewrite lookup_app_l by (by eapply lookup_lt_Some).
Qed.

(** row [j] of the summary, spelled out *)
Lemma summary_stats_lookup df j c t :
  df_columns df !! j = Some (c, t) -> c <> "__duplicates" ->
  summary_stats df !! j =
  Some (c, mkSrow (SStr (dtype_str t))
                  (SInt (bsum (map isnull (col_values j (df_rows df)))))
                  (SFloat (fround2 (fmul
                     (fdiv_count (bsum (map isnull (col_values j (df_rows df))))
                                 (df_len df)) 100)))).
Proof.
  intros Hj Hne. unfold summary_stats. apply loc_set_lookup_ne; [|done].
  rewrite list_lookup_imap, Hj. simpl.
  rewrite !list_lookup_fmap. unfold isnull_sum.
  rewrite list_lookup_imap, Hj. simpl. done.
Qed.

End Percent.




(** 2 of 3: the float64 nearest to 66.67 *)
Example spec_missing_pct_two_thirds :
  spec_missing_pct 2 3 = rnd64 (6667 # 100) /\
  Qred (spec_missing_pct 2 3) = (4691484174324859 # 70368744177664)%Q.
Proof. by vm_compute. Qed.

(** 23 of 160 is 14.375 exactly, but not in float64: the quotient times 100
    is 14.374999999999998, which rounds to 14.37, where rounding 14.375
    itself to the even neighbour would give 14.38 *)
Example spec_missing_pct_float_rounding :
  spec_missing_pct 23 160 = rnd64 (1437 # 100) /\
  (inject_Z 23 / inject_Z 160 * 100 == 14375 # 1000)%Q /\
  (rnd64 (rnd64 (23 # 160) * 100) < 14375 # 1000)%Q /\
  round_half_even ((14375 # 1000) * 100) = 1438%Z.
Proof. by vm_compute. Qed.

(** ** One strategy on one column *)

(** *** Running monadic code on a world *)

Lemma bind_apply {A B} (m : M A) (f : A -> M B) (w : world) :
  (m ≫= f) w =
  match m w with
  | (w', Done a) => f a w'
  | (w', Stopped) => (w', Stopped)
  | (w', Raised e) => (w', Raised e)
  end.
Proof. reflexivity. Qed.

Lemma ret_apply {A} (a : A) (w : world) : (mret a : M A) w = (w, Done a).
Proof. reflexivity. Qed.

Lemma deref_eq l d w : heap w !! l = Some d -> deref l w = (w, Done d).
Proof. intros H. unfold deref. by rewrite H. Qed.

Lemma getitem_at_eq l d col w :
  heap w !! l = Some d ->
  getitem_at l col w =
  (w, match getitem d col with Ok s => Done s | Raise e => Raised e end).
Proof.
  intros H. unfold getitem_at. rewrite bind_apply, (deref_eq _ _ _ H).
  by destruct (getitem d col).
Qed.

Lemma setitem_at_eq l d col s w :
  heap w !! l = Some d ->
  setitem_at l col s w = store l (setitem d col s) w.
Proof.
  intros H. unfold setitem_at. by rewrite bind_apply, (deref_eq _ _ _ H).
Qed.

(** decide the tests on a strategy name that is known, or known to differ *)
Ltac strategy_tests :=
  repeat first
    [ rewrite decide_True by done
    | rewrite decide_False by (done || congruence)
    | rewrite bool_decide_eq_true_2
        by (rewrite ?elem_of_cons, ?elem_of_nil; intuition congruence)
    | rewrite bool_decide_eq_false_2
        by (rewrite ?elem_of_cons, ?elem_of_nil; intuition congruence) ].

Section Strategy.
Variable py_float : string -> result (option Qc).

Lemma impute_step_eq (l : loc) (d : DataFrame) col strategy param c w :
  heap w !! l = Some d ->
  impute_step py_float l (col, (strategy, param)) c w =
  match apply_strategy py_float d col strategy param with
  | Applied s => ((store l (setitem d col s) w).1, Done true)
  | Skipped => ((emit LWarning (skip_notice col) w).1, Done c)
  | Failed e => (w, Raised e)
  end.
Proof.
  intros Hl. unfold impute_step, apply_strategy.
  destruct (decide (strategy = "mean")) as [->|?];
    [|destruct (decide (strategy = "median")) as [->|?];
      [|destruct (decide (strategy = "numeric_constant")) as [->|?];
        [|destruct (decide (strategy = "mode")) as [->|?];
          [|destruct (decide (strategy = "ffill")) as [->|?];
            [|destruct (decide (strategy = "bfill")) as [->|?];
              [|destruct (decide (strategy = "cat_constant")) as [->|?]]]]]]];
    strategy_tests;
    rewrite ?bind_apply, ?ret_apply, ?(getitem_at_eq _ _ _ _ Hl),
      ?(deref_eq _ _ _ Hl);
    try done;
    (destruct (getitem d col) as [s|e] eqn:Hg; [|try done]);
    rewrite ?ret_apply;
    try (destruct (is_numeric_dtype (s_dtype s)); [|done]);
    rewrite ?bind_apply, ?ret_apply, ?(getitem_at_eq _ _ _ _ Hl), ?Hg,
      ?(deref_eq _ _ _ Hl);
    rewrite ?bind_apply, ?ret_apply, ?(getitem_at_eq _ _ _ _ Hl), ?Hg;
    try (destruct (cat_constant_fill param); [|done]);
    rewrite ?bind_apply, ?(setitem_at_eq _ _ _ _ _ Hl); done.
Qed.

End Strategy.

(** ** Reading and writing columns *)

Section Columns.

Lemma col_pos_Some cols c j :
  col_pos cols c = Some j -> exists t, cols !! j = Some (c, t).
Proof.
  revert j; induction cols as [|[n t] cols IH]; intros j; simpl; [done|].
  case_decide as Hn.
  - intros [= <-]. subst. by exists t.
  - destruct (col_pos cols c) as [k|]; simpl; [|done].
    intros [= <-]. by apply IH.
Qed.

Lemma col_pos_names cols cols' c :
  cols.*1 = cols'.*1 -> col_pos cols c = col_pos cols' c.
Proof.
  revert cols'; induction cols as [|[n t] cols IH]; intros [|[n' t'] cols'];
    simpl; try done.
  intros [= -> H]. by rewrite (IH _ H).
Qed.

Lemma set_dtype_names j t cols : (set_dtype j t cols).*1 = cols.*1.
Proof.
  unfold set_dtype. destruct (cols !! j) as [[n t0]|] eqn:Hj; [|done].
  rewrite list_fmap_insert. simpl. apply list_insert_id.
  by rewrite list_lookup_fmap, Hj.
Qed.

Lemma set_dtype_lookup_ne j k t cols :
  j <> k -> set_dtype j t cols !! k = cols !! k.
Proof.
  intros Hne. unfold set_dtype. destruct (cols !! j) as [[n t0]|]; [|done].
  by apply list_lookup_insert_ne.
Qed.

Lemma col_values_set_col_ne j k rs vs :
  j <> k -> col_values k (set_col j rs vs) = col_values k rs.
Proof.
  intros Hne. revert vs; induction rs as [|[i r] rs IH]; intros [|v vs];
    simpl; try done.
  rewrite IH. f_equal. unfold cell_at.
  by rewrite list_lookup_insert_ne.
Qed.

Lemma set_col_same j rs : set_col j rs (col_values j rs) = rs.
Proof.
  induction rs as [|[i r] rs IH]; simpl; [done|].
  rewrite IH. f_equal. f_equal. unfold cell_at.
  destruct (r !! j) as [x|] eqn:Hj; simpl.
  - by apply list_insert_id.
  - apply list_insert_ge. by apply lookup_ge_None.
Qed.

Lemma set_dtype_same j n t cols :
  cols !! j = Some (n, t) -> set_dtype j t cols = cols.
Proof. intros H. unfold set_dtype. rewrite H. by apply list_insert_id. Qed.

(** writing a column leaves every other column as it was *)
Lemma getitem_setitem_ne d c s c' :
  c <> c' -> getitem (setitem d c s) c' = getitem d c'.
Proof.
  intros Hne. unfold setitem.
  destruct (col_pos (df_columns d) c) as [j|] eqn:Hc; [|done].
  unfold getitem. simpl.
  rewrite (col_pos_names _ (df_columns d)) by apply set_dtype_names.
  destruct (col_pos (df_columns d) c') as [k|] eqn:Hc'; [|done].
  assert (j <> k).
  { intros ->. apply col_pos_Some in Hc as [? ?], Hc' as [? ?]. congruence. }
  by rewrite set_dtype_lookup_ne, col_values_set_col_ne.
Qed.

(** writing back what was read changes nothing *)
Lemma setitem_getitem d c s : getitem d c = Ok s -> setitem d c s = d.
Proof.
  unfold getitem, setitem.
  destruct (col_pos (df_columns d) c) as [j|] eqn:Hc; [|done].
  intros [= <-]. simpl. destruct d as [cols rs]. simpl in *.
  rewrite set_col_same. f_equal.
  apply col_pos_Some in Hc as [t Hj]. rewrite Hj. simpl.
  by apply (set_dtype_same _ c).
Qed.

Lemma setitem_names d c s : df_names (setitem d c s) = df_names d.
Proof.
  unfold setitem, df_names.
  destruct (col_pos (df_columns d) c); [|done]. apply set_dtype_names.
Qed.

Lemma map_imap_snd {B} (f : list cell -> B) (g : nat -> nat * list cell -> nat * list cell)
    (rs : list (nat * list cell)) :
  (forall i r, (g i r).2 = r.2) ->
  map (fun r => f r.2) (imap g rs) = map (fun r => f r.2) rs.
Proof.
  revert g; induction rs as [|r rs IH]; intros g Hg; [done|].
  rewrite imap_cons. simpl. rewrite Hg. f_equal.
  apply IH. intros i x. apply Hg.
Qed.

Lemma df_values_reset_index d : df_values (reset_index d) = df_values d.
Proof.
  unfold df_values, reset_index. simpl.
  apply (map_imap_snd (fun r => r)). done.
Qed.

Lemma getitem_reset_index d c : getitem (reset_index d) c = getitem d c.
Proof.
  unfold getitem, reset_index. simpl.
  destruct (col_pos (df_columns d) c) as [j|]; [|done].
  do 2 f_equal. unfold col_values.
  apply (map_imap_snd (cell_at j)). done.
Qed.

Lemma df_len_reset_index d : df_len (reset_index d) = df_len d.
Proof. unfold df_len, reset_index. simpl. apply length_imap. Qed.


End Columns.

(** ** The imputation loop *)

Section Loop.
Variable py_float : string -> result (option Qc).

Lemma frame_refl l w : frame l w w.
Proof. by repeat split. Qed.

Lemma frame_trans l w1 w2 w3 : frame l w1 w2 -> frame l w2 w3 -> frame l w1 w3.
Proof.
  intros (?&?&?&?&H12) (?&?&?&?&H23). repeat split; try congruence.
  intros k Hk. by rewrite H23, H12.
Qed.

Lemma frame_store l d w : frame l w (store l d w).1.
Proof.
  repeat split; simpl; [apply length_insert|].
  intros k Hk. by apply list_lookup_insert_ne.
Qed.

Lemma frame_emit l lv s w : frame l w (emit lv s w).1.
Proof. by repeat split. Qed.

Lemma store_lookup l d d0 w :
  heap w !! l = Some d0 -> heap (store l d w).1 !! l = Some d.
Proof. intros H. simpl. apply list_lookup_insert_eq. by eapply lookup_lt_Some. Qed.

Lemma apply_strategy_ext d d' col strategy param :
  getitem d' col = getitem d col ->
  apply_strategy py_float d' col strategy param
  = apply_strategy py_float d col strategy param.
Proof. intros H. unfold apply_strategy, mode_fill. by rewrite H. Qed.

Lemma impute_loop_cons l e es c w :
  impute_loop py_float l (e :: es) c w =
  match impute_step py_float l e c w with
  | (w', Done c') => impute_loop py_float l es c' w'
  | (w', Stopped) => (w', Stopped)
  | (w', Raised x) => (w', Raised x)
  end.
Proof. reflexivity. Qed.

(** the loop writes to the working object only, never stops the script,
    and leaves the columns it has no entry for as they were *)
Lemma impute_loop_frame l es : forall w d c,
  heap w !! l = Some d ->
  exists d',
    heap (impute_loop py_float l es c w).1 !! l = Some d' /\
    frame l w (impute_loop py_float l es c w).1 /\
    (impute_loop py_float l es c w).2 <> Stopped /\
    forall c', c' ∉ es.*1 -> getitem d' c' = getitem d c'.
Proof.
  induction es as [|[col [strategy param]] es IH]; intros w d c Hl.
  - exists d. simpl. repeat split; try done.
  - rewrite impute_loop_cons, (impute_step_eq _ _ _ _ _ _ _ _ Hl).
    destruct (apply_strategy py_float d col strategy param) as [s| |x] eqn:He.
    + destruct (IH (store l (setitem d col s) w).1 (setitem d col s) true
                   (store_lookup _ _ _ _ Hl)) as (d' & Hd' & Hf & Hs & Hc).
      exists d'. split; [done|]. split; [|split; [done|]].
      * eapply frame_trans; [apply frame_store|exact Hf].
      * intros c' Hc'. simpl in Hc'. apply not_elem_of_cons in Hc' as [? ?].
        rewrite Hc by done. by apply getitem_setitem_ne.
    + destruct (IH (emit LWarning (skip_notice col) w).1 d c Hl)
        as (d' & Hd' & Hf & Hs & Hc).
      exists d'. split; [done|]. split; [|split; [done|]].
      * eapply frame_trans; [apply frame_emit|exact Hf].
      * intros c' Hc'. simpl in Hc'. apply not_elem_of_cons in Hc' as [? ?].
        by apply Hc.
    + exists d. simpl. repeat split; try done.
Qed.

(** with one entry per column, as a dict has, every entry acts on its
    column as it was before the loop, and the flag records whether any
    entry was applied *)
Lemma impute_loop_flag l es : forall w d c,
  heap w !! l = Some d ->
  NoDup es.*1 ->
  (forall b, (impute_loop py_float l es c w).2 = Done b ->
             b = c || existsb (fun e => is_applied (entry_effect py_float d e)) es) /\
  (Forall (fun e => is_failed (entry_effect py_float d e) = false) es ->
   exists b, (impute_loop py_float l es c w).2 = Done b).
Proof.
  induction es as [|[col [strategy param]] es IH]; intros w d c Hl Hnd.
  - simpl. split; [|by eauto].
    intros b [= <-]. by rewrite orb_false_r.
  - simpl in Hnd. apply NoDup_cons in Hnd as [Hcol Hnd].
    rewrite impute_loop_cons, (impute_step_eq _ _ _ _ _ _ _ _ Hl).
    assert (Hext : forall d1, (forall c', c' <> col -> getitem d1 c' = getitem d c') ->
              forall e, e ∈ es -> entry_effect py_float d1 e = entry_effect py_float d e).
    { intros d1 Hd1 e He. unfold entry_effect. apply apply_strategy_ext.
      apply Hd1. intros Heq. apply Hcol. rewrite <- Heq.
      apply list_elem_of_fmap. by exists e. }
    simpl existsb.
    replace (entry_effect py_float d (col, (strategy, param)))
      with (apply_strategy py_float d col strategy param) by done.
    destruct (apply_strategy py_float d col strategy param) as [s| |x] eqn:He;
      simpl.
    + destruct (IH (store l (setitem d col s) w).1 (setitem d col s) true
                   (store_lookup _ _ _ _ Hl) Hnd) as [Hb Hok].
      assert (Hsame : forall e, e ∈ es ->
                entry_effect py_float (setitem d col s) e = entry_effect py_float d e).
      { apply Hext. intros c' Hc'. by apply getitem_setitem_ne. }
      split.
      * intros b Hr. rewrite (Hb b Hr). rewrite orb_true_r. done.
      * intros Hall. apply Forall_cons in Hall as [_ Hall]. apply Hok.
        apply Forall_forall. intros e Hin. rewrite Hsame by done.
        by apply (proj1 (Forall_forall _ _) Hall).
    + destruct (IH (emit LWarning (skip_notice col) w).1 d c Hl Hnd)
        as [Hb Hok].
      split; [done|].
      intros Hall. apply Forall_cons in Hall as [_ Hall]. by apply Hok.
    + split; [done|]. intros Hall. apply Forall_cons in Hall as [Hx _].
      unfold entry_effect in Hx. simpl in Hx. by rewrite He in Hx.
Qed.

End Loop.

(** ** The session across runs *)

Ltac run_script :=
  cbv beta iota delta
    [mbind M_bind mret M_ret deref store alloc emit lift raise stop get_world
     get_df get_original_df set_df set_original_df set_uploaded_name copy
     reset_session_df replace_df len_df press after_upload load_upload];
  simpl.

Section Session.
Variable py_float : string -> result (option Qc).

Lemma script_eq inp w :
  script py_float inp w =
  match load_upload inp w with
  | (w', Done _) => (after_upload py_float inp;; downloads inp) w'
  | (w', Stopped) => (w', Stopped)
  | (w', Raised e) => (w', Raised e)
  end.
Proof. reflexivity. Qed.

(** the downloads only add to the page *)
Lemma downloads_eq inp w :
  downloads inp w =
  (mkWorld (heap w) (ss_uploaded_name w) (ss_original_df w) (ss_df w)
           (out w ++ download_note inp)%list,
   Done tt).
Proof.
  unfold downloads, download_note. destruct (excel_fails inp); [done|].
  destruct w. simpl. by rewrite app_nil_r.
Qed.

Lemma with_downloads_state inp (m : M unit) w :
  heap ((m;; downloads inp) w).1 = heap (m w).1 /\
  ss_uploaded_name ((m;; downloads inp) w).1 = ss_uploaded_name (m w).1 /\
  ss_original_df ((m;; downloads inp) w).1 = ss_original_df (m w).1 /\
  ss_df ((m;; downloads inp) w).1 = ss_df (m w).1.
Proof.
  rewrite bind_apply. destruct (m w) as [w1 [[]| |e]]; [|done|done].
  by rewrite downloads_eq.
Qed.

Lemma Loaded_ext n T w w' :
  Loaded n T w ->
  ss_uploaded_name w' = ss_uploaded_name w ->
  ss_original_df w' = ss_original_df w ->
  ss_df w' = ss_df w ->
  (forall k d, heap w !! k = Some d -> heap w' !! k = Some d) ->
  Loaded n T w'.
Proof.
  intros (Hn & l & o & Hl & Ho & Hne & [d Hd] & HT) En Eo El Hh.
  split; [congruence|]. exists l, o.
  repeat split; try congruence; eauto.
Qed.

(** pointing the working key at a new object *)
Lemma Loaded_new_df n T w d out' :
  Loaded n T w ->
  Loaded n T (mkWorld (heap w ++ [d]) (ss_uploaded_name w) (ss_original_df w)
                      (Some (length (heap w))) out').
Proof.
  intros (Hn & l & o & Hl & Ho & Hne & [d0 Hd] & HT).
  split; [done|]. exists (length (heap w)), o. simpl.
  repeat split; try done.
  - apply lookup_lt_Some in HT. lia.
  - exists d. by rewrite lookup_app_r, Nat.sub_diag.
  - by apply lookup_app_l_Some.
Qed.

Lemma Loaded_apply_impute n T es w :
  Loaded n T w -> Loaded n T (apply_impute py_float es w).1.
Proof.
  intros HL. pose proof HL as (Hn & l & o & Hl & Ho & Hne & [d Hd] & HT).
  unfold apply_impute. rewrite bind_apply.
  unfold get_df at 1. rewrite Hl.
  rewrite bind_apply.
  destruct (impute_loop_frame py_float l es w d false Hd)
    as (d' & Hd' & (Fn & Fo & Fl & Flen & Fk) & Hs & _).
  destruct (impute_loop py_float l es false w) as [w1 r]. simpl in *.
  assert (HL1 : Loaded n T w1).
  { split; [congruence|]. exists l, o.
    repeat split; try congruence; [by eexists|].
    rewrite Fk by done. done. }
  destruct r as [[|]| |e]; try done.
  run_script. simpl.
  by apply Loaded_new_df.
Qed.

End Session.

Section SessionRuns.
Variable py_float : string -> result (option Qc).

Lemma lookup_snoc {A} (h : list A) (x : A) : (h ++ [x])%list !! length h = Some x.
Proof. by rewrite lookup_app_r, Nat.sub_diag. Qed.

Lemma lookup_snoc_lt {A} (h : list A) (x y : A) k :
  h !! k = Some y -> (h ++ [x])%list !! k = Some y.
Proof. apply lookup_app_l_Some. Qed.

(** lines 21-24 on a reference that holds [T] *)
Lemma reset_session_df_eq r T w :
  heap w !! r = Some T ->
  reset_session_df r w =
  (mkWorld (heap w ++ [T] ++ [T]) (ss_uploaded_name w)
           (Some (length (heap w))) (Some (S (length (heap w)))) (out w),
   Done tt).
Proof.
  intros Hr. run_script. rewrite Hr. simpl.
  rewrite (lookup_snoc_lt _ _ _ _ Hr). simpl.
  rewrite length_app. simpl. rewrite Nat.add_1_r.
  by rewrite <- app_assoc.
Qed.

Lemma Loaded_reset n T w r :
  ss_uploaded_name w = Some n ->
  heap w !! r = Some T ->
  Loaded n T (reset_session_df r w).1 /\
  working (reset_session_df r w).1 = Some T /\
  original (reset_session_df r w).1 = Some T.
Proof.
  intros Hn Hr. rewrite (reset_session_df_eq _ _ _ Hr). simpl.
  assert (H1 : (heap w ++ [T; T])%list !! length (heap w) = Some T)
    by (by rewrite lookup_app_r, Nat.sub_diag).
  assert (H2 : (heap w ++ [T; T])%list !! S (length (heap w)) = Some T).
  { rewrite lookup_app_r by lia.
    by replace (S (length (heap w)) - length (heap w)) with 1 by lia. }
  split; [|by split].
  split; [done|]. exists (S (length (heap w))), (length (heap w)). simpl.
  repeat split; try done; try lia; by eexists.
Qed.

Lemma Loaded_replace_df n T f w :
  Loaded n T w -> Loaded n T (replace_df f w).1.
Proof.
  intros HL. pose proof HL as (Hn & l & o & Hl & Ho & Hne & [d Hd] & HT).
  run_script. rewrite Hl. simpl. by apply Loaded_new_df.
Qed.

Lemma replace_df_eq f l d w :
  ss_df w = Some l -> heap w !! l = Some d ->
  replace_df f w =
  (mkWorld (heap w ++ [reset_index (f d)]) (ss_uploaded_name w)
           (ss_original_df w) (Some (length (heap w))) (out w), Done tt).
Proof. intros Hl Hd. run_script. by rewrite Hl, Hd. Qed.

Lemma len_df_eq l d w :
  ss_df w = Some l -> heap w !! l = Some d -> len_df w = (w, Done (df_len d)).
Proof. intros Hl Hd. run_script. by rewrite Hl, Hd. Qed.

(** lines 130-134 *)
Lemma press_remove_eq l d l0 o0 w :
  ss_df w = Some l -> heap w !! l = Some d ->
  press (Some RemoveDuplicateRows) l0 o0 w =
  (mkWorld (heap w ++ [reset_index (drop_duplicates d)]) (ss_uploaded_name w)
           (ss_original_df w) (Some (length (heap w)))
           (out w ++ [(LSuccess,
                       "Removed "
                       ++ pretty_diff (df_len d)
                            (df_len (reset_index (drop_duplicates d)))
                       ++ " duplicate rows.")]),
   Done tt).
Proof.
  intros Hl Hd. unfold press.
  rewrite bind_apply, (len_df_eq _ _ _ Hl Hd).
  rewrite bind_apply, (replace_df_eq _ _ _ _ Hl Hd).
  rewrite bind_apply. erewrite len_df_eq; [|done|apply lookup_snoc].
  done.
Qed.

Lemma Loaded_press n T b l o w :
  Loaded n T w -> ss_original_df w = Some o ->
  Loaded n T (press b l o w).1.
Proof.
  intros HL Ho. pose proof HL as (Hn & l' & o' & Hl & Ho' & Hne & [d Hd] & HT).
  assert (o' = o) as -> by congruence.
  destruct b as [[| | | |]|].
  - unfold press. rewrite bind_apply. unfold deref at 1.
    case_bool_decide; [|done]. by eapply Loaded_ext.
  - rewrite (press_remove_eq _ _ _ _ _ Hl Hd). by apply Loaded_new_df.
  - unfold press. rewrite bind_apply.
    destruct (Loaded_reset n T w o Hn HT) as (HL' & _).
    rewrite (reset_session_df_eq _ _ _ HT) in *. simpl in *.
    by eapply Loaded_ext.
  - unfold press.
    rewrite bind_apply, (len_df_eq _ _ _ Hl Hd).
    rewrite bind_apply, (replace_df_eq _ _ _ _ Hl Hd).
    rewrite bind_apply. erewrite len_df_eq; [|done|apply lookup_snoc].
    by apply Loaded_new_df.
  - done.
  - done.
Qed.

(** "Reset to original upload", lines 138-140 *)
Lemma press_reset_working n T l o w :
  Loaded n T w -> ss_original_df w = Some o ->
  working (press (Some ResetToOriginal) l o w).1 = Some T /\
  original (press (Some ResetToOriginal) l o w).1 = Some T /\
  (press (Some ResetToOriginal) l o w).2 = Done tt.
Proof.
  intros HL Ho. pose proof HL as (Hn & l' & o' & Hl & Ho' & Hne & [d Hd] & HT).
  assert (o' = o) as -> by congruence.
  destruct (Loaded_reset n T w o Hn HT) as (_ & Hw & Horig).
  unfold press. rewrite bind_apply.
  rewrite (reset_session_df_eq _ _ _ HT) in *. done.
Qed.

(** the upload block when the file in the uploader is the one loaded *)
Lemma load_upload_same n T inp w :
  Loaded n T w -> same_source n inp -> Loaded n T (load_upload inp w).1.
Proof.
  intros HL Hs. pose proof HL as (Hn & _). unfold same_source in Hs.
  unfold load_upload. destruct (uploaded_file inp) as [[n' [d|e]]|]; subst.
  - rewrite bind_apply. unfold alloc at 1. rewrite bind_apply.
    unfold get_world at 1. simpl.
    rewrite bool_decide_eq_false_2 by (intros H; by apply H).
    rewrite ret_apply. simpl.
    eapply Loaded_ext; eauto. intros k x Hk. by apply lookup_app_l_Some.
  - rewrite bind_apply. by eapply Loaded_ext.
  - done.
Qed.

(** the upload block when another file arrives *)
Lemma replace_df_Loaded n T f w :
  Loaded n T w -> original w = Some T ->
  exists w', replace_df f w = (w', Done tt) /\
             Loaded n T w' /\ original w' = Some T.
Proof.
  intros HL Ho.
  pose proof HL as (_ & l & o & Hl & Hoo & _ & [d Hd] & HT).
  eexists. split; [by apply (replace_df_eq _ _ _ _ Hl Hd)|].
  split; [by apply Loaded_new_df|].
  unfold original in *. simpl. rewrite Hoo in *. simpl in *.
  by apply lookup_app_l_Some.
Qed.

Lemma load_upload_new n T inp w :
  uploaded_file inp = Some (n, Ok T) ->
  ss_uploaded_name w <> Some n ->
  exists w', load_upload inp w = (w', Done tt) /\
             Loaded n T w' /\ original w' = Some T.
Proof.
  intros Hup Hn. unfold load_upload. rewrite Hup.
  rewrite bind_apply. unfold alloc at 1. rewrite bind_apply.
  unfold get_world at 1. simpl.
  rewrite bool_decide_eq_true_2 by done.
  rewrite bind_apply. unfold set_uploaded_name at 1. simpl.
  set (w1 := mkWorld (heap w ++ [T]) (Some n) (ss_original_df w) (ss_df w) (out w)).
  destruct (Loaded_reset n T w1 (length (heap w)) eq_refl (lookup_snoc _ _))
    as (HL & _ & Ho).
  rewrite bind_apply.
  pose proof (reset_session_df_eq (length (heap w)) T w1 (lookup_snoc _ _)) as E.
  destruct (reset_session_df (length (heap w)) w1) as [w2 r2].
  simpl in HL, Ho. assert (r2 = Done tt) as -> by congruence. clear E.
  rewrite bind_apply.
  destruct (default_remove_duplicates inp), (default_dropna_on_upload inp).
  - destruct (replace_df_Loaded n T drop_duplicates w2 HL Ho)
      as (w3 & -> & HL3 & Ho3).
    by apply replace_df_Loaded.
  - destruct (replace_df_Loaded n T drop_duplicates w2 HL Ho)
      as (w3 & -> & HL3 & Ho3).
    rewrite ret_apply. eauto.
  - rewrite ret_apply. by apply replace_df_Loaded.
  - rewrite !ret_apply. eauto.
Qed.

End SessionRuns.

Section Reset.
Variable py_float : string -> result (option Qc).

Lemma Loaded_original n T w : Loaded n T w -> original w = Some T.
Proof.
  intros (_ & l & o & _ & Ho & _ & _ & HT). unfold original. by rewrite Ho.
Qed.

(** on a loaded session the script goes past line 74 and reads both keys *)
Lemma after_upload_eq inp l o w :
  ss_df w = Some l -> ss_original_df w = Some o ->
  after_upload py_float inp w =
  match press (pressed inp) l o w with
  | (w', Done _) =>
      (if bool_decide (is_Some (uploaded_file inp)
                       ∧ pressed inp = Some ApplyImpute)
       then apply_impute py_float (strategies inp);; mret tt
       else mret tt) w'
  | (w', Stopped) => (w', Stopped)
  | (w', Raised e) => (w', Raised e)
  end.
Proof.
  intros Hl Ho. unfold after_upload. rewrite bind_apply.
  change (get_world w) with (w, Done w). cbv beta iota.
  rewrite (bool_decide_eq_false_2 (ss_df w = None)) by congruence.
  rewrite bind_apply, ret_apply, bind_apply.
  unfold get_df at 1. rewrite Hl. rewrite bind_apply.
  unfold get_original_df at 1. rewrite Ho. by rewrite bind_apply.
Qed.

Lemma after_upload_Loaded n T inp w :
  Loaded n T w -> Loaded n T (after_upload py_float inp w).1.
Proof.
  intros HL. pose proof HL as (Hn & l & o & Hl & Ho & Hne & [d Hd] & HT).
  rewrite (after_upload_eq _ _ _ _ Hl Ho).
  pose proof (Loaded_press n T (pressed inp) l o w HL Ho) as HL1.
  destruct (press (pressed inp) l o w) as [w1 [[]| |e]]; simpl in HL1;
    try done.
  case_bool_decide; [|done].
  rewrite bind_apply.
  pose proof (Loaded_apply_impute py_float n T (strategies inp) w1 HL1) as HL2.
  by destruct (apply_impute py_float (strategies inp) w1) as [w2 [?| |?]].
Qed.

Lemma with_downloads_working inp (m : M unit) w :
  working ((m;; downloads inp) w).1 = working (m w).1 /\
  original ((m;; downloads inp) w).1 = original (m w).1.
Proof.
  destruct (with_downloads_state inp m w) as (Eh & _ & Eo & El).
  unfold working, original. by rewrite Eh, Eo, El.
Qed.

Lemma script_tail_Loaded n T inp w :
  Loaded n T w ->
  Loaded n T ((after_upload py_float inp;; downloads inp) w).1.
Proof.
  intros HL.
  destruct (with_downloads_state inp (after_upload py_float inp) w)
    as (Eh & En & Eo & El).
  eapply Loaded_ext; [by apply (after_upload_Loaded n T inp w HL)|done..|].
  intros k d. by rewrite Eh.
Qed.

Lemma run_Loaded n T inp w :
  Loaded n T w -> same_source n inp -> Loaded n T (run py_float inp w).
Proof.
  intros HL Hs. unfold run. rewrite script_eq.
  set (w0 := mkWorld _ _ _ _ _).
  assert (HL0 : Loaded n T w0) by (by eapply Loaded_ext).
  pose proof (load_upload_same n T inp w0 HL0 Hs) as HL1.
  destruct (load_upload inp w0) as [w1 [[]| |e]]; simpl in HL1; try done.
  by apply script_tail_Loaded.
Qed.

Lemma runs_Loaded n T inps : forall w,
  Loaded n T w -> Forall (same_source n) inps ->
  Loaded n T (runs py_float inps w).
Proof.
  induction inps as [|inp inps IH]; intros w HL Hall; [done|].
  apply Forall_cons in Hall as [Hs Hall]. simpl.
  apply IH; [|done]. by apply run_Loaded.
Qed.

(** a run that brings a file under a new name starts the session over *)
Lemma run_new_source n T inp w :
  uploaded_file inp = Some (n, Ok T) ->
  ss_uploaded_name w <> Some n ->
  Loaded n T (run py_float inp w).
Proof.
  intros Hup Hn. unfold run. rewrite script_eq.
  set (w0 := mkWorld _ _ _ _ _).
  destruct (load_upload_new n T inp w0 Hup Hn) as (w1 & -> & HL & _).
  by apply script_tail_Loaded.
Qed.

(** a run in which "Reset to original upload" is pressed *)
Lemma run_reset n T inp w :
  Loaded n T w -> same_source n inp -> readable inp ->
  pressed inp = Some ResetToOriginal ->
  working (run py_float inp w) = Some T.
Proof.
  intros HL Hs Hr Hb. unfold run. rewrite script_eq.
  set (w0 := mkWorld _ _ _ _ _).
  assert (HL0 : Loaded n T w0) by (by eapply Loaded_ext).
  pose proof (load_upload_same n T inp w0 HL0 Hs) as HL1.
  assert (Hdone : (load_upload inp w0).2 = Done tt).
  { unfold load_upload, readable, same_source in *.
    destruct HL0 as (Hn & _).
    destruct (uploaded_file inp) as [[n' [d|e]]|]; try done. subst.
    rewrite bind_apply. unfold alloc at 1. rewrite bind_apply.
    unfold get_world at 1. simpl.
    by rewrite bool_decide_eq_false_2 by (intros H; by apply H). }
  destruct (load_upload inp w0) as [w1 r1]. cbn [fst snd] in *. subst r1.
  cbv beta iota.
  rewrite (proj1 (with_downloads_working inp (after_upload py_float inp) w1)).
  pose proof HL1 as (Hn & l & o & Hl & Ho & Hne & [d Hd] & HT).
  rewrite (after_upload_eq _ _ _ _ Hl Ho), Hb.
  destruct (press_reset_working n T l o w1 HL1 Ho) as (Hw & _ & Hd').
  destruct (press (Some ResetToOriginal) l o w1) as [w2 r2]. simpl in *.
  subst r2. rewrite bool_decide_eq_false_2 by (intros [_ ?]; done).
  done.
Qed.

End Reset.

(** C5: load a table, run any cleaning actions, press "Reset to original
    upload": the working table is again the table that was loaded. *)
Theorem reset_restores_original
    (py_float : string -> result (option Qc))
    (n : string) (T : DataFrame) (inp0 : inputs) (inps : list inputs)
    (reset : inputs) :
  uploaded_file inp0 = Some (n, Ok T) ->
  Forall (same_source n) inps ->
  same_source n reset -> readable reset ->
  pressed reset = Some ResetToOriginal ->
  working (run py_float reset (runs py_float inps (run py_float inp0 empty_world)))
  = Some T.
Proof.
  intros Hup Hall Hs Hr Hb.
  eapply run_reset; [|done..].
  apply runs_Loaded; [|done].
  by apply run_new_source.
Qed.

(** C6: whatever cleaning actions run on a loaded session, the original
    table stays the table that was loaded; a file under another name
    replaces it. *)
Theorem original_left_unchanged
    (py_float : string -> result (option Qc))
    (n : string) (T : DataFrame) (inp0 : inputs) (inps : list inputs) :
  uploaded_file inp0 = Some (n, Ok T) ->
  Forall (same_source n) inps ->
  let w := runs py_float inps (run py_float inp0 empty_world) in
  original w = Some T /\
  forall n' T' inp',
    uploaded_file inp' = Some (n', Ok T') -> n' <> n ->
    original (run py_float inp' w) = Some T'.
Proof.
  intros Hup Hall w.
  assert (HL : Loaded n T w).
  { apply runs_Loaded; [|done]. by apply run_new_source. }
  split; [by eapply Loaded_original|].
  intros n' T' inp' Hup' Hne.
  eapply Loaded_original, run_new_source; [done|].
  destruct HL as (Hn & _). congruence.
Qed.

(** ** Removing duplicate rows *)

Section RemoveDuplicates.

Lemma df_values_drop_duplicates d :
  df_values (drop_duplicates d) = kept [] (df_values d).
Proof. unfold df_values, drop_duplicates, kept. simpl. apply drop_mask_fmap. Qed.

Lemma duplicated_first_fresh seen rs :
  NoDup rs -> (forall r, r ∈ rs -> r ∉ seen) ->
  duplicated_first seen rs = replicate (length rs) false.
Proof.
  revert seen; induction rs as [|x rs IH]; intros seen Hnd Hs; [done|].
  apply NoDup_cons in Hnd as [Hx Hnd]. simpl.
  rewrite bool_decide_eq_false_2 by (apply Hs, elem_of_cons; by left).
  f_equal. apply IH; [done|].
  intros r Hr. apply not_elem_of_cons. split.
  - intros ->. done.
  - apply Hs, elem_of_cons. by right.
Qed.

Lemma drop_mask_replicate_false {A} (l : list A) :
  drop_mask (replicate (length l) false) l = l.
Proof. induction l as [|x l IH]; simpl; [done|]. by rewrite IH. Qed.

(** a frame without repeated rows is left as it is *)
Lemma drop_duplicates_NoDup d : NoDup (df_values d) -> drop_duplicates d = d.
Proof.
  intros Hnd. unfold drop_duplicates, duplicated.
  rewrite duplicated_first_fresh; [|done|].
  - unfold df_values. rewrite length_fmap, drop_mask_replicate_false.
    by destruct d.
  - intros r _. apply not_elem_of_nil.
Qed.

Lemma reset_index_idemp d : reset_index (reset_index d) = reset_index d.
Proof.
  unfold reset_index. simpl. f_equal.
  apply list_eq. intros i. rewrite !list_lookup_imap.
  by destruct (df_rows d !! i).
Qed.

Lemma reset_index_drop_duplicates_idemp d :
  reset_index (drop_duplicates (reset_index (drop_duplicates d)))
  = reset_index (drop_duplicates d).
Proof.
  rewrite (drop_duplicates_NoDup (reset_index (drop_duplicates d))).
  - apply reset_index_idemp.
  - rewrite df_values_reset_index, df_values_drop_duplicates.
    apply kept_NoDup.
Qed.


Lemma pretty_diff_same n : pretty_diff n n = "0".
Proof. unfold pretty_diff. by rewrite Z.sub_diag. Qed.

End RemoveDuplicates.


(** C9: pressing "Remove duplicate rows" a second time leaves the working
    table as the first press made it, and reports 0 removed rows. *)
Theorem remove_duplicate_rows_idempotent
    (l l0 o0 l1 o1 : loc) (d : DataFrame) (w : world) :
  ss_df w = Some l -> heap w !! l = Some d ->
  let w1 := (press (Some RemoveDuplicateRows) l0 o0 w).1 in
  let r2 := press (Some RemoveDuplicateRows) l1 o1 w1 in
  working w1 = Some (reset_index (drop_duplicates d)) /\
  working r2.1 = working w1 /\
  r2.2 = Done tt /\
  out r2.1 = (out w1 ++ [(LSuccess, "Removed 0 duplicate rows.")])%list.
Proof.
  intros Hl Hd w1 r2.
  set (d1 := reset_index (drop_duplicates d)).
  pose proof (press_remove_eq l d l0 o0 w Hl Hd) as E1.
  assert (Hl1 : ss_df w1 = Some (length (heap w)))
    by (subst w1; by rewrite E1).
  assert (Hd1 : heap w1 !! length (heap w) = Some d1)
    by (subst w1; rewrite E1; apply lookup_snoc).
  assert (Hw1 : working w1 = Some d1)
    by (unfold working; rewrite Hl1; exact Hd1).
  pose proof (press_remove_eq _ d1 l1 o1 w1 Hl1 Hd1) as E2.
  subst r2. rewrite E2. simpl.
  split; [done|]. split.
  { rewrite Hw1. unfold working. simpl. rewrite lookup_snoc.
    subst d1. by rewrite reset_index_drop_duplicates_idemp. }
  split; [done|].
  subst d1. by rewrite reset_index_drop_duplicates_idemp, pretty_diff_same.
Qed.

(** ** The mode of a column *)

Section Ordering.

Lemma ascii_compare_N a b :
  Ascii.compare a b = N.compare (Ascii.N_of_ascii a) (Ascii.N_of_ascii b).
Proof. reflexivity. Qed.

Lemma string_leb_trans (s t u : string) :
  String.leb s t = true -> String.leb t u = true -> String.leb s u = true.
Proof.
  unfold String.leb.
  revert t u; induction s as [|a s IH]; intros [|b t] [|c u]; simpl;
    try done.
  rewrite !ascii_compare_N.
  destruct (N.compare_spec (Ascii.N_of_ascii a) (Ascii.N_of_ascii b)) as [Eab|Lab|Gab];
  destruct (N.compare_spec (Ascii.N_of_ascii b) (Ascii.N_of_ascii c)) as [Ebc|Lbc|Gbc];
  destruct (N.compare_spec (Ascii.N_of_ascii a) (Ascii.N_of_ascii c)) as [Eac|Lac|Gac];
    try done; try lia.
  apply IH.
Qed.

Lemma Qc_leb_trans x y z :
  Qc_leb x y = true -> Qc_leb y z = true -> Qc_leb x z = true.
Proof. unfold Qc_leb. rewrite !Qle_bool_iff. apply Qle_trans. Qed.

Lemma Qc_leb_total x y : Qc_leb x y = true \/ Qc_leb y x = true.
Proof.
  unfold Qc_leb. rewrite !Qle_bool_iff.
  destruct (Qlt_le_dec x y) as [H|H]; [left; by apply Qlt_le_weak | by right].
Qed.

Lemma cell_leb_trans a b c :
  cell_leb a b = true -> cell_leb b c = true -> cell_leb a c = true.
Proof.
  destruct a, b, c; simpl; try done.
  - apply Qc_leb_trans.
  - apply string_leb_trans.
Qed.

Lemma cell_leb_total a b : cell_leb a b = true \/ cell_leb b a = true.
Proof.
  destruct a, b; simpl; auto.
  - apply Qc_leb_total.
  - apply String.leb_total.
Qed.

End Ordering.

Section Sorting.
Context {A : Type} (leb : A -> A -> bool).
Hypothesis leb_trans : forall a b c, leb a b = true -> leb b c = true -> leb a c = true.
Hypothesis leb_total : forall a b, leb a b = true \/ leb b a = true.

Lemma insert_sorted_Permutation x l : insert_sorted leb x l ≡ₚ x :: l.
Proof.
  induction l as [|y l IH]; simpl; [done|].
  destruct (leb x y); [done|]. rewrite IH. apply Permutation_swap.
Qed.

Lemma isort_Permutation l : isort leb l ≡ₚ l.
Proof.
  induction l as [|x l IH]; simpl; [done|].
  by rewrite insert_sorted_Permutation, IH.
Qed.

Lemma head_insert_sorted x l :
  head (insert_sorted leb x l) =
  match head l with
  | Some y => if leb x y then Some x else Some y
  | None => Some x
  end.
Proof. destruct l as [|y l]; simpl; [done|]. by destruct (leb x y). Qed.

(** the first element of the sorted list is below every element *)
Lemma head_isort_least l v :
  head (isort leb l) = Some v -> forall u, u ∈ l -> leb v u = true.
Proof.
  revert v; induction l as [|x l IH]; intros v Hv u Hu.
  - by apply elem_of_nil in Hu.
  - simpl in Hv. rewrite head_insert_sorted in Hv.
    apply elem_of_cons in Hu.
    destruct (head (isort leb l)) as [m|] eqn:Hm.
    + specialize (IH m eq_refl).
      destruct (leb x m) eqn:Hxm.
      * assert (v = x) by congruence. subst v.
        destruct Hu as [Hu|Hu]; [subst u; by destruct (leb_total x x)|].
        eapply leb_trans; [exact Hxm|by apply IH].
      * assert (v = m) by congruence. subst v.
        destruct Hu as [Hu|Hu]; [subst u|by apply IH].
        destruct (leb_total x m); [congruence|done].
    + assert (v = x) by congruence. subst v.
      assert (l = []) as ->.
      { destruct l as [|y l]; [done|].
        assert (Hp := isort_Permutation (y :: l)).
        destruct (isort leb (y :: l)); [|done].
        by apply Permutation_nil_cons in Hp. }
      destruct Hu as [Hu|Hu]; [subst u|by apply elem_of_nil in Hu].
      by destruct (leb_total x x).
Qed.

Lemma head_isort_elem_of l v : head (isort leb l) = Some v -> v ∈ l.
Proof.
  intros Hv. rewrite <- (isort_Permutation l).
  destruct (isort leb l); simplify_eq/=. apply elem_of_cons. by left.
Qed.

Lemma head_isort_is_Some l : l <> [] -> is_Some (head (isort leb l)).
Proof.
  intros Hl. assert (Hp := isort_Permutation l).
  destruct (isort leb l) as [|v k]; [|by eexists].
  apply Permutation_nil_l in Hp. congruence.
Qed.

End Sorting.

Section Mode.

Lemma unique_elem_of seen vs c : c ∈ unique seen vs <-> c ∈ vs /\ c ∉ seen.
Proof.
  revert seen; induction vs as [|x vs IH]; intros seen; simpl.
  - rewrite elem_of_nil. tauto.
  - case_decide as Hx.
    + rewrite IH, elem_of_cons. split; [tauto|].
      intros [[->|?] ?]; tauto.
    + rewrite !elem_of_cons, IH, not_elem_of_cons.
      destruct (decide (c = x)) as [->|?]; tauto.
Qed.

(** the tied values are the present values no other value outnumbers *)
Lemma tied_modes_spec vs u :
  u ∈ tied_modes vs <->
  u ∈ dropna_values vs /\
  forall x, x ∈ dropna_values vs ->
    count_of x (dropna_values vs) <= count_of u (dropna_values vs).
Proof.
  unfold tied_modes. set (nn := dropna_values vs).
  set (cnt := fun c => count_of c nn).
  rewrite list_elem_of_filter, unique_elem_of.
  assert (Hmem : forall x, x ∈ nn -> cnt x ∈ map cnt (unique [] nn)).
  { intros x Hx. apply (list_elem_of_fmap_2 cnt).
    apply unique_elem_of. split; [done|apply not_elem_of_nil]. }
  split.
  - intros (Htop & Hu & _). split; [done|].
    intros x Hx. rewrite Htop.
    by apply max_list_elem_of_le, Hmem.
  - intros (Hu & Hmax). split; [|split; [done|apply not_elem_of_nil]].
    apply Nat.le_antisymm.
    + by apply max_list_elem_of_le, Hmem.
    + assert (Hne : map cnt (unique [] nn) <> []).
      { intros Hnil. specialize (Hmem u Hu). rewrite Hnil in Hmem.
        by apply elem_of_nil in Hmem. }
      apply max_list_elem_of in Hne.
      apply list_elem_of_fmap in Hne as (x & -> & Hx).
      apply unique_elem_of in Hx as [Hx _]. by apply Hmax.
Qed.

End Mode.

Section LeastTied.

Lemma count_of_occ c vs : count_of c vs = count_occ cell_eq_dec vs c.
Proof.
  unfold count_of. induction vs as [|x vs IH]; [done|].
  destruct (decide (x = c)) as [E|E].
  - rewrite filter_cons_True, count_occ_cons_eq by done. simpl. by rewrite IH.
  - by rewrite filter_cons_False, count_occ_cons_neq by done.
Qed.

Lemma count_occ_dropna c vs :
  c <> Missing ->
  count_occ cell_eq_dec (dropna_values vs) c = count_occ cell_eq_dec vs c.
Proof.
  intros Hc. unfold dropna_values. induction vs as [|x vs IH]; [done|].
  destruct x as [|q|t].
  - rewrite filter_cons_False by (simpl; congruence). rewrite IH.
    by rewrite count_occ_cons_neq by congruence.
  - rewrite filter_cons_True by reflexivity.
    destruct (decide (Num q = c)) as [E|E].
    + by rewrite !count_occ_cons_eq, IH by done.
    + by rewrite !count_occ_cons_neq, IH by done.
  - rewrite filter_cons_True by reflexivity.
    destruct (decide (Text t = c)) as [E|E].
    + by rewrite !count_occ_cons_eq, IH by done.
    + by rewrite !count_occ_cons_neq, IH by done.
Qed.

Lemma elem_of_dropna c vs : c ∈ dropna_values vs <-> c ∈ vs /\ c <> Missing.
Proof.
  unfold dropna_values. rewrite list_elem_of_filter.
  destruct c; simpl; split; intros [? ?]; done.
Qed.

(** the tied values of the embedding are the most frequent values *)
Lemma tied_modes_most_frequent vs u :
  u ∈ tied_modes vs <-> most_frequent vs u.
Proof.
  rewrite tied_modes_spec. unfold most_frequent. rewrite elem_of_dropna.
  split.
  - intros ([Hu Hm] & Hmax). split; [done|]. split; [done|].
    intros y Hy. destruct (decide (y ∈ vs)) as [Hin|Hin].
    + specialize (Hmax y (proj2 (elem_of_dropna y vs) (conj Hin Hy))).
      by rewrite !count_of_occ, !count_occ_dropna in Hmax.
    + rewrite (proj1 (count_occ_not_In cell_eq_dec vs y)); [lia|].
      by rewrite <- list_elem_of_In.
  - intros (Hu & Hm & Hmax). split; [done|].
    intros x [Hx Hxm]%elem_of_dropna.
    rewrite !count_of_occ, !count_occ_dropna by done. by apply Hmax.
Qed.

Lemma most_frequent_Permutation vs vs' x :
  vs ≡ₚ vs' -> most_frequent vs x -> most_frequent vs' x.
Proof.
  intros Hp (Hx & Hm & Hmax). split; [by rewrite <- Hp|]. split; [done|].
  intros y Hy. rewrite <- !(proj1 (Permutation_count_occ cell_eq_dec vs vs') Hp).
  by apply Hmax.
Qed.

Lemma comparable_ties_Permutation vs vs' :
  vs ≡ₚ vs' -> comparable_ties vs -> comparable_ties vs'.
Proof.
  intros Hp [H|H]; [left|right]; intros x Hx; apply H;
    by apply (most_frequent_Permutation vs' vs).
Qed.

Lemma comparable_ties_sortable vs :
  comparable_ties vs <-> sortable (tied_modes vs) = true.
Proof.
  unfold sortable. rewrite orb_true_iff, !forallb_forall. split.
  - intros [H|H]; [right|left]; intros x Hx%list_elem_of_In.
    + by apply H, tied_modes_most_frequent.
    + by rewrite (H x) by (by apply tied_modes_most_frequent).
  - intros [H|H]; [right|left]; intros x Hx%tied_modes_most_frequent.
    + apply list_elem_of_In, H in Hx. by destruct (is_text x).
    + by apply H, list_elem_of_In.
Qed.

Lemma cell_leb_antisym u v :
  is_text u = is_text v -> u <> Missing -> v <> Missing ->
  cell_leb u v = true -> cell_leb v u = true -> u = v.
Proof.
  destruct u as [|x|x], v as [|y|y]; simpl; try done.
  - intros _ _ _ Huv Hvu. f_equal. apply Qc_is_canon. unfold Qc_leb in *.
    apply Qle_bool_iff in Huv, Hvu. by apply Qle_antisym.
  - intros _ _ _ Huv Hvu. f_equal. by apply String.leb_antisym.
Qed.

(** with values that can be sorted the fill is the least of the most
    frequent ones *)
Lemma mode_fill_least d col s :
  getitem d col = Ok s ->
  (exists x, most_frequent (s_values s) x) ->
  comparable_ties (s_values s) ->
  most_frequent (s_values s) (mode_fill d col) /\
  forall u, most_frequent (s_values s) u -> cell_leb (mode_fill d col) u = true.
Proof.
  intros Hg [x Hx] Hc. apply comparable_ties_sortable in Hc.
  assert (Hne : tied_modes (s_values s) <> []).
  { intros E. apply tied_modes_most_frequent in Hx. rewrite E in Hx.
    by apply elem_of_nil in Hx. }
  destruct (head_isort_is_Some cell_leb (tied_modes (s_values s)) Hne) as [v Hv].
  assert (E : mode_fill d col = v).
  { unfold mode_fill, series_mode. by rewrite Hg, Hc, Hv. }
  rewrite E. split.
  - apply tied_modes_most_frequent. by apply (head_isort_elem_of cell_leb _ _ Hv).
  - intros u Hu%tied_modes_most_frequent.
    by apply (head_isort_least cell_leb cell_leb_trans cell_leb_total _ _ Hv).
Qed.

(** the first element that passes a test, among the distinct ones *)
Lemma head_filter_unique (P : cell -> Prop) `{!forall c, Decision (P c)} nn :
  forall seen v,
  head (filter P (unique seen nn)) = Some v ->
  exists n1 n2, nn = (n1 ++ v :: n2)%list /\
                forall u, u ∈ n1 -> u ∈ seen \/ ~ P u.
Proof.
  induction nn as [|c nn IH]; intros seen v; simpl; [done|].
  destruct (decide (c ∈ seen)) as [Hc|Hc].
  - intros (n1 & n2 & -> & Hf)%IH. exists (c :: n1), n2. split; [done|].
    intros u [->|Hu]%elem_of_cons; [by left|by apply Hf].
  - rewrite filter_cons. destruct (decide (P c)) as [Hp|Hp].
    + intros [= <-]. exists [], nn. split; [done|].
      intros u Hu. by apply elem_of_nil in Hu.
    + intros (n1 & n2 & -> & Hf)%IH. exists (c :: n1), n2. split; [done|].
      intros u [->|Hu]%elem_of_cons; [by right|].
      destruct (Hf u Hu) as [[->|Hs]%elem_of_cons|Hn]; auto.
Qed.

Lemma filter_app_cons_inv (Q : cell -> Prop) `{!forall c, Decision (Q c)} vs :
  forall n1 v n2,
  filter Q vs = (n1 ++ v :: n2)%list ->
  exists l1 l2, vs = (l1 ++ v :: l2)%list /\ filter Q l1 = n1.
Proof.
  induction vs as [|x vs IH]; intros n1 v n2; [by destruct n1|].
  rewrite filter_cons. destruct (decide (Q x)) as [Hq|Hq].
  - destruct n1 as [|y n1]; simpl.
    + intros [= -> _]. by exists [], vs.
    + intros [= -> (l1 & l2 & -> & E)%IH]. exists (y :: l1), l2.
      split; [done|]. by rewrite filter_cons_True, E.
  - intros (l1 & l2 & -> & E)%IH. exists (x :: l1), l2.
    split; [done|]. by rewrite filter_cons_False.
Qed.

(** with values that cannot be sorted the fill is the most frequent value
    that comes first in the column *)
Lemma mode_fill_first d col s :
  getitem d col = Ok s ->
  (exists x, most_frequent (s_values s) x) ->
  ~ comparable_ties (s_values s) ->
  most_frequent (s_values s) (mode_fill d col) /\
  exists l1 l2, s_values s = (l1 ++ mode_fill d col :: l2)%list /\
                forall u, u ∈ l1 -> ~ most_frequent (s_values s) u.
Proof.
  intros Hg [x Hx] Hc. rewrite comparable_ties_sortable in Hc.
  apply not_true_is_false in Hc.
  assert (Hne : tied_modes (s_values s) <> []).
  { intros E. apply tied_modes_most_frequent in Hx. rewrite E in Hx.
    by apply elem_of_nil in Hx. }
  destruct (tied_modes (s_values s)) as [|v k] eqn:Ht; [done|].
  assert (E : mode_fill d col = v).
  { unfold mode_fill, series_mode. by rewrite Hg, Ht, Hc. }
  rewrite E.
  assert (Hv : most_frequent (s_values s) v).
  { apply tied_modes_most_frequent. rewrite Ht. apply elem_of_cons. by left. }
  split; [done|].
  assert (Hh : head (tied_modes (s_values s)) = Some v) by (by rewrite Ht).
  unfold tied_modes in Hh.
  apply head_filter_unique in Hh as (n1 & n2 & Hnn & Hfirst).
  apply filter_app_cons_inv in Hnn as (l1 & l2 & Hvs & Hl1).
  exists l1, l2. split; [done|].
  intros u Hu Hmf. pose proof Hmf as (_ & Hum & _).
  assert (Hin : u ∈ n1).
  { rewrite <- Hl1. apply list_elem_of_filter. split; [by destruct u|done]. }
  destruct (Hfirst u Hin) as [Hs|Hn]; [by apply elem_of_nil in Hs|].
  apply Hn. apply tied_modes_most_frequent in Hmf. unfold tied_modes in Hmf.
  by apply list_elem_of_filter in Hmf as [? _].
Qed.

End LeastTied.

(** C10, as the code has it: the fill of the mode strategy is one of the most
    frequent values of the column, and the same column always gives the same
    filled column.  When the most frequent values are all numbers or all
    texts the fill is the least of them, whatever the order of the rows.
    When numbers and texts tie they cannot be sorted, and the fill is the one
    of them that comes first in the column. *)
Theorem mode_fills_with_least_tied
    (py_float : string -> result (option Qc))
    (d : DataFrame) (col : string) (param : option string) (s : Series) :
  getitem d col = Ok s ->
  (exists x, most_frequent (s_values s) x) ->
  let vs := s_values s in
  let v := mode_fill d col in
  most_frequent vs v /\
  apply_strategy py_float d col "mode" param = Applied (fillna v s) /\
  (forall d2, getitem d2 col = Ok s ->
     apply_strategy py_float d2 col "mode" param = Applied (fillna v s)) /\
  (comparable_ties vs ->
     (forall u, most_frequent vs u -> cell_leb v u = true) /\
     (forall u, most_frequent vs u -> cell_leb u v = true -> u = v) /\
     (forall d2 s2, getitem d2 col = Ok s2 -> vs ≡ₚ s_values s2 ->
        mode_fill d2 col = v)) /\
  (~ comparable_ties vs ->
     exists l1 l2, vs = (l1 ++ v :: l2)%list /\
                   forall u, u ∈ l1 -> ~ most_frequent vs u).
Proof.
  intros Hg Hx vs v.
  assert (Hfill : forall d2, getitem d2 col = Ok s -> mode_fill d2 col = v).
  { intros d2 H2. subst v. unfold mode_fill. by rewrite H2, Hg. }
  assert (Happ : forall d2, getitem d2 col = Ok s ->
            apply_strategy py_float d2 col "mode" param = Applied (fillna v s)).
  { intros d2 H2. unfold apply_strategy. strategy_tests.
    by rewrite H2, (Hfill d2 H2). }
  assert (Hv : most_frequent vs v).
  { destruct (sortable (tied_modes vs)) eqn:Hs.
    - apply comparable_ties_sortable in Hs. by apply (mode_fill_least d col s).
    - apply (mode_fill_first d col s); [done..|].
      intros Hc%comparable_ties_sortable. subst vs. congruence. }
  split; [done|]. split; [by apply Happ|]. split; [done|]. split.
  - intros Hc. destruct (mode_fill_least d col s Hg Hx Hc) as [_ Hleast].
    assert (Hsame : forall u, most_frequent vs u -> is_text u = is_text v).
    { intros u Hu. destruct Hc as [H|H]; by rewrite (H u), (H v). }
    split; [done|]. split.
    + intros u Hu Huv. pose proof Hu as (_ & Hum & _).
      pose proof Hv as (_ & Hvm & _).
      apply cell_leb_antisym; auto.
    + intros d2 s2 H2 Hp.
      assert (Hx2 : exists x, most_frequent (s_values s2) x).
      { destruct Hx as [x Hx]. exists x.
        by apply (most_frequent_Permutation vs). }
      destruct (mode_fill_least d2 col s2 H2 Hx2
                  (comparable_ties_Permutation _ _ Hp Hc)) as [Hv2 Hleast2].
      assert (Hv2' : most_frequent vs (mode_fill d2 col)).
      { by apply (most_frequent_Permutation (s_values s2)). }
      pose proof Hv2' as (_ & Hm2 & _). pose proof Hv as (_ & Hvm & _).
      apply cell_leb_antisym; auto.
      apply Hleast2. by apply (most_frequent_Permutation vs).
  - intros Hc. by destruct (mode_fill_first d col s Hg Hx Hc) as [_ H].
Qed.

(** ** Strategies and dtypes *)

Section Mismatch.
Variable py_float : string -> result (option Qc).

Lemma as_numbers_all_missing vs :
  Forall (fun c => c = Missing) vs -> as_numbers vs = Ok [].
Proof. induction 1 as [|c vs -> _ IH]; simpl; [done|]. by rewrite IH. Qed.

Lemma fillna_missing s : fillna Missing s = s.
Proof.
  destruct s as [t vs]. unfold fillna. simpl. rewrite andb_false_r. f_equal.
  induction vs as [|c vs IH]; simpl; [done|]. rewrite IH. by destruct c.
Qed.

Lemma store_same l d w : heap w !! l = Some d -> (store l d w).1 = w.
Proof.
  intros H. destruct w as [h n o c m]. simpl in *. f_equal.
  by apply list_insert_id.
Qed.

(** the five other kinds never ask for the dtype *)
Lemma other_kinds_applied d col kind param s :
  getitem d col = Ok s ->
  kind ∈ ["numeric_constant"; "mode"; "ffill"; "bfill"]
  \/ (kind = "cat_constant" /\ param <> None) ->
  is_applied (apply_strategy py_float d col kind param) = true.
Proof.
  intros Hg Hk. unfold apply_strategy. rewrite Hg.
  rewrite !elem_of_cons, elem_of_nil in Hk.
  destruct Hk as [[->|[->|[->|[->|[]]]]]|[-> Hp]]; strategy_tests; try done.
  destruct param as [p|]; [|done]. simpl. by case_decide.
Qed.

(** what the widgets build is applied, never skipped: the select boxes
    only offer the kinds that suit the column *)
Lemma build_strategies_applied d wd e :
  e ∈ build_strategies d wd ->
  is_applied (entry_effect py_float d e) = true.
Proof.
  unfold build_strategies. rewrite list_elem_of_omap.
  intros (col & _ & He). unfold strategy_for in He.
  destruct (getitem d col) as [s|] eqn:Hg; [|done].
  injection He as <-. unfold entry_effect. simpl.
  destruct (is_numeric_dtype (s_dtype s)) eqn:Hnum.
  - destruct (numeric_select wd col); simpl.
    + unfold apply_strategy. strategy_tests. by rewrite Hg, Hnum.
    + unfold apply_strategy. strategy_tests. by rewrite Hg, Hnum.
    + apply (other_kinds_applied _ _ _ _ s Hg). left.
      rewrite !elem_of_cons. tauto.
  - destruct (categorical_select wd col); simpl;
      apply (other_kinds_applied _ _ _ _ s Hg);
      rewrite !elem_of_cons; auto 10.
Qed.

End Mismatch.

(** C3 on the code: for a numeric column in which every cell is missing,
    pandas gives NaN for the mean and the median and raises nothing, so the
    fallback 0 of the [except] branch is not taken; filling with NaN leaves
    every cell missing, and the entry counts as applied. *)
Theorem mean_median_all_missing_stays_missing
    (py_float : string -> result (option Qc))
    (l : loc) (d : DataFrame) (col strategy : string) (param : option string)
    (s : Series) (c : bool) (w : world) :
  heap w !! l = Some d ->
  strategy ∈ ["mean"; "median"] ->
  getitem d col = Ok s ->
  is_numeric_dtype (s_dtype s) = true ->
  Forall (fun x => x = Missing) (s_values s) ->
  try_except (series_mean s) (Num (Q2Qc 0)) = Missing /\
  try_except (series_median s) (Num (Q2Qc 0)) = Missing /\
  apply_strategy py_float d col strategy param = Applied s /\
  impute_step py_float l (col, (strategy, param)) c w = (w, Done true).
Proof.
  intros Hl Hs Hg Hnum Hall.
  assert (Hmean : try_except (series_mean s) (Num (Q2Qc 0)) = Missing)
    by (unfold series_mean; by rewrite as_numbers_all_missing).
  assert (Hmed : try_except (series_median s) (Num (Q2Qc 0)) = Missing)
    by (unfold series_median; by rewrite as_numbers_all_missing).
  assert (Happ : apply_strategy py_float d col strategy param = Applied s).
  { unfold apply_strategy. rewrite bool_decide_eq_true_2 by done.
    rewrite Hg, Hnum, Hmean, Hmed. case_decide; by rewrite fillna_missing. }
  repeat split; try done.
  rewrite (impute_step_eq _ _ _ _ _ _ _ _ Hl), Happ.
  rewrite (setitem_getitem _ _ _ Hg). by rewrite (store_same _ _ _ Hl).
Qed.

Lemma mean_median_all_missing_stays_missing_witness :
  let w := session_of ex_all_missing in
  try_except (series_mean (mkSeries Float64 [Missing; Missing])) (Num (Q2Qc 0))
    = Missing /\
  try_except (series_median (mkSeries Float64 [Missing; Missing])) (Num (Q2Qc 0))
    = Missing /\
  apply_strategy float_digits ex_all_missing "x" "mean" None
    = Applied (mkSeries Float64 [Missing; Missing]) /\
  impute_step float_digits 2 ("x", ("mean", None)) false w = (w, Done true).
Proof.
  apply (mean_median_all_missing_stays_missing float_digits 2 ex_all_missing
           "x" "mean" None (mkSeries Float64 [Missing; Missing]));
    [reflexivity | constructor | reflexivity | reflexivity
    | repeat constructor].
Defined.

(** the whole action on that table: "Applied" is reported, the column is
    as empty as before and holds no 0 *)
Example all_missing_column_after_mean :
  let w := session_of ex_all_missing in
  let r := apply_impute float_digits [("x", ("mean", None))] w in
  r.2 = Done true /\
  out r.1 = [(LSuccess, "Applied missing-value strategies.")] /\
  working_column r.1 "x" = Some [Missing; Missing] /\
  working_column r.1 "x" <> Some [Num (Q2Qc 0); Num (Q2Qc 0)].
Proof. vm_compute. repeat split; congruence. Qed.

(** ** The whole "Apply missing-value strategies" action *)

Section ApplyImpute.
Variable py_float : string -> result (option Qc).

Lemma apply_impute_eq l es w :
  ss_df w = Some l ->
  apply_impute py_float es w =
  match impute_loop py_float l es false w with
  | (w1, Done true) =>
      (mkWorld (heap w1 ++ [reset_index (default empty_df (heap w1 !! l))])
               (ss_uploaded_name w1) (ss_original_df w1)
               (Some (length (heap w1)))
               (out w1 ++ [(LSuccess, "Applied missing-value strategies.")]),
       Done true)
  | (w1, Done false) => (w1, Done false)
  | (w1, Stopped) => (w1, Stopped)
  | (w1, Raised e) => (w1, Raised e)
  end.
Proof.
  intros Hl. unfold apply_impute. rewrite bind_apply.
  unfold get_df at 1. rewrite Hl. rewrite bind_apply.
  by destruct (impute_loop py_float l es false w) as [w1 [[|]| |e]].
Qed.

End ApplyImpute.

(** C8, as the code has it: a column without an entry is read after the
    action as before it, and the result is true exactly when at least one
    entry was applied rather than skipped, whether or not a cell changed.
    With one entry per column, and no entry that raises, the action ends
    with that result. *)
Theorem apply_impute_untouched_and_flag
    (py_float : string -> result (option Qc))
    (l : loc) (d : DataFrame) (es : list strategy_entry) (w : world) :
  ss_df w = Some l -> heap w !! l = Some d ->
  NoDup es.*1 ->
  let r := apply_impute py_float es w in
  (exists d', working r.1 = Some d' /\
     forall c, c ∉ es.*1 -> getitem d' c = getitem d c) /\
  (forall b, r.2 = Done b ->
     b = existsb (fun e => is_applied (entry_effect py_float d e)) es) /\
  (Forall (fun e => is_failed (entry_effect py_float d e) = false) es ->
   r.2 = Done (existsb (fun e => is_applied (entry_effect py_float d e)) es)).
Proof.
  intros Hl Hd Hnd r. subst r.
  rewrite (apply_impute_eq _ _ _ _ Hl).
  destruct (impute_loop_frame py_float l es w d false Hd)
    as (d' & Hd' & (Fn & Fo & Fl & Flen & Fk) & Hs & Hc).
  destruct (impute_loop_flag py_float l es w d false Hd Hnd) as [Hb Hok].
  destruct (impute_loop py_float l es false w) as [w1 o]. simpl in *.
  assert (Hflag : forall b, o = Done b ->
            b = existsb (fun e => is_applied (entry_effect py_float d e)) es)
    by (intros b Ho; by apply Hb).
  destruct o as [[|]| |e]; simpl; try done.
  - split; [|split].
    + exists (reset_index d'). unfold working. simpl.
      rewrite lookup_snoc, Hd'. split; [done|].
      intros c Hc'. rewrite getitem_reset_index. by apply Hc.
    + intros b [= <-]. by apply Hflag.
    + intros _. f_equal. by apply Hflag.
  - split; [|split].
    + exists d'. unfold working. rewrite Fl, Hl. simpl. split; [done|exact Hc].
    + intros b [= <-]. by apply Hflag.
    + intros _. f_equal. by apply Hflag.
  - split; [|split; [done|]].
    + exists d'. unfold working. rewrite Fl, Hl. simpl. split; [done|exact Hc].
    + intros Hall. destruct (Hok Hall) as [b Hb']. done.
Qed.

Lemma apply_impute_untouched_and_flag_witness :
  let w := session_of ex_missing in
  let es := [("age", ("median", None)); ("zip", ("mystery", None))] in
  let r := apply_impute float_digits es w in
  (exists d', working r.1 = Some d' /\
     forall c, c ∉ es.*1 -> getitem d' c = getitem ex_missing c) /\
  (forall b, r.2 = Done b ->
     b = existsb (fun e => is_applied (entry_effect float_digits ex_missing e)) es) /\
  (Forall (fun e => is_failed (entry_effect float_digits ex_missing e) = false) es ->
   r.2 = Done (existsb (fun e => is_applied (entry_effect float_digits ex_missing e)) es)).
Proof.
  apply (apply_impute_untouched_and_flag float_digits 2 ex_missing
           [("age", ("median", None)); ("zip", ("mystery", None))]);
    [reflexivity | reflexivity | ].
  apply (bool_decide_unpack _). vm_compute. exact I.
Defined.

(** C8, as the specification has it, fails: the mode strategy on a column
    without a missing cell changes no cell of the table, and the result is
    true all the same. *)
Lemma apply_impute_true_without_change :
  let w := session_of ex_dup in
  let r := apply_impute float_digits [("tag", ("mode", None))] w in
  working w = Some ex_dup /\
  r.2 = Done true /\
  working r.1 = Some ex_dup /\
  r.2 <> Done false.
Proof. vm_compute. repeat split; congruence. Qed.

(** ** Concrete runs *)

Lemma reset_restores_original_witness :
  working
    (run float_digits (click "data.csv" ex_missing ResetToOriginal [])
       (runs float_digits
          [click "data.csv" ex_missing ApplyImpute
             [("age", ("mean", None)); ("city", ("cat_constant", Some ""))];
           click "data.csv" ex_missing DropRowsMissing [];
           click "data.csv" ex_missing RemoveDuplicateRows []]
          (run float_digits (upload "data.csv" ex_missing) empty_world)))
  = Some ex_missing.
Proof.
  apply (reset_restores_original float_digits "data.csv" ex_missing);
    [reflexivity | repeat constructor | reflexivity | exact I | reflexivity].
Defined.

Lemma original_left_unchanged_witness :
  let w :=
    runs float_digits
      [click "data.csv" ex_missing ApplyImpute
         [("age", ("mean", None)); ("city", ("cat_constant", Some ""))];
       click "data.csv" ex_missing RemoveDuplicateRows [];
       click "data.csv" ex_missing ResetToOriginal []]
      (run float_digits (upload "data.csv" ex_missing) empty_world) in
  original w = Some ex_missing /\
  forall n' T' inp',
    uploaded_file inp' = Some (n', Ok T') -> n' <> "data.csv" ->
    original (run float_digits inp' w) = Some T'.
Proof.
  apply (original_left_unchanged float_digits "data.csv" ex_missing
           (upload "data.csv" ex_missing));
    [reflexivity | repeat constructor].
Defined.


Lemma remove_duplicate_rows_idempotent_witness :
  let w1 := (press (Some RemoveDuplicateRows) 2 1 (session_of ex_dup)).1 in
  let r2 := press (Some RemoveDuplicateRows) 3 1 w1 in
  working w1 = Some (reset_index (drop_duplicates ex_dup)) /\
  working r2.1 = working w1 /\
  r2.2 = Done tt /\
  out r2.1 = (out w1 ++ [(LSuccess, "Removed 0 duplicate rows.")])%list.
Proof.
  apply (remove_duplicate_rows_idempotent 2 2 1 3 1 ex_dup (session_of ex_dup));
    reflexivity.
Defined.

Lemma mode_fills_with_least_tied_witness :
  mode_fill ex_tie "k" = Text "x" /\
  most_frequent (col_values 0 (df_rows ex_tie)) (Text "x") /\
  apply_strategy float_digits ex_tie "k" "mode" None
  = Applied (fillna (Text "x") (mkSeries Object (col_values 0 (df_rows ex_tie)))).
Proof.
  pose proof (mode_fills_with_least_tied float_digits ex_tie "k" None
                (mkSeries Object (col_values 0 (df_rows ex_tie))) eq_refl
                ltac:(exists (Text "x"); apply tied_modes_most_frequent;
                      apply (bool_decide_unpack _); vm_compute; exact I)) as H.
  split; [reflexivity|]. split; [exact (proj1 H) | exact (proj1 (proj2 H))].
Defined.

(** C10, as the specification has it, fails when a number and a text tie: in
    a column where "b" and 1 occur twice each the fill is "b", and with the
    first two rows swapped it is 1.  The most frequent values are the same in
    both, so under no order at all is the fill the smallest of them in both
    columns. *)
Lemma mode_fill_mixed_tie_follows_rows :
  let c1 := col_values 0 (df_rows ex_mixed_tie) in
  let c2 := col_values 0 (df_rows ex_mixed_tie_swapped) in
  c1 ≡ₚ c2 /\
  most_frequent c1 (Text "b") /\ most_frequent c1 (Num (Q2Qc 1)) /\
  mode_fill ex_mixed_tie "k" = Text "b" /\
  mode_fill ex_mixed_tie_swapped "k" = Num (Q2Qc 1) /\
  forall le : cell -> cell -> Prop,
    (forall x y, le x y -> le y x -> x = y) ->
    ~ ((forall u, most_frequent c1 u -> le (mode_fill ex_mixed_tie "k") u) /\
       (forall u, most_frequent c2 u ->
                  le (mode_fill ex_mixed_tie_swapped "k") u)).
Proof.
  intros c1 c2.
  assert (Hp : c1 ≡ₚ c2) by apply perm_swap.
  assert (Hb : most_frequent c1 (Text "b")).
  { apply tied_modes_most_frequent, (bool_decide_unpack _). vm_compute. exact I. }
  assert (H1 : most_frequent c1 (Num (Q2Qc 1))).
  { apply tied_modes_most_frequent, (bool_decide_unpack _). vm_compute. exact I. }
  split; [done|]. split; [done|]. split; [done|].
  split; [reflexivity|]. split; [reflexivity|].
  intros le Hanti [Hl1 Hl2].
  specialize (Hl1 _ H1).
  specialize (Hl2 _ (most_frequent_Permutation c1 c2 _ Hp Hb)).
  change (mode_fill ex_mixed_tie "k") with (Text "b") in Hl1.
  change (mode_fill ex_mixed_tie_swapped "k") with (Num (Q2Qc 1)) in Hl2.
  by pose proof (Hanti _ _ Hl1 Hl2).
Qed.

Example mode_fill_tie : mode_fill ex_tie "k" = Text "x".
Proof. reflexivity. Qed.

Example tied_modes_tie :
  tied_modes (col_values 0 (df_rows ex_tie)) = [Text "y"; Text "x"].
Proof. reflexivity. Qed.

(** * Further properties of the script *)

(** ** Dropping rows with missing values *)

Section DropRows.

Lemma df_values_dropna d :
  df_values (dropna d) = filter (fun r => complete_row r = true) (df_values d).
Proof.
  unfold df_values, dropna, complete_row. simpl.
  induction (df_rows d) as [|[i r] rs IH]; [done|].
  rewrite fmap_cons, (filter_cons _ (i, r)), (filter_cons _ ((i, r).2)).
  change ((i, r).2) with r.
  destruct (decide (forallb (fun c => negb (isnull c)) r = true));
    rewrite ?fmap_cons; by rewrite IH.
Qed.

Lemma reset_index_values d1 d2 :
  df_columns d1 = df_columns d2 -> df_values d1 = df_values d2 ->
  reset_index d1 = reset_index d2.
Proof.
  unfold reset_index, df_values. intros -> Hv. f_equal.
  apply list_eq. intros i. rewrite !list_lookup_imap.
  assert (Hi : (df_rows d1).*2 !! i = (df_rows d2).*2 !! i) by by rewrite Hv.
  rewrite !list_lookup_fmap in Hi.
  destruct (df_rows d1 !! i) as [[? ?]|], (df_rows d2 !! i) as [[? ?]|];
    simpl in *; congruence.
Qed.

Lemma dropna_complete d : df_values d = filter (fun r => complete_row r = true) (df_values d) ->
  dropna d = d.
Proof.
  intros Hv. unfold dropna. destruct d as [cols rs]. simpl. f_equal.
  unfold df_values in Hv. simpl in Hv. fold (complete_row) in *.
  induction rs as [|[i r] rs IH]; [done|].
  rewrite fmap_cons, filter_cons in Hv. simpl in Hv.
  rewrite filter_cons. simpl. unfold complete_row in *.
  case_decide as Hr.
  - f_equal. apply IH. by injection Hv.
  - exfalso.
    assert (Hlen : length (r :: rs.*2) <= length rs.*2).
    { rewrite Hv. apply length_filter. }
    simpl in Hlen. lia.
Qed.

Lemma filter_complete_idemp (rs : list row) :
  filter (fun r => complete_row r = true) (filter (fun r => complete_row r = true) rs)
  = filter (fun r => complete_row r = true) rs.
Proof.
  induction rs as [|r rs IH]; [done|].
  rewrite filter_cons. case_decide; [|done].
  rewrite filter_cons_True by done. by rewrite IH.
Qed.

Lemma reset_index_dropna_idemp d :
  reset_index (dropna (reset_index (dropna d))) = reset_index (dropna d).
Proof.
  rewrite (dropna_complete (reset_index (dropna d))); [apply reset_index_idemp|].
  by rewrite df_values_reset_index, df_values_dropna, filter_complete_idemp.
Qed.

(** lines 142-146 *)
Lemma press_drop_eq l d l0 o0 w :
  ss_df w = Some l -> heap w !! l = Some d ->
  press (Some DropRowsMissing) l0 o0 w =
  (mkWorld (heap w ++ [reset_index (dropna d)]) (ss_uploaded_name w)
           (ss_original_df w) (Some (length (heap w)))
           (out w ++ [(LSuccess,
                       "Dropped "
                       ++ pretty_diff (df_len d) (df_len (reset_index (dropna d)))
                       ++ " rows containing missing values.")]),
   Done tt).
Proof.
  intros Hl Hd. unfold press.
  rewrite bind_apply, (len_df_eq _ _ _ Hl Hd).
  rewrite bind_apply, (replace_df_eq _ _ _ _ Hl Hd).
  rewrite bind_apply. erewrite len_df_eq; [|done|apply lookup_snoc].
  done.
Qed.

Lemma complete_row_no_missing (r : row) :
  complete_row r = true <-> Missing ∉ r.
Proof.
  unfold complete_row. induction r as [|c r IH]; simpl.
  - split; [intros _; apply not_elem_of_nil|done].
  - rewrite andb_true_iff, IH, not_elem_of_cons.
    destruct c; simpl; split; intros [? ?]; try done; split; congruence.
Qed.

End DropRows.



(** pressing "Drop rows with any missing values" again changes nothing and
    reports 0 rows *)
Theorem drop_rows_idempotent (l l0 o0 l1 o1 : loc) (d : DataFrame) (w : world) :
  ss_df w = Some l -> heap w !! l = Some d ->
  let w1 := (press (Some DropRowsMissing) l0 o0 w).1 in
  let r2 := press (Some DropRowsMissing) l1 o1 w1 in
  working r2.1 = working w1 /\
  r2.2 = Done tt /\
  out r2.1 = (out w1 ++ [(LSuccess,
                "Dropped 0 rows containing missing values.")])%list.
Proof.
  intros Hl Hd w1 r2.
  set (d1 := reset_index (dropna d)).
  pose proof (press_drop_eq l d l0 o0 w Hl Hd) as E1.
  assert (Hl1 : ss_df w1 = Some (length (heap w)))
    by (subst w1; by rewrite E1).
  assert (Hd1 : heap w1 !! length (heap w) = Some d1)
    by (subst w1; rewrite E1; apply lookup_snoc).
  assert (Hw1 : working w1 = Some d1)
    by (unfold working; rewrite Hl1; exact Hd1).
  pose proof (press_drop_eq _ d1 l1 o1 w1 Hl1 Hd1) as E2.
  subst r2. rewrite E2. simpl.
  split.
  { rewrite Hw1. unfold working. simpl. rewrite lookup_snoc.
    subst d1. by rewrite reset_index_dropna_idemp. }
  split; [done|].
  subst d1. by rewrite reset_index_dropna_idemp, pretty_diff_same.
Qed.

Lemma drop_rows_idempotent_witness :
  let w1 := (press (Some DropRowsMissing) 2 1 (session_of ex_missing)).1 in
  let r2 := press (Some DropRowsMissing) 3 1 w1 in
  working r2.1 = working w1 /\
  r2.2 = Done tt /\
  out r2.1 = (out w1 ++ [(LSuccess,
                "Dropped 0 rows containing missing values.")])%list.
Proof.
  apply (drop_rows_idempotent 2 2 1 3 1 ex_missing (session_of ex_missing));
    reflexivity.
Defined.

(** ** Removing duplicates and dropping rows, in either order *)

Section Commute.
Implicit Types (seen rs : list row) (r : row).

Lemma kept_perm seen seen' rs :
  (forall r, r ∈ seen <-> r ∈ seen') -> kept seen rs = kept seen' rs.
Proof. intros H. unfold kept. f_equal. by apply duplicated_first_ext. Qed.

(** a row that does not pass the filter may as well count as seen *)
Lemma filter_kept_seen (P : row -> Prop) `{!forall r, Decision (P r)} r rs :
  ~ P r -> forall seen, filter P (kept (r :: seen) rs) = filter P (kept seen rs).
Proof.
  intros Hr. induction rs as [|x rs IH]; intros seen; [done|].
  rewrite !kept_cons.
  destruct (decide (x = r)) as [->|Hx].
  - rewrite (bool_decide_eq_true_2 (r ∈ r :: seen)) by (apply elem_of_cons; by left).
    rewrite (kept_seen_dup (r :: seen)) by (apply elem_of_cons; by left).
    destruct (bool_decide (r ∈ seen)); [done|]. by rewrite filter_cons_False.
  - assert (Hsw : kept (x :: r :: seen) rs = kept (r :: x :: seen) rs).
    { apply kept_perm. intros y. rewrite !elem_of_cons. tauto. }
    rewrite Hsw.
    destruct (decide (x ∈ seen)) as [Hin|Hin].
    + rewrite !bool_decide_eq_true_2 by (rewrite ?elem_of_cons; auto).
      apply IH.
    + rewrite (bool_decide_eq_false_2 (x ∈ r :: seen))
        by (rewrite elem_of_cons; intros [?|?]; done).
      rewrite (bool_decide_eq_false_2 (x ∈ seen)) by done.
      rewrite (filter_cons _ x (kept (r :: x :: seen) rs)).
      rewrite (filter_cons _ x (kept (x :: seen) rs)).
      by rewrite (IH (x :: seen)).
Qed.

Lemma kept_filter (P : row -> Prop) `{!forall r, Decision (P r)} rs : forall seen,
  kept seen (filter P rs) = filter P (kept seen rs).
Proof.
  induction rs as [|x rs IH]; intros seen; [done|].
  rewrite kept_cons, filter_cons.
  destruct (decide (P x)) as [Hx|Hx].
  - rewrite kept_cons. case_bool_decide; [apply IH|].
    rewrite filter_cons_True by done. by rewrite IH.
  - rewrite IH. case_bool_decide.
    + symmetry. by apply filter_kept_seen.
    + rewrite filter_cons_False by done. symmetry. by apply filter_kept_seen.
Qed.

Lemma dropna_drop_duplicates_commute d :
  reset_index (dropna (reset_index (drop_duplicates d)))
  = reset_index (drop_duplicates (reset_index (dropna d))).
Proof.
  apply reset_index_values; [done|].
  rewrite df_values_dropna, df_values_reset_index, df_values_drop_duplicates.
  rewrite df_values_drop_duplicates, df_values_reset_index, df_values_dropna.
  symmetry. apply kept_filter.
Qed.

End Commute.

Section PressState.

Lemma working_of l d w :
  ss_df w = Some l -> heap w !! l = Some d -> working w = Some d.
Proof. intros Hl Hd. unfold working. by rewrite Hl. Qed.

Lemma press_remove_state l d l0 o0 w :
  ss_df w = Some l -> heap w !! l = Some d ->
  ss_df (press (Some RemoveDuplicateRows) l0 o0 w).1
  = Some (length (heap (press (Some RemoveDuplicateRows) l0 o0 w).1) - 1) /\
  heap (press (Some RemoveDuplicateRows) l0 o0 w).1
    !! (length (heap (press (Some RemoveDuplicateRows) l0 o0 w).1) - 1)
  = Some (reset_index (drop_duplicates d)).
Proof.
  intros Hl Hd. rewrite (press_remove_eq _ _ _ _ _ Hl Hd). simpl.
  rewrite length_app. simpl.
  replace (length (heap w) + 1 - 1) with (length (heap w)) by lia.
  split; [done|apply lookup_snoc].
Qed.

Lemma press_drop_state l d l0 o0 w :
  ss_df w = Some l -> heap w !! l = Some d ->
  ss_df (press (Some DropRowsMissing) l0 o0 w).1
  = Some (length (heap (press (Some DropRowsMissing) l0 o0 w).1) - 1) /\
  heap (press (Some DropRowsMissing) l0 o0 w).1
    !! (length (heap (press (Some DropRowsMissing) l0 o0 w).1) - 1)
  = Some (reset_index (dropna d)).
Proof.
  intros Hl Hd. rewrite (press_drop_eq _ _ _ _ _ Hl Hd). simpl.
  rewrite length_app. simpl.
  replace (length (heap w) + 1 - 1) with (length (heap w)) by lia.
  split; [done|apply lookup_snoc].
Qed.

End PressState.

(** "Remove duplicate rows" followed by "Drop rows with any missing values"
    leaves the same working table as the two in the other order; the quick
    options on upload (lines 66-69) could run in either order. *)
Theorem remove_then_drop_is_drop_then_remove
    (l la oa lb ob lc oc ld od : loc) (d : DataFrame) (w : world) :
  ss_df w = Some l -> heap w !! l = Some d ->
  working (press (Some DropRowsMissing) lb ob
             (press (Some RemoveDuplicateRows) la oa w).1).1
  = working (press (Some RemoveDuplicateRows) ld od
               (press (Some DropRowsMissing) lc oc w).1).1 /\
  working (press (Some DropRowsMissing) lb ob
             (press (Some RemoveDuplicateRows) la oa w).1).1
  = Some (reset_index (dropna (reset_index (drop_duplicates d)))).
Proof.
  intros Hl Hd.
  destruct (press_remove_state l d la oa w Hl Hd) as [Hl1 Hd1].
  destruct (press_drop_state l d lc oc w Hl Hd) as [Hl2 Hd2].
  destruct (press_drop_state _ _ lb ob _ Hl1 Hd1) as [Hl3 Hd3].
  destruct (press_remove_state _ _ ld od _ Hl2 Hd2) as [Hl4 Hd4].
  rewrite (working_of _ _ _ Hl3 Hd3), (working_of _ _ _ Hl4 Hd4).
  by rewrite dropna_drop_duplicates_commute.
Qed.

Lemma remove_then_drop_is_drop_then_remove_witness :
  working (press (Some DropRowsMissing) 3 1
             (press (Some RemoveDuplicateRows) 2 1 (session_of ex_missing)).1).1
  = working (press (Some RemoveDuplicateRows) 3 1
               (press (Some DropRowsMissing) 2 1 (session_of ex_missing)).1).1.
Proof.
  exact (proj1 (remove_then_drop_is_drop_then_remove 2 2 1 3 1 2 1 3 1 ex_missing
                  (session_of ex_missing) eq_refl eq_refl)).
Defined.

(** ** Uploads: failures, quick options, the same name again *)

Section Uploads.
Variable py_float : string -> result (option Qc).

Lemma run_eq inp w :
  run py_float inp w =
  (script py_float inp
     (mkWorld (heap w) (ss_uploaded_name w) (ss_original_df w) (ss_df w) [])).1.
Proof. reflexivity. Qed.

(** a run in which no button is pressed goes through lines 72-194 without a
    change *)
Lemma after_upload_idle inp l o w :
  ss_df w = Some l -> ss_original_df w = Some o ->
  pressed inp = None ->
  after_upload py_float inp w = (w, Done tt).
Proof.
  intros Hl Ho Hb. rewrite (after_upload_eq _ _ _ _ _ Hl Ho), Hb.
  change (press None l o w) with (w, Done tt). cbv beta iota.
  by rewrite bool_decide_eq_false_2 by (intros [_ ?]; done).
Qed.

Lemma replace_df_working n T f d w :
  Loaded n T w -> working w = Some d ->
  exists w', replace_df f w = (w', Done tt) /\
             Loaded n T w' /\ original w' = Some T /\
             working w' = Some (reset_index (f d)).
Proof.
  intros HL Hw.
  pose proof HL as (_ & l & o & Hl & Hoo & _ & [d0 Hd] & HT).
  assert (d0 = d) as ->.
  { unfold working in Hw. rewrite Hl in Hw. simpl in Hw. congruence. }
  eexists. split; [by apply (replace_df_eq _ _ _ _ Hl Hd)|].
  split; [by apply Loaded_new_df|]. split.
  - unfold original. simpl. rewrite Hoo. simpl. by apply lookup_app_l_Some.
  - unfold working. simpl. apply lookup_snoc.
Qed.

Lemma load_upload_new_working n T inp w :
  uploaded_file inp = Some (n, Ok T) ->
  ss_uploaded_name w <> Some n ->
  let d1 := if default_remove_duplicates inp
            then reset_index (drop_duplicates T) else T in
  let d2 := if default_dropna_on_upload inp
            then reset_index (dropna d1) else d1 in
  exists w', load_upload inp w = (w', Done tt) /\
             Loaded n T w' /\ original w' = Some T /\ working w' = Some d2 /\
             out w' = out w.
Proof.
  intros Hup Hn d1 d2. unfold load_upload. rewrite Hup.
  rewrite bind_apply. unfold alloc at 1. rewrite bind_apply.
  unfold get_world at 1. simpl.
  rewrite bool_decide_eq_true_2 by done.
  rewrite bind_apply. unfold set_uploaded_name at 1. simpl.
  set (w1 := mkWorld (heap w ++ [T]) (Some n) (ss_original_df w) (ss_df w) (out w)).
  destruct (Loaded_reset n T w1 (length (heap w)) eq_refl (lookup_snoc _ _))
    as (HL & Hw & Ho).
  rewrite bind_apply.
  pose proof (reset_session_df_eq (length (heap w)) T w1 (lookup_snoc _ _)) as E.
  destruct (reset_session_df (length (heap w)) w1) as [w2 r2].
  simpl in HL, Ho, Hw.
  assert (Hout : out w2 = out w) by (by inversion E).
  assert (r2 = Done tt) as -> by congruence.
  clear E.
  assert (Hrep : forall f d w0, Loaded n T w0 -> working w0 = Some d ->
            exists w', replace_df f w0 = (w', Done tt) /\ Loaded n T w' /\
              original w' = Some T /\ working w' = Some (reset_index (f d)) /\
              out w' = out w0).
  { intros f d w0 HL0 Hw0.
    destruct (replace_df_working n T f d w0 HL0 Hw0) as (w' & E & ? & ? & ?).
    exists w'. do 4 (split; [done|]).
    pose proof HL0 as (_ & l & o & Hl & _ & _ & [d0 Hd] & _).
    rewrite (replace_df_eq _ _ _ _ Hl Hd) in E. by inversion E. }
  rewrite bind_apply. subst d1 d2.
  destruct (default_remove_duplicates inp), (default_dropna_on_upload inp).
  - destruct (Hrep drop_duplicates T w2 HL Hw) as (w3 & -> & HL3 & Ho3 & Hw3 & Hout3).
    destruct (Hrep dropna _ w3 HL3 Hw3) as (w4 & -> & HL4 & Ho4 & Hw4 & Hout4).
    exists w4. do 4 (split; [done|]). congruence.
  - destruct (Hrep drop_duplicates T w2 HL Hw) as (w3 & -> & HL3 & Ho3 & Hw3 & Hout3).
    rewrite ret_apply. exists w3. do 4 (split; [done|]). congruence.
  - rewrite ret_apply.
    destruct (Hrep dropna T w2 HL Hw) as (w4 & -> & HL4 & Ho4 & Hw4 & Hout4).
    exists w4. do 4 (split; [done|]). congruence.
  - rewrite !ret_apply. exists w2. by do 4 (split; [done|]).
Qed.

(** lines 56-60: a failed read ends the run before anything is touched *)
Lemma failed_read_state inp n e w :
  uploaded_file inp = Some (n, Raise e) ->
  heap (run py_float inp w) = heap w /\
  ss_uploaded_name (run py_float inp w) = ss_uploaded_name w /\
  ss_original_df (run py_float inp w) = ss_original_df w /\
  ss_df (run py_float inp w) = ss_df w.
Proof.
  intros Hup. rewrite run_eq, script_eq. unfold load_upload. rewrite Hup.
  by rewrite bind_apply.
Qed.

End Uploads.

(** When [read_file] raises, the run shows "Failed to read file: " followed
    by the text of the exception and stops: the session keeps its keys and
    every object as they were, whatever button was pressed and whatever the
    name of the file. *)
Theorem read_failure_leaves_session
    (py_float : string -> result (option Qc))
    (inp : inputs) (n msg : string) (w : world) :
  uploaded_file inp = Some (n, Raise msg) ->
  run py_float inp w =
  mkWorld (heap w) (ss_uploaded_name w) (ss_original_df w) (ss_df w)
          [(LError, ("Failed to read file: " ++ msg)%string)] /\
  working (run py_float inp w) = working w /\
  original (run py_float inp w) = original w.
Proof.
  intros Hup.
  assert (E : run py_float inp w =
    mkWorld (heap w) (ss_uploaded_name w) (ss_original_df w) (ss_df w)
            [(LError, ("Failed to read file: " ++ msg)%string)]).
  { rewrite run_eq, script_eq. unfold load_upload. rewrite Hup.
    by rewrite bind_apply. }
  by rewrite E.
Qed.

Lemma read_failure_leaves_session_witness :
  run float_digits
      (mkInputs (Some ("other.csv", Raise "No columns to parse from file"))
                true true (Some RemoveDuplicateRows) [] true)
      (session_of ex_dup)
  = mkWorld (heap (session_of ex_dup)) (Some "data.csv") (Some 1) (Some 2)
            [(LError, "Failed to read file: No columns to parse from file")].
Proof.
  exact (proj1 (read_failure_leaves_session float_digits
           (mkInputs (Some ("other.csv", Raise "No columns to parse from file"))
                     true true (Some RemoveDuplicateRows) [] true)
           "other.csv" "No columns to parse from file" (session_of ex_dup)
           eq_refl)).
Defined.

(** A file under a new name starts the session over: the original is the
    table read, the working table is that table after the quick options that
    are ticked, duplicates first and rows with missing cells second.  With
    both ticked the working table has no repeated row and no missing cell.
    The page shows no message but the note of the download block, when the
    Excel export raises. *)
Theorem upload_applies_quick_options
    (py_float : string -> result (option Qc))
    (inp : inputs) (n : string) (T : DataFrame) (w : world) :
  uploaded_file inp = Some (n, Ok T) ->
  ss_uploaded_name w <> Some n ->
  pressed inp = None ->
  let d1 := if default_remove_duplicates inp
            then reset_index (drop_duplicates T) else T in
  let d2 := if default_dropna_on_upload inp
            then reset_index (dropna d1) else d1 in
  original (run py_float inp w) = Some T /\
  working (run py_float inp w) = Some d2 /\
  ss_uploaded_name (run py_float inp w) = Some n /\
  out (run py_float inp w) = download_note inp /\
  (default_remove_duplicates inp = true -> NoDup (df_values d2)) /\
  (default_dropna_on_upload inp = true ->
   forall r, r ∈ df_values d2 -> Missing ∉ r).
Proof.
  intros Hup Hn Hb d1 d2.
  set (w0 := mkWorld (heap w) (ss_uploaded_name w) (ss_original_df w) (ss_df w) []).
  destruct (load_upload_new_working n T inp w0 Hup Hn)
    as (w1 & E & HL & Ho & Hw & Hout).
  assert (Erun : run py_float inp w
                 = mkWorld (heap w1) (ss_uploaded_name w1) (ss_original_df w1)
                           (ss_df w1) (out w1 ++ download_note inp)).
  { rewrite run_eq, script_eq. fold w0. rewrite E.
    pose proof HL as (_ & l & o & Hl & Hoo & _).
    rewrite bind_apply, (after_upload_idle py_float inp l o w1 Hl Hoo Hb).
    by rewrite downloads_eq. }
  rewrite Erun. split; [done|]. split; [done|].
  split; [by destruct HL|]. split; [simpl; by rewrite Hout|].
  assert (Hd1 : default_remove_duplicates inp = true -> NoDup (df_values d1)).
  { intros Hrd. subst d1. rewrite Hrd.
    rewrite df_values_reset_index, df_values_drop_duplicates. apply kept_NoDup. }
  split.
  - intros Hrd. specialize (Hd1 Hrd). subst d2.
    destruct (default_dropna_on_upload inp); [|done].
    rewrite df_values_reset_index, df_values_dropna. by apply NoDup_filter.
  - intros Hdn r. subst d2. rewrite Hdn.
    rewrite df_values_reset_index, df_values_dropna, list_elem_of_filter.
    intros [Hr _]. by apply complete_row_no_missing.
Qed.

Lemma upload_applies_quick_options_witness :
  original (run float_digits
              (mkInputs (Some ("data.csv", Ok ex_missing)) true true None [] true)
              empty_world) = Some ex_missing /\
  working (run float_digits
             (mkInputs (Some ("data.csv", Ok ex_missing)) true true None [] true)
             empty_world)
  = Some (reset_index (dropna (reset_index (drop_duplicates ex_missing)))) /\
  out (run float_digits
         (mkInputs (Some ("data.csv", Ok ex_missing)) true true None [] true)
         empty_world)
  = [(LInfo, "Excel download requires openpyxl; CSV is available.")].
Proof.
  pose proof (upload_applies_quick_options float_digits
                (mkInputs (Some ("data.csv", Ok ex_missing)) true true None [] true)
                "data.csv" ex_missing empty_world eq_refl
                ltac:(discriminate) eq_refl) as H.
  split; [exact (proj1 H)|]. split; [exact (proj1 (proj2 H))|].
  exact (proj1 (proj2 (proj2 (proj2 H)))).
Defined.

(** The session goes by the name of the file: when a file arrives under the
    name already loaded, its content and the quick options are ignored, and
    both tables stay as they are. *)
Theorem same_name_upload_is_ignored
    (py_float : string -> result (option Qc))
    (inp : inputs) (n : string) (d' d T : DataFrame) (w : world) :
  ss_uploaded_name w = Some n ->
  working w = Some d -> original w = Some T ->
  uploaded_file inp = Some (n, Ok d') ->
  pressed inp = None ->
  working (run py_float inp w) = Some d /\
  original (run py_float inp w) = Some T /\
  ss_df (run py_float inp w) = ss_df w /\
  ss_original_df (run py_float inp w) = ss_original_df w.
Proof.
  intros Hn Hw Ho Hup Hb.
  unfold working in Hw. unfold original in Ho.
  destruct (ss_df w) as [l|] eqn:Hl; [|done].
  destruct (ss_original_df w) as [o|] eqn:Hoo; [|done]. simpl in Hw, Ho.
  assert (E : run py_float inp w =
              mkWorld (heap w ++ [d']) (Some n) (Some o) (Some l)
                      (download_note inp)).
  { rewrite run_eq, script_eq. unfold load_upload. rewrite Hup.
    rewrite bind_apply. unfold alloc at 1. rewrite bind_apply.
    unfold get_world at 1. simpl.
    rewrite bool_decide_eq_false_2 by (intros H; by apply H).
    rewrite ret_apply.
    rewrite bind_apply, (after_upload_idle py_float inp l o) by done.
    rewrite downloads_eq. simpl. by rewrite Hn, Hl, Hoo. }
  rewrite E. unfold working, original. simpl.
  split; [by apply lookup_app_l_Some|].
  split; [by apply lookup_app_l_Some|done].
Qed.

Lemma same_name_upload_is_ignored_witness :
  working (run float_digits
             (mkInputs (Some ("data.csv", Ok ex_dup)) true true None [] false)
             (session_of ex_missing)) = Some ex_missing /\
  original (run float_digits
              (mkInputs (Some ("data.csv", Ok ex_dup)) true true None [] false)
              (session_of ex_missing)) = Some ex_missing.
Proof.
  pose proof (same_name_upload_is_ignored float_digits
                (mkInputs (Some ("data.csv", Ok ex_dup)) true true None [] false)
                "data.csv" ex_dup ex_missing ex_missing (session_of ex_missing)
                eq_refl eq_refl eq_refl eq_refl eq_refl) as H.
  split; [exact (proj1 H) | exact (proj1 (proj2 H))].
Defined.

(** Line 149: "Apply missing-value strategies" only acts while a file is in
    the uploader.  With the uploader empty the press does nothing to a
    loaded session, whatever the strategies are: no object and no key
    changes, and the page shows no message but the note of the download
    block, when the Excel export raises. *)
Theorem apply_without_file_is_ignored
    (py_float : string -> result (option Qc))
    (inp : inputs) (l o : loc) (w : world) :
  ss_df w = Some l -> ss_original_df w = Some o ->
  uploaded_file inp = None ->
  pressed inp = Some ApplyImpute ->
  run py_float inp w =
  mkWorld (heap w) (ss_uploaded_name w) (ss_original_df w) (ss_df w)
          (download_note inp).
Proof.
  intros Hl Ho Hup Hb.
  rewrite run_eq, script_eq. unfold load_upload. rewrite Hup, ret_apply.
  rewrite bind_apply, (after_upload_eq py_float inp l o) by done. rewrite Hb.
  change (press (Some ApplyImpute) l o ?w) with (w, Done tt).
  cbv beta iota. rewrite Hup.
  rewrite bool_decide_eq_false_2 by (intros [[? ?] _]; done).
  by rewrite ret_apply, downloads_eq.
Qed.

Lemma apply_without_file_is_ignored_witness :
  run float_digits
      (mkInputs None false false (Some ApplyImpute)
                [("age", ("mean", None))] true)
      (session_of ex_missing)
  = mkWorld (heap (session_of ex_missing)) (Some "data.csv") (Some 1) (Some 2)
            [(LInfo, "Excel download requires openpyxl; CSV is available.")].
Proof.
  exact (apply_without_file_is_ignored float_digits
           (mkInputs None false false (Some ApplyImpute)
                     [("age", ("mean", None))] true)
           2 1 (session_of ex_missing) eq_refl eq_refl eq_refl eq_refl).
Defined.

Section StaysLoaded.
Variable py_float : string -> result (option Qc).

Lemma run_AnyLoaded inp w : AnyLoaded w -> AnyLoaded (run py_float inp w).
Proof.
  intros (n & T & HL).
  destruct (uploaded_file inp) as [[n' [T'|e]]|] eqn:Hup.
  - destruct (decide (n' = n)) as [->|Hne].
    + exists n, T. apply run_Loaded; [done|]. unfold same_source. by rewrite Hup.
    + exists n', T'. eapply run_new_source; [done|].
      destruct HL as (Hn & _). congruence.
  - exists n, T.
    destruct (failed_read_state py_float inp n' e w Hup)
      as (Hh & Hn & Ho & Hd).
    eapply Loaded_ext; eauto. intros k x. by rewrite Hh.
  - exists n, T. apply run_Loaded; [done|]. unfold same_source. by rewrite Hup.
Qed.

Lemma runs_AnyLoaded inps : forall w,
  AnyLoaded w -> AnyLoaded (runs py_float inps w).
Proof.
  induction inps as [|inp inps IH]; intros w HL; [done|].
  simpl. apply IH. by apply run_AnyLoaded.
Qed.

End StaysLoaded.

(** Once a table is loaded the session never goes back to empty: after any
    runs at all, with any files, failures and buttons, both keys hold a
    table, on different objects. *)
Theorem session_stays_loaded
    (py_float : string -> result (option Qc))
    (n : string) (T : DataFrame) (inp0 : inputs) (inps : list inputs) :
  uploaded_file inp0 = Some (n, Ok T) ->
  let w := runs py_float inps (run py_float inp0 empty_world) in
  exists d T',
    working w = Some d /\ original w = Some T' /\
    ss_df w <> ss_original_df w.
Proof.
  intros Hup w.
  assert (HL : AnyLoaded w).
  { apply runs_AnyLoaded. exists n, T. by apply run_new_source. }
  destruct HL as (n' & T' & Hn & l & o & Hl & Ho & Hne & [d Hd] & HT).
  exists d, T'. unfold working, original. rewrite Hl, Ho. simpl.
  repeat split; try done. congruence.
Qed.

Lemma session_stays_loaded_witness :
  let w := runs float_digits
             [mkInputs (Some ("b.csv", Raise "Excel file format cannot be determined")) false false
                       (Some ResetToOriginal) [] false;
              mkInputs None false false (Some DropRowsMissing) [] false;
              mkInputs (Some ("c.csv", Ok ex_dup)) true false None [] false]
             (run float_digits (upload "data.csv" ex_missing) empty_world) in
  exists d T',
    working w = Some d /\ original w = Some T' /\
    ss_df w <> ss_original_df w.
Proof.
  apply (session_stays_loaded float_digits "data.csv" ex_missing
           (upload "data.csv" ex_missing)).
  reflexivity.
Defined.

(** ** Columns written by the loop *)

Section WriteBack.
Variable py_float : string -> result (option Qc).

Lemma length_set_col j rs vs : length (set_col j rs vs) = length rs.
Proof.
  revert vs; induction rs as [|[i r] rs IH]; intros [|v vs]; simpl; try done.
  by rewrite IH.
Qed.

Lemma set_col_row_lengths j rs vs n :
  Forall (fun r : nat * list cell => length r.2 = n) rs ->
  Forall (fun r : nat * list cell => length r.2 = n) (set_col j rs vs).
Proof.
  revert vs. induction rs as [|[i r] rs IH]; intros [|v vs] H; simpl;
    try done.
  apply Forall_cons in H as [Hr H].
  constructor; [|by apply IH]. simpl in *. by rewrite length_insert.
Qed.

Lemma length_set_dtype j t cols : length (set_dtype j t cols) = length cols.
Proof.
  unfold set_dtype. destruct (cols !! j) as [[? ?]|]; [|done].
  apply length_insert.
Qed.

Lemma rectangular_setitem d col s : rectangular d -> rectangular (setitem d col s).
Proof.
  unfold rectangular, setitem. intros H.
  destruct (col_pos (df_columns d) col) as [j|]; [|done]. simpl.
  rewrite length_set_dtype. by apply set_col_row_lengths.
Qed.

Lemma col_values_set_col j rs vs n :
  j < n ->
  Forall (fun r : nat * list cell => length r.2 = n) rs ->
  length vs = length rs ->
  col_values j (set_col j rs vs) = vs.
Proof.
  intros Hj. revert vs. induction rs as [|[i r] rs IH]; intros [|v vs] H;
    simpl; try done.
  apply Forall_cons in H as [Hr H].
  intros [= Hlen]. rewrite IH by done. f_equal.
  unfold cell_at. simpl in *. rewrite list_lookup_insert_eq by lia. done.
Qed.

Lemma length_col_values j rs : length (col_values j rs) = length rs.
Proof. unfold col_values. apply length_map. Qed.

(** a column written to a rectangular frame reads back as written *)
Lemma getitem_setitem_same d col s s' :
  rectangular d -> getitem d col = Ok s ->
  length (s_values s') = length (s_values s) ->
  getitem (setitem d col s') col = Ok s'.
Proof.
  unfold rectangular, getitem, setitem. intros Hrect.
  destruct (col_pos (df_columns d) col) as [j|] eqn:Hc; [|done].
  intros [= <-]. simpl. rewrite length_col_values. intros Hlen.
  rewrite (col_pos_names _ (df_columns d)) by apply set_dtype_names.
  rewrite Hc. destruct s' as [t vs]. simpl in *. f_equal. f_equal.
  - destruct (col_pos_Some _ _ _ Hc) as [t0 Hj].
    unfold set_dtype. rewrite Hj.
    rewrite list_lookup_insert_eq by (by eapply lookup_lt_Some). done.
  - apply (col_values_set_col _ _ _ (length (df_columns d))); [|done|done].
    destruct (col_pos_Some _ _ _ Hc) as [t0 Hj]. by eapply lookup_lt_Some.
Qed.

(** what a pass of the loop that applies a strategy leaves behind *)
Lemma impute_step_column l d col strategy param s s' c w :
  heap w !! l = Some d -> rectangular d ->
  getitem d col = Ok s ->
  apply_strategy py_float d col strategy param = Applied s' ->
  length (s_values s') = length (s_values s) ->
  exists d1,
    impute_step py_float l (col, (strategy, param)) c w
    = ((store l d1 w).1, Done true) /\
    heap (store l d1 w).1 !! l = Some d1 /\
    getitem d1 col = Ok s' /\
    rectangular d1 /\
    df_len d1 = df_len d /\
    df_names d1 = df_names d /\
    (forall c', c' <> col -> getitem d1 c' = getitem d c').
Proof.
  intros Hl Hrect Hg Happ Hlen. exists (setitem d col s').
  rewrite (impute_step_eq _ _ _ _ _ _ _ _ Hl), Happ.
  split; [done|]. split; [by eapply store_lookup|].
  split; [by eapply getitem_setitem_same|].
  split; [by apply rectangular_setitem|].
  split.
  { unfold df_len, setitem. destruct (col_pos (df_columns d) col); [|done].
    simpl. apply length_set_col. }
  split; [apply setitem_names|].
  intros c' Hc'. by apply getitem_setitem_ne.
Qed.

Lemma fillna_lookup v s i :
  s_values (fillna v s) !! i
  = (fun c => if isnull c then v else c) <$> (s_values s !! i).
Proof. unfold fillna. simpl. apply list_lookup_fmap. Qed.

Lemma length_fillna v s : length (s_values (fillna v s)) = length (s_values s).
Proof. unfold fillna. simpl. apply length_map. Qed.

Lemma fillna_no_missing v s :
  isnull v = false -> Forall (fun c => isnull c = false) (s_values (fillna v s)).
Proof.
  intros Hv. unfold fillna. simpl. apply Forall_forall. intros c Hc.
  apply list_elem_of_fmap in Hc as (c0 & -> & _). by destruct c0.
Qed.

End WriteBack.

(** ** Forward and backward fill *)

Section FillMethod.

Lemma dropna_values_cons c vs :
  dropna_values (c :: vs)
  = if isnull c then dropna_values vs else c :: dropna_values vs.
Proof.
  unfold dropna_values. rewrite filter_cons.
  destruct (isnull c); by case_decide.
Qed.

Lemma dropna_values_valid vs c : c ∈ dropna_values vs -> isnull c = false.
Proof. unfold dropna_values. rewrite list_elem_of_filter. tauto. Qed.

Lemma dropna_values_nil vs :
  dropna_values vs = [] <-> Forall (fun c => c = Missing) vs.
Proof.
  induction vs as [|c vs IH]; [by split; [constructor|]|].
  rewrite dropna_values_cons, Forall_cons, <- IH.
  destruct c; simpl; split; try done; try (intros [? ?]; done).
Qed.

Lemma last_valid_missing vs :
  last_valid vs = Missing <-> Forall (fun c => c = Missing) vs.
Proof.
  rewrite <- dropna_values_nil. unfold last_valid.
  destruct (last (dropna_values vs)) as [c|] eqn:Hl; simpl.
  - assert (Hc : isnull c = false).
    { apply (dropna_values_valid vs). by apply last_Some_elem_of. }
    split; [intros ->; done|]. intros Hn. by rewrite Hn in Hl.
  - by apply last_None in Hl.
Qed.

Lemma first_valid_missing vs :
  first_valid vs = Missing <-> Forall (fun c => c = Missing) vs.
Proof.
  rewrite <- dropna_values_nil. unfold first_valid.
  destruct (dropna_values vs) as [|c k] eqn:Hd; simpl; [done|].
  assert (Hc : isnull c = false).
  { apply (dropna_values_valid vs). rewrite Hd. apply elem_of_cons. by left. }
  split; [intros ->; done|done].
Qed.

Lemma length_ffill_from l0 vs : length (ffill_from l0 vs) = length vs.
Proof.
  revert l0; induction vs as [|c vs IH]; intros l0; simpl; [done|].
  destruct (isnull c); simpl; by rewrite IH.
Qed.

Lemma ffill_from_lookup vs : forall l0 i,
  i < length vs ->
  ffill_from l0 vs !! i
  = Some (default l0 (last (dropna_values (take (S i) vs)))).
Proof.
  induction vs as [|c vs IH]; intros l0 i Hi; simpl in Hi; [lia|].
  rewrite firstn_cons, dropna_values_cons. simpl.
  destruct i as [|i].
  - rewrite take_0. destruct (isnull c); done.
  - destruct (isnull c) eqn:Hc; simpl; rewrite IH by lia; [done|].
    rewrite last_cons. by destruct (last _).
Qed.

Lemma rev_is_reverse {A} (l : list A) : rev l = reverse l.
Proof. unfold reverse. apply rev_alt. Qed.

Lemma bfill_lookup vs i :
  i < length vs ->
  rev (ffill_from Missing (rev vs)) !! i = Some (first_valid (drop i vs)).
Proof.
  intros Hi. rewrite !rev_is_reverse.
  rewrite reverse_lookup by (by rewrite length_ffill_from, length_reverse).
  rewrite length_ffill_from, length_reverse.
  rewrite ffill_from_lookup by (rewrite length_reverse; lia).
  rewrite take_reverse.
  replace (length vs - S (length vs - S i)) with i by lia.
  unfold dropna_values, first_valid. rewrite filter_reverse, last_reverse. done.
Qed.

Lemma last_valid_here vs i v :
  vs !! i = Some v -> isnull v = false -> last_valid (take (S i) vs) = v.
Proof.
  intros Hi Hv. rewrite (take_S_r _ _ _ Hi).
  unfold last_valid, dropna_values. rewrite filter_app, filter_cons_True by done.
  by rewrite filter_nil, last_snoc.
Qed.

Lemma first_valid_here vs i v :
  vs !! i = Some v -> isnull v = false -> first_valid (drop i vs) = v.
Proof.
  intros Hi Hv. rewrite (drop_S _ _ _ Hi).
  unfold first_valid. rewrite dropna_values_cons, Hv. done.
Qed.

End FillMethod.

(** The ffill strategy: every cell of the column becomes the last present
    value at or above it.  Present cells stay, a missing cell takes the
    nearest present value above it, and the cells above the first present
    value stay missing.  Nothing is said of the dtype: pandas infers that of
    an object column again after the fill. *)
Theorem ffill_takes_value_above
    (py_float : string -> result (option Qc))
    (l : loc) (d : DataFrame) (col : string) (param : option string)
    (s : Series) (c : bool) (w : world) :
  heap w !! l = Some d -> rectangular d -> getitem d col = Ok s ->
  exists d1 s',
    impute_step py_float l (col, ("ffill", param)) c w
    = ((store l d1 w).1, Done true) /\
    getitem d1 col = Ok s' /\
    length (s_values s') = length (s_values s) /\
    (forall i, i < length (s_values s) ->
       s_values s' !! i = Some (last_valid (take (S i) (s_values s)))) /\
    (forall i v, s_values s !! i = Some v -> isnull v = false ->
       s_values s' !! i = Some v) /\
    (forall i, i < length (s_values s) ->
       (s_values s' !! i = Some Missing
        <-> Forall (fun x => x = Missing) (take (S i) (s_values s)))).
Proof.
  intros Hl Hrect Hg.
  assert (Happ : apply_strategy py_float d col "ffill" param
                 = Applied (fillna_method FFill s)).
  { unfold apply_strategy. strategy_tests. by rewrite Hg. }
  assert (Hlen : length (s_values (fillna_method FFill s)) = length (s_values s))
    by apply length_ffill_from.
  destruct (impute_step_column py_float l d col "ffill" param s _ c w
              Hl Hrect Hg Happ Hlen) as (d1 & Hstep & _ & Hg1 & _).
  assert (Hlook : forall i, i < length (s_values s) ->
            s_values (fillna_method FFill s) !! i
            = Some (last_valid (take (S i) (s_values s)))).
  { intros i Hi. simpl. by rewrite ffill_from_lookup. }
  exists d1, (fillna_method FFill s).
  do 3 (split; [done|]). split; [done|]. split.
  - intros i v Hi Hv. rewrite Hlook by (by eapply lookup_lt_Some).
    f_equal. by apply last_valid_here.
  - intros i Hi. rewrite Hlook by done. rewrite <- last_valid_missing.
    split; [by intros [= ->]|by intros ->].
Qed.

Lemma ffill_takes_value_above_witness :
  exists d1 s',
    impute_step float_digits 2 ("age", ("ffill", None)) false (session_of ex_missing)
    = ((store 2 d1 (session_of ex_missing)).1, Done true) /\
    getitem d1 "age" = Ok s' /\
    s_values s' = [Num (Q2Qc 30); Num (Q2Qc 30); Num (Q2Qc 30)].
Proof.
  destruct (ffill_takes_value_above float_digits 2 ex_missing "age" None
              (mkSeries Float64 [Num (Q2Qc 30); Missing; Missing]) false
              (session_of ex_missing) eq_refl
              ltac:(repeat constructor) eq_refl)
    as (d1 & s' & Hstep & Hg & Hlen & Hlook & _).
  exists d1, s'. split; [exact Hstep|]. split; [exact Hg|].
  apply list_eq. intros [|[|[|i]]].
  - apply (Hlook 0). simpl. lia.
  - apply (Hlook 1). simpl. lia.
  - apply (Hlook 2). simpl. lia.
  - simpl in Hlen. rewrite lookup_ge_None_2 by (rewrite Hlen; simpl; lia). done.
Defined.

(** The bfill strategy mirrors it: every cell becomes the first present
    value at or below it, and the cells below the last present value stay
    missing. *)
Theorem bfill_takes_value_below
    (py_float : string -> result (option Qc))
    (l : loc) (d : DataFrame) (col : string) (param : option string)
    (s : Series) (c : bool) (w : world) :
  heap w !! l = Some d -> rectangular d -> getitem d col = Ok s ->
  exists d1 s',
    impute_step py_float l (col, ("bfill", param)) c w
    = ((store l d1 w).1, Done true) /\
    getitem d1 col = Ok s' /\
    length (s_values s') = length (s_values s) /\
    (forall i, i < length (s_values s) ->
       s_values s' !! i = Some (first_valid (drop i (s_values s)))) /\
    (forall i v, s_values s !! i = Some v -> isnull v = false ->
       s_values s' !! i = Some v) /\
    (forall i, i < length (s_values s) ->
       (s_values s' !! i = Some Missing
        <-> Forall (fun x => x = Missing) (drop i (s_values s)))).
Proof.
  intros Hl Hrect Hg.
  assert (Happ : apply_strategy py_float d col "bfill" param
                 = Applied (fillna_method BFill s)).
  { unfold apply_strategy. strategy_tests. by rewrite Hg. }
  assert (Hlen : length (s_values (fillna_method BFill s)) = length (s_values s)).
  { simpl. by rewrite length_rev, length_ffill_from, length_rev. }
  destruct (impute_step_column py_float l d col "bfill" param s _ c w
              Hl Hrect Hg Happ Hlen) as (d1 & Hstep & _ & Hg1 & _).
  assert (Hlook : forall i, i < length (s_values s) ->
            s_values (fillna_method BFill s) !! i
            = Some (first_valid (drop i (s_values s)))).
  { intros i Hi. simpl. by rewrite bfill_lookup. }
  exists d1, (fillna_method BFill s).
  do 3 (split; [done|]). split; [done|]. split.
  - intros i v Hi Hv. rewrite Hlook by (by eapply lookup_lt_Some).
    f_equal. by apply first_valid_here.
  - intros i Hi. rewrite Hlook by done. rewrite <- first_valid_missing.
    split; [by intros [= ->]|by intros ->].
Qed.

Lemma bfill_takes_value_below_witness :
  exists d1 s',
    impute_step float_digits 2 ("city", ("bfill", None)) false (session_of ex_missing)
    = ((store 2 d1 (session_of ex_missing)).1, Done true) /\
    getitem d1 "city" = Ok s' /\
    s_values s' !! 2 = Some Missing.
Proof.
  destruct (bfill_takes_value_below float_digits 2 ex_missing "city" None
              (mkSeries Object [Text "Paris"; Text "Rome"; Missing]) false
              (session_of ex_missing) eq_refl
              ltac:(repeat constructor) eq_refl)
    as (d1 & s' & Hstep & Hg & _ & Hlook & _).
  exists d1, s'. split; [exact Hstep|]. split; [exact Hg|].
  apply (Hlook 2). simpl. lia.
Defined.

(** ** Constant and mode fills *)

(** The numeric constant strategy applies whatever the text is: a blank or
    rejected text, or no text at all, fills with 0, a text [float] accepts
    fills with its value.  Present cells stay, and with a number as fill no
    cell of the column is missing afterwards. *)
Theorem numeric_constant_falls_back_to_zero
    (py_float : string -> result (option Qc))
    (l : loc) (d : DataFrame) (col : string) (param : option string)
    (s : Series) (c : bool) (w : world) :
  heap w !! l = Some d -> rectangular d -> getitem d col = Ok s ->
  let v := numeric_constant_fill py_float param in
  exists d1 s',
    impute_step py_float l (col, ("numeric_constant", param)) c w
    = ((store l d1 w).1, Done true) /\
    getitem d1 col = Ok s' /\
    length (s_values s') = length (s_values s) /\
    (forall i x, s_values s !! i = Some x ->
       s_values s' !! i = Some (if isnull x then v else x)) /\
    (param = None \/ param = Some "" \/
     (exists p e, param = Some p /\ py_float p = Raise e) -> v = Num (Q2Qc 0)) /\
    (forall p q, param = Some p -> p <> "" -> py_float p = Ok (Some q) ->
       v = Num q) /\
    (isnull v = false ->
     Forall (fun x => isnull x = false) (s_values s')).
Proof.
  intros Hl Hrect Hg v.
  assert (Happ : apply_strategy py_float d col "numeric_constant" param
                 = Applied (fillna v s)).
  { unfold apply_strategy. strategy_tests. by rewrite Hg. }
  destruct (impute_step_column py_float l d col "numeric_constant" param s _ c w
              Hl Hrect Hg Happ (length_fillna _ _)) as (d1 & Hstep & _ & Hg1 & _).
  exists d1, (fillna v s).
  split; [done|]. split; [done|]. split; [apply length_fillna|]. split.
  { intros i x Hi. by rewrite fillna_lookup, Hi. }
  split.
  { subst v. unfold numeric_constant_fill, float_cell.
    intros [->|[->|(p & e & -> & Hp)]]; simpl; try done.
    case_decide; [done|]. by rewrite Hp. }
  split.
  { intros p q -> Hne Hp. subst v. unfold numeric_constant_fill, float_cell.
    rewrite decide_False by done. by rewrite Hp. }
  apply fillna_no_missing.
Qed.

Lemma numeric_constant_falls_back_to_zero_witness :
  exists d1 s',
    impute_step float_digits 2 ("age", ("numeric_constant", Some "abc")) false
                (session_of ex_missing)
    = ((store 2 d1 (session_of ex_missing)).1, Done true) /\
    getitem d1 "age" = Ok s' /\
    numeric_constant_fill float_digits (Some "abc") = Num (Q2Qc 0).
Proof.
  destruct (numeric_constant_falls_back_to_zero float_digits 2 ex_missing "age"
              (Some "abc") (mkSeries Float64 [Num (Q2Qc 30); Missing; Missing])
              false (session_of ex_missing) eq_refl
              ltac:(repeat constructor) eq_refl)
    as (d1 & s' & Hstep & Hg & _ & _ & Hzero & _).
  exists d1, s'. split; [exact Hstep|]. split; [exact Hg|].
  apply Hzero. right. right. exists "abc", ValueError. split; reflexivity.
Defined.



Section ModeFill.

Lemma tied_modes_nonempty vs :
  dropna_values vs <> [] -> tied_modes vs <> [].
Proof.
  intros Hne. unfold tied_modes.
  set (nn := dropna_values vs) in *.
  set (cnt := fun x => count_of x nn).
  assert (Hu : unique [] nn <> []).
  { destruct nn as [|x nn'] eqn:Hnn; [done|].
    assert (Hx : x ∈ unique [] (x :: nn')).
    { apply unique_elem_of. split; [apply elem_of_cons; by left|].
      apply not_elem_of_nil. }
    intros Hnil. rewrite Hnil in Hx. by apply elem_of_nil in Hx. }
  assert (Hm : map cnt (unique [] nn) <> []).
  { destruct (unique [] nn); [done|]. done. }
  apply max_list_elem_of in Hm.
  apply list_elem_of_fmap in Hm as (x & Hx & Hin).
  intros Hnil.
  assert (Hin' : x ∈ filter (fun c => count_of c nn = max_list (map cnt (unique [] nn)))
                        (unique [] nn)).
  { apply list_elem_of_filter. split; [|done]. by rewrite Hx. }
  rewrite Hnil in Hin'. by apply elem_of_nil in Hin'.
Qed.

Lemma series_mode_head s v :
  head (series_mode s) = Some v -> v ∈ tied_modes (s_values s).
Proof.
  unfold series_mode. destruct (sortable _).
  - apply head_isort_elem_of.
  - apply head_Some_elem_of.
Qed.

Lemma series_mode_nil s :
  series_mode s = [] <-> tied_modes (s_values s) = [].
Proof.
  unfold series_mode. destruct (sortable _); [|done].
  split.
  - intros H. apply Permutation_nil_r. rewrite <- H.
    symmetry. apply isort_Permutation.
  - by intros ->.
Qed.

End ModeFill.

(** The mode strategy on any column, sortable or not: when the column has a
    present value the fill is one of its present values that no other value
    outnumbers, and when every cell is missing the fill is the empty text
    (line 177).  Either way no cell of the column is missing afterwards. *)
Theorem mode_fill_is_most_frequent
    (py_float : string -> result (option Qc))
    (l : loc) (d : DataFrame) (col : string) (param : option string)
    (s : Series) (c : bool) (w : world) :
  heap w !! l = Some d -> rectangular d -> getitem d col = Ok s ->
  let v := mode_fill d col in
  let present := dropna_values (s_values s) in
  exists d1 s',
    impute_step py_float l (col, ("mode", param)) c w
    = ((store l d1 w).1, Done true) /\
    getitem d1 col = Ok s' /\
    (forall i x, s_values s !! i = Some x ->
       s_values s' !! i = Some (if isnull x then v else x)) /\
    Forall (fun x => isnull x = false) (s_values s') /\
    (Forall (fun x => x = Missing) (s_values s) -> v = Text "") /\
    (~ Forall (fun x => x = Missing) (s_values s) ->
     v ∈ present /\
     forall x, x ∈ present -> count_of x present <= count_of v present).
Proof.
  intros Hl Hrect Hg v present.
  assert (Happ : apply_strategy py_float d col "mode" param = Applied (fillna v s)).
  { unfold apply_strategy. strategy_tests. by rewrite Hg. }
  destruct (impute_step_column py_float l d col "mode" param s _ c w
              Hl Hrect Hg Happ (length_fillna _ _)) as (d1 & Hstep & _ & Hg1 & _).
  assert (Hall : Forall (fun x => x = Missing) (s_values s) -> v = Text "").
  { intros Hm. apply dropna_values_nil in Hm.
    subst v. unfold mode_fill. rewrite Hg. simpl.
    assert (Ht : tied_modes (s_values s) = []).
    { unfold tied_modes. by rewrite Hm. }
    apply series_mode_nil in Ht. by rewrite Ht. }
  assert (Hsome : ~ Forall (fun x => x = Missing) (s_values s) ->
            v ∈ tied_modes (s_values s)).
  { intros Hm. rewrite <- dropna_values_nil in Hm.
    apply tied_modes_nonempty in Hm.
    subst v. unfold mode_fill. rewrite Hg. simpl.
    destruct (series_mode s) as [|x k] eqn:Hs.
    - exfalso. apply Hm. by apply series_mode_nil.
    - simpl. apply series_mode_head. by rewrite Hs. }
  assert (Hv : isnull v = false).
  { destruct (decide (Forall (fun x => x = Missing) (s_values s))) as [Hm|Hm].
    - by rewrite (Hall Hm).
    - apply (dropna_values_valid (s_values s)).
      by apply tied_modes_spec, Hsome. }
  exists d1, (fillna v s).
  split; [done|]. split; [done|]. split.
  { intros i x Hi. by rewrite fillna_lookup, Hi. }
  split; [by apply fillna_no_missing|]. split; [done|].
  intros Hm. by apply tied_modes_spec, Hsome.
Qed.

Lemma mode_fill_is_most_frequent_witness :
  exists d1 s',
    impute_step float_digits 2 ("x", ("mode", None)) false (session_of ex_all_missing)
    = ((store 2 d1 (session_of ex_all_missing)).1, Done true) /\
    getitem d1 "x" = Ok s' /\
    mode_fill ex_all_missing "x" = Text "" /\
    Forall (fun x => isnull x = false) (s_values s').
Proof.
  destruct (mode_fill_is_most_frequent float_digits 2 ex_all_missing "x" None
              (mkSeries Float64 [Missing; Missing]) false
              (session_of ex_all_missing) eq_refl
              ltac:(repeat constructor) eq_refl)
    as (d1 & s' & Hstep & Hg & _ & Hno & Hall & _).
  exists d1, s'. split; [exact Hstep|]. split; [exact Hg|].
  split; [apply Hall; repeat constructor | exact Hno].
Defined.

(** ** Whole batches: shape, notices, what the widgets build *)

Section Batches.
Variable py_float : string -> result (option Qc).

Lemma df_len_setitem d col s : df_len (setitem d col s) = df_len d.
Proof.
  unfold df_len, setitem. destruct (col_pos (df_columns d) col); [|done].
  simpl. apply length_set_col.
Qed.

Lemma rectangular_reset_index d : rectangular d -> rectangular (reset_index d).
Proof.
  unfold rectangular, reset_index. simpl. rewrite !Forall_forall.
  intros H r Hr. apply elem_of_lookup_imap in Hr as (i & x & -> & Hx).
  simpl. apply H. by eapply list_elem_of_lookup_2.
Qed.

Lemma rectangular_dropna d : rectangular d -> rectangular (dropna d).
Proof.
  unfold rectangular, dropna. simpl. rewrite !Forall_forall.
  intros H r Hr. apply list_elem_of_filter in Hr as [_ Hr]. by apply H.
Qed.

Lemma rectangular_drop_duplicates d :
  rectangular d -> rectangular (drop_duplicates d).
Proof.
  unfold rectangular, drop_duplicates. simpl. rewrite !Forall_forall.
  intros H r Hr. apply H. eapply elem_of_sublist; [exact Hr|].
  apply drop_mask_sublist.
Qed.

(** the loop never adds or removes a row or a column *)
Lemma impute_loop_shape l es : forall w d c,
  heap w !! l = Some d ->
  exists d',
    heap (impute_loop py_float l es c w).1 !! l = Some d' /\
    df_len d' = df_len d /\ df_names d' = df_names d /\
    (rectangular d -> rectangular d').
Proof.
  induction es as [|[col [strategy param]] es IH]; intros w d c Hl.
  - exists d. by repeat split.
  - rewrite impute_loop_cons, (impute_step_eq _ _ _ _ _ _ _ _ Hl).
    destruct (apply_strategy py_float d col strategy param) as [s| |x].
    + destruct (IH (store l (setitem d col s) w).1 (setitem d col s) true
                   (store_lookup _ _ _ _ Hl)) as (d' & Hd' & Hlen & Hnm & Hr).
      exists d'. split; [done|].
      rewrite Hlen, Hnm, df_len_setitem, setitem_names.
      repeat split; try done. intros H. by apply Hr, rectangular_setitem.
    + apply (IH (emit LWarning (skip_notice col) w).1 d c Hl).
    + exists d. by repeat split.
Qed.

Lemma skip_notices_cons d e es :
  skip_notices py_float d (e :: es)
  = ((if is_skipped (entry_effect py_float d e)
      then [(LWarning, skip_notice e.1)] else [])
     ++ skip_notices py_float d es)%list.
Proof.
  unfold skip_notices. rewrite filter_cons.
  destruct (is_skipped (entry_effect py_float d e)); by case_decide.
Qed.

Lemma skip_notices_ext d d' es :
  (forall e, e ∈ es -> entry_effect py_float d' e = entry_effect py_float d e) ->
  skip_notices py_float d' es = skip_notices py_float d es.
Proof.
  induction es as [|e es IH]; intros H; [done|].
  rewrite !skip_notices_cons, H by (apply elem_of_cons; by left).
  f_equal. apply IH. intros x Hx. apply H, elem_of_cons. by right.
Qed.

(** with one entry per column and no entry that raises, the page shows one
    warning per skipped entry, in order *)
Lemma impute_loop_out l es : forall w d c,
  heap w !! l = Some d ->
  NoDup es.*1 ->
  Forall (fun e => is_failed (entry_effect py_float d e) = false) es ->
  out (impute_loop py_float l es c w).1
  = (out w ++ skip_notices py_float d es)%list.
Proof.
  induction es as [|[col [strategy param]] es IH]; intros w d c Hl Hnd Hall.
  - simpl. unfold skip_notices. simpl. by rewrite app_nil_r.
  - simpl in Hnd. apply NoDup_cons in Hnd as [Hcol Hnd].
    apply Forall_cons in Hall as [Hx Hall].
    rewrite impute_loop_cons, (impute_step_eq _ _ _ _ _ _ _ _ Hl).
    rewrite skip_notices_cons.
    change (entry_effect py_float d (col, (strategy, param)))
      with (apply_strategy py_float d col strategy param) in *.
    destruct (apply_strategy py_float d col strategy param) as [s| |x] eqn:He;
      [| |done].
    + assert (Hsame : forall e, e ∈ es ->
                entry_effect py_float (setitem d col s) e = entry_effect py_float d e).
      { intros e Hin. unfold entry_effect. apply apply_strategy_ext.
        apply getitem_setitem_ne. intros Heq. apply Hcol. rewrite Heq.
        apply list_elem_of_fmap. by exists e. }
      rewrite (IH (store l (setitem d col s) w).1 (setitem d col s) true
                  (store_lookup _ _ _ _ Hl) Hnd).
      * simpl. f_equal. by apply skip_notices_ext.
      * apply Forall_forall. intros e Hin. rewrite Hsame by done.
        by apply (proj1 (Forall_forall _ _) Hall).
    + rewrite (IH (emit LWarning (skip_notice col) w).1 d c Hl Hnd Hall).
      simpl. by rewrite <- app_assoc.
Qed.

Lemma omap_cons_eq {A B} (f : A -> option B) (x : A) (xs : list A) :
  omap f (x :: xs)
  = match f x with Some y => y :: omap f xs | None => omap f xs end.
Proof. reflexivity. Qed.

Lemma build_strategies_names d wd :
  (build_strategies d wd).*1
  = filter (fun c => is_Some (strategy_for d wd c)) (chosen_cols wd).
Proof.
  unfold build_strategies.
  induction (chosen_cols wd) as [|c cs IH]; [done|].
  rewrite omap_cons_eq.
  destruct (strategy_for d wd c) as [e|] eqn:He.
  - rewrite filter_cons_True by (rewrite He; by eexists).
    rewrite fmap_cons, IH. f_equal.
    unfold strategy_for in He. destruct (getitem d c); [|done].
    by injection He as <-.
  - by rewrite filter_cons_False by (rewrite He; by intros [? ?]).
Qed.

End Batches.

(** "Apply missing-value strategies" never adds or removes a row or a
    column: whatever the batch, and also when an entry raises, the working
    table keeps its number of rows and its column names, and stays
    rectangular. *)
Theorem apply_impute_keeps_shape
    (py_float : string -> result (option Qc))
    (l : loc) (d : DataFrame) (es : list strategy_entry) (w : world) :
  ss_df w = Some l -> heap w !! l = Some d ->
  exists d',
    working (apply_impute py_float es w).1 = Some d' /\
    df_len d' = df_len d /\
    df_names d' = df_names d /\
    (rectangular d -> rectangular d').
Proof.
  intros Hl Hd.
  rewrite (apply_impute_eq _ _ _ _ Hl).
  destruct (impute_loop_shape py_float l es w d false Hd)
    as (d' & Hd' & Hlen & Hnm & Hr).
  destruct (impute_loop_frame py_float l es w d false Hd)
    as (_ & _ & (_ & _ & Fl & _) & Hs & _).
  destruct (impute_loop py_float l es false w) as [w1 [[|]| |e]]; simpl in *;
    try done.
  - exists (reset_index d'). unfold working. simpl.
    rewrite lookup_snoc, Hd'. simpl.
    split; [done|]. split; [by rewrite df_len_reset_index|].
    split; [done|]. intros H. by apply rectangular_reset_index, Hr.
  - exists d'. unfold working. rewrite Fl, Hl. by repeat split.
  - exists d'. unfold working. rewrite Fl, Hl. by repeat split.
Qed.

Lemma apply_impute_keeps_shape_witness :
  exists d',
    working (apply_impute float_digits
               [("age", ("mean", None)); ("city", ("cat_constant", None))]
               (session_of ex_missing)).1 = Some d' /\
    df_len d' = 3 /\ df_names d' = ["age"; "city"].
Proof.
  destruct (apply_impute_keeps_shape float_digits 2 ex_missing
              [("age", ("mean", None)); ("city", ("cat_constant", None))]
              (session_of ex_missing) eq_refl eq_refl)
    as (d' & Hw & Hlen & Hnm & _).
  exists d'. split; [exact Hw|]. split; [exact Hlen | exact Hnm].
Defined.

(** the result and the messages of a batch *)
Lemma impute_loop_result
    (py_float : string -> result (option Qc))
    (l : loc) (d : DataFrame) (es : list strategy_entry) (w : world) :
  heap w !! l = Some d ->
  NoDup es.*1 ->
  Forall (fun e => is_failed (entry_effect py_float d e) = false) es ->
  exists w1,
    impute_loop py_float l es false w
    = (w1, Done (existsb (fun e => is_applied (entry_effect py_float d e)) es)) /\
    out w1 = (out w ++ skip_notices py_float d es)%list.
Proof.
  intros Hd Hnd Hall.
  pose proof (impute_loop_out py_float l es w d false Hd Hnd Hall) as Hout.
  destruct (impute_loop_flag py_float l es w d false Hd Hnd) as [Hb Hok].
  destruct (Hok Hall) as [b Hr]. pose proof (Hb b Hr) as Hbv. simpl in Hbv.
  destruct (impute_loop py_float l es false w) as [w1 o]. simpl in *.
  subst o b. by exists w1.
Qed.

(** What a batch shows: with one entry per column and no entry that raises,
    the page gets one "Skipped ..." warning for each skipped entry, in the
    order of the entries, followed by "Applied missing-value strategies."
    exactly when some entry was applied. *)
Theorem apply_impute_reports_skips
    (py_float : string -> result (option Qc))
    (l : loc) (d : DataFrame) (es : list strategy_entry) (w : world) :
  ss_df w = Some l -> heap w !! l = Some d ->
  NoDup es.*1 ->
  Forall (fun e => is_failed (entry_effect py_float d e) = false) es ->
  let changed := existsb (fun e => is_applied (entry_effect py_float d e)) es in
  (apply_impute py_float es w).2 = Done changed /\
  out (apply_impute py_float es w).1
  = (out w ++ skip_notices py_float d es ++ applied_notice changed)%list.
Proof.
  intros Hl Hd Hnd Hall changed.
  rewrite (apply_impute_eq _ _ _ _ Hl).
  destruct (impute_loop_result py_float l d es w Hd Hnd Hall) as (w1 & -> & Hout).
  fold changed. destruct changed; simpl.
  - split; [done|]. by rewrite Hout, <- app_assoc.
  - split; [done|]. by rewrite Hout, app_nil_r.
Qed.

Lemma apply_impute_reports_skips_witness :
  let es := [("city", ("median", None)); ("age", ("median", None));
             ("zip", ("mystery", None))] in
  (apply_impute float_digits es (session_of ex_missing)).2 = Done true /\
  out (apply_impute float_digits es (session_of ex_missing)).1
  = [(LWarning, "Skipped city: incompatible strategy or dtype.");
     (LWarning, "Skipped zip: incompatible strategy or dtype.");
     (LSuccess, "Applied missing-value strategies.")].
Proof.
  apply (apply_impute_reports_skips float_digits 2 ex_missing
           [("city", ("median", None)); ("age", ("median", None));
            ("zip", ("mystery", None))] (session_of ex_missing) eq_refl eq_refl).
  - apply (bool_decide_unpack _). vm_compute. exact I.
  - repeat constructor.
Defined.

(** A batch built by the select boxes of lines 97-118 always goes through:
    every chosen column is filled, no entry raises, no "Skipped" warning is
    shown, and "Applied" is shown as soon as a column was chosen. *)
Theorem widget_batch_is_applied
    (py_float : string -> result (option Qc))
    (l : loc) (d : DataFrame) (wd : widgets) (w : world) :
  ss_df w = Some l -> heap w !! l = Some d ->
  NoDup (chosen_cols wd) ->
  let es := build_strategies d wd in
  let changed := negb (bool_decide (es = [])) in
  (apply_impute py_float es w).2 = Done changed /\
  out (apply_impute py_float es w).1 = (out w ++ applied_notice changed)%list /\
  skip_notices py_float d es = [].
Proof.
  intros Hl Hd Hnd es changed.
  assert (Happ : forall e, e ∈ es -> is_applied (entry_effect py_float d e) = true)
    by (intros e; apply build_strategies_applied).
  assert (Hnd' : NoDup es.*1).
  { subst es. rewrite build_strategies_names. by apply NoDup_filter. }
  assert (Hall : Forall (fun e => is_failed (entry_effect py_float d e) = false) es).
  { apply Forall_forall. intros e He. specialize (Happ e He).
    by destruct (entry_effect py_float d e). }
  assert (Hskip : skip_notices py_float d es = []).
  { unfold skip_notices.
    replace (filter _ es) with (@nil strategy_entry); [done|].
    symmetry. apply nil_length_inv.
    assert (Hnone : forall e, e ∈ es -> is_skipped (entry_effect py_float d e) <> true).
    { intros e He. specialize (Happ e He).
      by destruct (entry_effect py_float d e). }
    clear -Hnone. induction es as [|e es IH]; [done|].
    rewrite filter_cons_False by (apply Hnone, elem_of_cons; by left).
    apply IH. intros x Hx. apply Hnone, elem_of_cons. by right. }
  assert (Hch : existsb (fun e => is_applied (entry_effect py_float d e)) es = changed).
  { subst changed. clearbody es. destruct es as [|e es'].
    - by rewrite bool_decide_eq_true_2.
    - simpl. by rewrite (Happ e) by (apply elem_of_cons; by left). }
  rewrite (apply_impute_eq _ _ _ _ Hl).
  destruct (impute_loop_result py_float l d es w Hd Hnd' Hall) as (w1 & -> & Hout).
  rewrite Hch, Hskip, app_nil_r in *. destruct changed; simpl.
  - split; [done|]. split; [|done]. by rewrite Hout.
  - split; [done|]. split; [|done]. by rewrite Hout, app_nil_r.
Qed.

Lemma widget_batch_is_applied_witness :
  (apply_impute float_digits (build_strategies ex_missing ex_widgets)
                (session_of ex_missing)).2 = Done true /\
  out (apply_impute float_digits (build_strategies ex_missing ex_widgets)
                    (session_of ex_missing)).1
  = [(LSuccess, "Applied missing-value strategies.")].
Proof.
  pose proof (widget_batch_is_applied float_digits 2 ex_missing ex_widgets
                (session_of ex_missing) eq_refl eq_refl
                ltac:(apply (bool_decide_unpack _); vm_compute; exact I)) as H.
  split; [exact (proj1 H) | exact (proj1 (proj2 H))].
Defined.

(** ** Duplicates seen three ways *)

Section NoDuplicates.
Implicit Types (seen rs : list row) (r : row).

Lemma bsum_cons b m : bsum (b :: m) = (if b then 1 else 0) + bsum m.
Proof. unfold bsum. rewrite filter_cons. destruct b; by case_decide. Qed.

Lemma bsum_first_zero rs : forall seen,
  bsum (duplicated_first seen rs) = 0
  <-> NoDup rs /\ forall r, r ∈ rs -> r ∉ seen.
Proof.
  induction rs as [|x rs IH]; intros seen; simpl.
  - split; [|done]. intros _. split; [constructor|].
    intros r Hr. by apply elem_of_nil in Hr.
  - rewrite bsum_cons, NoDup_cons.
    destruct (decide (x ∈ seen)) as [Hx|Hx].
    + rewrite bool_decide_eq_true_2 by done. split; [simpl; lia|].
      intros [_ H]. exfalso. apply (H x); [apply elem_of_cons; by left|done].
    + rewrite bool_decide_eq_false_2 by done. simpl. rewrite IH. split.
      * intros [Hnd H]. split; [split; [|done]|].
        { intros Hin. apply (H x Hin). apply elem_of_cons. by left. }
        intros r [->|Hr]%elem_of_cons; [done|].
        intros Hs. apply (H r Hr). apply elem_of_cons. by right.
      * intros [[Hxn Hnd] H]. split; [done|].
        intros r Hr [->|Hs]%elem_of_cons; [done|].
        apply (H r); [apply elem_of_cons; by right|done].
Qed.

Lemma bsum_false_zero rs : forall before,
  bsum (duplicated_false before rs) = 0
  <-> NoDup rs /\ forall r, r ∈ rs -> r ∉ before.
Proof.
  induction rs as [|x rs IH]; intros before; simpl.
  - split; [|done]. intros _. split; [constructor|].
    intros r Hr. by apply elem_of_nil in Hr.
  - rewrite bsum_cons, NoDup_cons.
    destruct (decide (x ∈ before ∨ x ∈ rs)) as [Hx|Hx].
    + rewrite bool_decide_eq_true_2 by done. split; [simpl; lia|].
      intros [[Hxn _] H]. exfalso. destruct Hx as [Hx|Hx]; [|done].
      apply (H x); [apply elem_of_cons; by left|done].
    + rewrite bool_decide_eq_false_2 by done. simpl. rewrite IH. split.
      * intros [Hnd H]. split; [split; [tauto|done]|].
        intros r [->|Hr]%elem_of_cons; [tauto|].
        intros Hs. apply (H r Hr). apply elem_of_cons. by right.
      * intros [[Hxn Hnd] H]. split; [done|].
        intros r Hr [->|Hs]%elem_of_cons; [done|].
        apply (H r); [apply elem_of_cons; by right|done].
Qed.

Lemma keep_first_zero_NoDup d :
  bsum (duplicated KeepFirst d) = 0 <-> NoDup (df_values d).
Proof.
  unfold duplicated. rewrite bsum_first_zero. split; [tauto|].
  intros H. split; [done|]. intros r _. apply not_elem_of_nil.
Qed.

Lemma keep_false_zero_NoDup d :
  bsum (duplicated KeepFalse d) = 0 <-> NoDup (df_values d).
Proof.
  unfold duplicated. rewrite bsum_false_zero. split; [tauto|].
  intros H. split; [done|]. intros r _. apply not_elem_of_nil.
Qed.

End NoDuplicates.

(** "Show duplicate sample" changes nothing in the session.  It says "No
    duplicate rows found." exactly when no two rows of the table are equal,
    which is exactly when the summary reports 0 duplicates: the count with
    [keep=False] of line 125 and the count with [keep='first'] of line 35
    vanish together. *)
Theorem show_duplicate_sample_agrees_with_summary
    (l o : loc) (d : DataFrame) (w : world) :
  heap w !! l = Some d ->
  let r := press (Some ShowDuplicateSample) l o w in
  r.2 = Done tt /\
  heap r.1 = heap w /\ ss_df r.1 = ss_df w /\
  ss_original_df r.1 = ss_original_df w /\
  (NoDup (df_values d) ->
   out r.1 = (out w ++ [(LInfo, "No duplicate rows found.")])%list) /\
  (~ NoDup (df_values d) -> out r.1 = out w) /\
  (NoDup (df_values d) <-> summary_duplicates d = Some (SInt 0)) /\
  (NoDup (df_values d) <-> spec_duplicate_count (df_values d) = 0).
Proof.
  intros Hd r. subst r. unfold press.
  rewrite bind_apply, (deref_eq _ _ _ Hd).
  assert (H1 : NoDup (df_values d) <-> summary_duplicates d = Some (SInt 0)).
  { rewrite summary_duplicates_eq, <- keep_first_zero_NoDup.
    split; [intros H; f_equal; f_equal; exact H | intros [= H]; exact H]. }
  assert (H2 : NoDup (df_values d) <-> spec_duplicate_count (df_values d) = 0).
  { rewrite <- bsum_keep_false. apply (iff_sym (keep_false_zero_NoDup d)). }
  destruct (decide (NoDup (df_values d))) as [Hnd|Hnd].
  - rewrite bool_decide_eq_true_2 by (by apply keep_false_zero_NoDup).
    destruct w; simpl. do 4 (split; [done|]).
    split; [done|]. split; [done|]. by split.
  - rewrite bool_decide_eq_false_2 by (by rewrite keep_false_zero_NoDup).
    destruct w; simpl. do 4 (split; [done|]).
    split; [done|]. split; [done|]. by split.
Qed.

Lemma show_duplicate_sample_agrees_with_summary_witness :
  (press (Some ShowDuplicateSample) 2 1 (session_of ex_missing)).2 = Done tt /\
  heap (press (Some ShowDuplicateSample) 2 1 (session_of ex_missing)).1
  = heap (session_of ex_missing).
Proof.
  pose proof (show_duplicate_sample_agrees_with_summary 2 1 ex_missing
                (session_of ex_missing) eq_refl) as H.
  split; [exact (proj1 H) | exact (proj1 (proj2 H))].
Defined.

(** ** The summary after the cleaning buttons *)

(** After "Remove duplicate rows" the summary of the working table reports 0
    duplicates. *)
Theorem summary_after_remove_duplicates (l l0 o0 : loc) (d : DataFrame) (w : world) :
  ss_df w = Some l -> heap w !! l = Some d ->
  exists d',
    working (press (Some RemoveDuplicateRows) l0 o0 w).1 = Some d' /\
    summary_duplicates d' = Some (SInt 0).
Proof.
  intros Hl Hd. destruct (press_remove_state l d l0 o0 w Hl Hd) as [Hl1 Hd1].
  exists (reset_index (drop_duplicates d)).
  split; [by apply (working_of _ _ _ Hl1 Hd1)|].
  rewrite summary_duplicates_eq. f_equal. f_equal.
  apply keep_first_zero_NoDup.
  rewrite df_values_reset_index, df_values_drop_duplicates. apply kept_NoDup.
Qed.

Lemma summary_after_remove_duplicates_witness :
  exists d',
    working (press (Some RemoveDuplicateRows) 2 1 (session_of ex_dup)).1 = Some d' /\
    summary_duplicates d' = Some (SInt 0).
Proof.
  apply (summary_after_remove_duplicates 2 2 1 ex_dup (session_of ex_dup));
    reflexivity.
Defined.

Section SummaryMissing.

Lemma bsum_zero_Forall m : bsum m = 0 <-> Forall (fun b => b = false) m.
Proof.
  induction m as [|b m IH]; [by split; [constructor|]|].
  rewrite bsum_cons, Forall_cons, <- IH. destruct b; simpl.
  - split; [lia|]. by intros [? ?].
  - split; [done|]. by intros [_ ?].
Qed.

(** in a rectangular frame without a missing cell no column counts one *)
Lemma isnull_column_complete d j :
  rectangular d -> j < length (df_columns d) ->
  (forall r, r ∈ df_values d -> Missing ∉ r) ->
  bsum (map isnull (col_values j (df_rows d))) = 0.
Proof.
  intros Hrect Hj Hc. apply bsum_zero_Forall.
  unfold col_values. rewrite Forall_forall. intros b Hb.
  apply list_elem_of_fmap in Hb as (c & -> & Hin).
  apply list_elem_of_fmap in Hin as (r & -> & Hr).
  unfold rectangular in Hrect. rewrite Forall_forall in Hrect.
  specialize (Hrect r Hr).
  assert (Hv : r.2 ∈ df_values d).
  { unfold df_values. apply list_elem_of_fmap. by exists r. }
  specialize (Hc _ Hv).
  unfold cell_at.
  destruct (r.2 !! j) as [x|] eqn:Hx.
  - simpl. destruct x; try done. exfalso. apply Hc.
    by eapply list_elem_of_lookup_2.
  - apply lookup_ge_None in Hx. lia.
Qed.

End SummaryMissing.

(** After "Drop rows with any missing values" on a rectangular table the
    summary of the working table reports 0 missing cells for every column. *)
Theorem summary_after_drop_rows
    (l l0 o0 : loc) (d : DataFrame) (j : nat) (c : string) (t : dtype) (w : world) :
  ss_df w = Some l -> heap w !! l = Some d ->
  rectangular d ->
  df_columns d !! j = Some (c, t) -> c <> "__duplicates" ->
  exists d' pct,
    working (press (Some DropRowsMissing) l0 o0 w).1 = Some d' /\
    summary_stats d' !! j
    = Some (c, mkSrow (SStr (dtype_str t)) (SInt 0) (SFloat pct)) /\
    (0 < df_len d' -> pct = FFin (spec_missing_pct 0 (df_len d'))) /\
    (df_len d' = 0 -> pct = FNaN).
Proof.
  intros Hl Hd Hrect Hj Hne.
  destruct (press_drop_state l d l0 o0 w Hl Hd) as [Hl1 Hd1].
  set (d' := reset_index (dropna d)).
  assert (Hzero : bsum (map isnull (col_values j (df_rows d'))) = 0).
  { apply isnull_column_complete.
    - by apply rectangular_reset_index, rectangular_dropna.
    - by eapply lookup_lt_Some.
    - intros r. subst d'. rewrite df_values_reset_index, df_values_dropna.
      rewrite list_elem_of_filter. intros [Hr _].
      by apply complete_row_no_missing. }
  exists d', (fround2 (fmul (fdiv_count 0 (df_len d')) 100)).
  split; [by apply (working_of _ _ _ Hl1 Hd1)|]. split.
  - rewrite (summary_stats_lookup d' j c t) by done. by rewrite Hzero.
  - split.
    + intros Hpos. by apply missing_pct_zero.
    + by intros ->.
Qed.

Lemma summary_after_drop_rows_witness :
  exists d' pct,
    working (press (Some DropRowsMissing) 2 1 (session_of ex_missing)).1 = Some d' /\
    summary_stats d' !! 1
    = Some ("city", mkSrow (SStr "object") (SInt 0) (SFloat pct)).
Proof.
  destruct (summary_after_drop_rows 2 2 1 ex_missing 1 "city" Object
              (session_of ex_missing) eq_refl eq_refl
              ltac:(repeat constructor) eq_refl ltac:(discriminate))
    as (d' & pct & Hw & Hs & _).
  exists d', pct. split; [exact Hw | exact Hs].
Defined.

(** ** Entries that raise *)

Section Raising.
Variable py_float : string -> result (option Qc).

Lemma col_pos_None cols c : (col_pos cols c = None) <-> (c ∉ cols.*1).
Proof.
  induction cols as [|[n t] cols IH]; simpl.
  - split; [intros _; apply not_elem_of_nil|done].
  - rewrite not_elem_of_cons. case_decide as Hn.
    + split; [done|]. intros [Hc _]. by subst.
    + destruct (col_pos cols c) eqn:E; simpl.
      * split; [done|]. intros [_ H]. by apply IH in H.
      * split; [|done]. intros _. split; [congruence|]. by apply IH.
Qed.

Lemma getitem_raises d c x :
  (getitem d c = Raise x) <-> ((c ∉ df_names d) /\ x = KeyError c).
Proof.
  unfold getitem, df_names. rewrite <- col_pos_None.
  destruct (col_pos (df_columns d) c).
  - split; [done|]. by intros [? _].
  - split; [by intros [= <-] | by intros [_ ->]].
Qed.

Lemma getitem_Ok_names d c s : getitem d c = Ok s -> c ∈ df_names d.
Proof.
  intros Hg. destruct (decide (c ∈ df_names d)) as [|Hn]; [done|].
  assert (getitem d c = Raise (KeyError c)) by (by apply getitem_raises).
  congruence.
Qed.

Lemma apply_strategy_failed d col strategy param x :
  apply_strategy py_float d col strategy param = Failed x
  <-> (strategy ∈ known_kinds /\ (col ∉ df_names d) /\ x = KeyError col)
      \/ (strategy = "cat_constant" /\ col ∈ df_names d /\ param = None
          /\ x = ValueError).
Proof.
  unfold apply_strategy, known_kinds.
  destruct (getitem d col) as [s|e] eqn:Hg.
  - pose proof (getitem_Ok_names _ _ _ Hg) as Hin.
    destruct (decide (strategy = "mean")) as [->|?];
      [|destruct (decide (strategy = "median")) as [->|?];
        [|destruct (decide (strategy = "numeric_constant")) as [->|?];
          [|destruct (decide (strategy = "mode")) as [->|?];
            [|destruct (decide (strategy = "ffill")) as [->|?];
              [|destruct (decide (strategy = "bfill")) as [->|?];
                [|destruct (decide (strategy = "cat_constant")) as [->|?]]]]]]];
      strategy_tests;
      try match goal with
          | |- context [is_numeric_dtype ?t] => destruct (is_numeric_dtype t)
          end;
      try (split; [done|]; intros [(_ & ? & _)|(? & _)]; done).
    destruct param as [p|]; simpl.
    + split; [by case_decide|]. intros [(_ & ? & _)|(_ & _ & ? & _)]; done.
    + split; [intros [= <-]; by right|].
      intros [(_ & ? & _)|(_ & _ & _ & ->)]; done.
  - apply getitem_raises in Hg as [Hn ->].
    destruct (decide (strategy ∈ ["mean"; "median"])) as [H1|H1].
    + rewrite bool_decide_eq_true_2 by done. split.
      * intros [= <-]. left. split; [|done].
        rewrite !elem_of_cons in H1. rewrite !elem_of_cons. tauto.
      * intros [(_ & _ & ->)|(_ & ? & _)]; done.
    + rewrite bool_decide_eq_false_2 by done.
      destruct (decide (strategy ∈ ["numeric_constant"; "mode"; "ffill";
                                    "bfill"; "cat_constant"])) as [H2|H2].
      * rewrite bool_decide_eq_true_2 by done. split.
        -- intros [= <-]. left. split; [|done].
           rewrite !elem_of_cons in H2. rewrite !elem_of_cons. tauto.
        -- intros [(_ & _ & ->)|(_ & ? & _)]; done.
      * rewrite bool_decide_eq_false_2 by done. split; [done|].
        intros [(Hk & _)|(_ & ? & _)]; [|done]. exfalso.
        repeat rewrite elem_of_cons in H1. repeat rewrite elem_of_cons in H2.
        repeat rewrite elem_of_cons in Hk. tauto.
Qed.

Lemma apply_strategy_unknown d col strategy param :
  strategy ∉ known_kinds ->
  apply_strategy py_float d col strategy param = Skipped.
Proof.
  unfold apply_strategy, known_kinds. intros Hk.
  rewrite !bool_decide_eq_false_2; [done| |];
    intros H; apply Hk; repeat rewrite elem_of_cons in H;
    repeat rewrite elem_of_cons; tauto.
Qed.

(** a strategy that is applied writes a column as long as the one it read *)
Lemma applied_length d col strategy param s' :
  apply_strategy py_float d col strategy param = Applied s' ->
  exists s, getitem d col = Ok s /\
            length (s_values s') = length (s_values s).
Proof.
  unfold apply_strategy.
  destruct (getitem d col) as [s|e]; [|by repeat case_match].
  intros H. exists s. split; [done|].
  repeat case_match; try done; injection H as <-;
    rewrite ?length_fillna; try done; simpl;
    by rewrite ?length_rev, ?length_ffill_from, ?length_rev.
Qed.

Lemma impute_loop_app l es1 es2 : forall c w,
  impute_loop py_float l (es1 ++ es2) c w =
  match impute_loop py_float l es1 c w with
  | (w', Done c') => impute_loop py_float l es2 c' w'
  | (w', Stopped) => (w', Stopped)
  | (w', Raised x) => (w', Raised x)
  end.
Proof.
  induction es1 as [|e es1 IH]; intros c w; [done|].
  rewrite <- app_comm_cons, !impute_loop_cons.
  destruct (impute_step py_float l e c w) as [w' [c'| |x]]; [apply IH|done|done].
Qed.

(** with one entry per column and no entry that raises, every applied entry
    of the batch is read back from the frame the loop leaves *)
Lemma impute_loop_applied l es : forall w d c,
  heap w !! l = Some d -> rectangular d ->
  NoDup es.*1 ->
  Forall (fun e => is_failed (entry_effect py_float d e) = false) es ->
  exists d',
    heap (impute_loop py_float l es c w).1 !! l = Some d' /\
    forall e s, e ∈ es -> entry_effect py_float d e = Applied s ->
                getitem d' e.1 = Ok s.
Proof.
  induction es as [|[col [strategy param]] es IH]; intros w d c Hl Hrect Hnd Hall.
  - exists d. split; [done|]. intros e s He. by apply elem_of_nil in He.
  - simpl in Hnd. apply NoDup_cons in Hnd as [Hcol Hnd].
    apply Forall_cons in Hall as [Hx Hall].
    assert (Hext : forall d1, (forall c', c' <> col -> getitem d1 c' = getitem d c') ->
              forall e, e ∈ es -> entry_effect py_float d1 e = entry_effect py_float d e).
    { intros d1 Hd1 e He. unfold entry_effect. apply apply_strategy_ext.
      apply Hd1. intros Heq. apply Hcol. rewrite <- Heq.
      apply list_elem_of_fmap. by exists e. }
    rewrite impute_loop_cons, (impute_step_eq _ _ _ _ _ _ _ _ Hl).
    change (entry_effect py_float d (col, (strategy, param)))
      with (apply_strategy py_float d col strategy param) in Hx.
    destruct (apply_strategy py_float d col strategy param) as [s0| |x] eqn:He;
      [| |done].
    + assert (Hsame : forall e, e ∈ es ->
                entry_effect py_float (setitem d col s0) e = entry_effect py_float d e).
      { apply Hext. intros c' Hc'. by apply getitem_setitem_ne. }
      assert (Hall' : Forall (fun e => is_failed
                 (entry_effect py_float (setitem d col s0) e) = false) es).
      { apply Forall_forall. intros e Hin. rewrite Hsame by done.
        by apply (proj1 (Forall_forall _ _) Hall). }
      destruct (IH (store l (setitem d col s0) w).1 (setitem d col s0) true
                   (store_lookup _ _ _ _ Hl) (rectangular_setitem _ _ _ Hrect)
                   Hnd Hall') as (d' & Hd' & Hap).
      destruct (impute_loop_frame py_float l es (store l (setitem d col s0) w).1
                  (setitem d col s0) true (store_lookup _ _ _ _ Hl))
        as (d2 & Hd2 & _ & _ & Hun).
      assert (d2 = d') by congruence. subst d2.
      exists d'. split; [done|].
      intros e s [->|Hin]%elem_of_cons Hs.
      * unfold entry_effect in Hs. simpl in Hs. rewrite He in Hs.
        injection Hs as <-. simpl. rewrite (Hun col Hcol).
        destruct (applied_length _ _ _ _ _ He) as (s1 & Hg & Hlen).
        by eapply getitem_setitem_same.
      * apply Hap; [done|]. by rewrite Hsame.
    + destruct (IH (emit LWarning (skip_notice col) w).1 d c Hl Hrect Hnd Hall)
        as (d' & Hd' & Hap).
      exists d'. split; [done|].
      intros e s [->|Hin]%elem_of_cons Hs.
      * unfold entry_effect in Hs. simpl in Hs. by rewrite He in Hs.
      * by apply Hap.
Qed.

End Raising.

(** Which entries raise.  A pass of the loop body ends in an exception in
    two cases only: the strategy is one of the seven names the loop knows and
    the frame has no column of the entry's name ([KeyError] from [df[col]]),
    or the strategy is "cat_constant", the column exists and the parameter is
    [None] ([ValueError] from [fillna(None)]).  When the body raises, nothing
    was written and nothing was shown.  An unknown strategy never raises, even
    for an absent column: its branch shows the warning without reading
    [df[col]]. *)
Theorem entry_raises_exactly_when
    (py_float : string -> result (option Qc))
    (l : loc) (d : DataFrame) (col strategy : string) (param : option string)
    (c : bool) (w : world) (x : exn) :
  heap w !! l = Some d ->
  let r := impute_step py_float l (col, (strategy, param)) c w in
  (r.2 = Raised x <->
     (strategy ∈ known_kinds /\ (col ∉ df_names d) /\ x = KeyError col) \/
     (strategy = "cat_constant" /\ col ∈ df_names d /\ param = None
      /\ x = ValueError)) /\
  (r.2 = Raised x -> r.1 = w) /\
  (strategy ∉ known_kinds ->
   r = ((emit LWarning (skip_notice col) w).1, Done c)).
Proof.
  intros Hl r. subst r. rewrite (impute_step_eq _ _ _ _ _ _ _ _ Hl).
  rewrite <- (apply_strategy_failed py_float d col strategy param x).
  split; [|split].
  - destruct (apply_strategy py_float d col strategy param) as [s| |e]; simpl;
      split; try done; by intros [= ->].
  - by destruct (apply_strategy py_float d col strategy param) as [s| |e].
  - intros Hk. by rewrite apply_strategy_unknown.
Qed.

Lemma entry_raises_exactly_when_witness :
  (impute_step float_digits 2 ("nope", ("mode", None)) false
               (session_of ex_missing)).2 = Raised (KeyError "nope").
Proof.
  apply (entry_raises_exactly_when float_digits 2 ex_missing "nope" "mode" None
           false (session_of ex_missing) (KeyError "nope") eq_refl).
  left. split; [|split; [|done]].
  - apply (bool_decide_unpack _). vm_compute. exact I.
  - apply (bool_decide_unpack _). vm_compute. exact I.
Defined.

(** A batch is not all-or-nothing.  When an entry raises after entries for
    other columns that do not, the action ends in that exception: the entries after it are not
    run, the working key still names the same object (no [reset_index], no
    new object, no "Applied" message), the warnings of the skipped entries
    before it stay on the page, and the columns filled before it stay filled
    in that object. *)
Theorem raising_entry_stops_batch
    (py_float : string -> result (option Qc))
    (l : loc) (d : DataFrame) (es1 : list strategy_entry) (e : strategy_entry)
    (es2 : list strategy_entry) (x : exn) (w : world) :
  ss_df w = Some l -> heap w !! l = Some d ->
  NoDup es1.*1 -> e.1 ∉ es1.*1 ->
  Forall (fun e' => is_failed (entry_effect py_float d e') = false) es1 ->
  entry_effect py_float d e = Failed x ->
  let r := apply_impute py_float (es1 ++ e :: es2) w in
  r.2 = Raised x /\
  frame l w r.1 /\
  out r.1 = (out w ++ skip_notices py_float d es1)%list /\
  exists d', working r.1 = Some d' /\
    (forall c, c ∉ es1.*1 -> getitem d' c = getitem d c) /\
    (rectangular d -> forall e' s, e' ∈ es1 ->
       entry_effect py_float d e' = Applied s -> getitem d' e'.1 = Ok s).
Proof.
  intros Hl Hd Hnd1 Hcol Hall He r. subst r.
  rewrite (apply_impute_eq _ _ _ _ Hl), impute_loop_app.
  destruct (impute_loop_frame py_float l es1 w d false Hd)
    as (d' & Hd' & Hf & _ & Hun).
  pose proof (impute_loop_out py_float l es1 w d false Hd Hnd1 Hall) as Hout.
  destruct (impute_loop_flag py_float l es1 w d false Hd Hnd1) as [_ Hok].
  destruct (Hok Hall) as [b Hb].
  pose proof (fun Hrect => impute_loop_applied py_float l es1 w d false Hd Hrect
                             Hnd1 Hall) as Hap.
  destruct (impute_loop py_float l es1 false w) as [w1 o]. cbn [fst snd] in *.
  subst o. destruct e as [col [strategy param]].
  rewrite impute_loop_cons, (impute_step_eq _ _ _ _ _ _ _ _ Hd').
  assert (He' : apply_strategy py_float d' col strategy param = Failed x).
  { rewrite <- He. unfold entry_effect. simpl. apply apply_strategy_ext.
    by apply Hun. }
  rewrite He'. simpl.
  split; [done|]. split; [done|]. split; [done|].
  exists d'. split; [|split; [done|]].
  - destruct Hf as (_ & _ & Hk & _). unfold working. by rewrite Hk, Hl.
  - intros Hrect. destruct (Hap Hrect) as (d2 & Hd2 & H2).
    assert (d2 = d') by congruence. by subst d2.
Qed.

Lemma raising_entry_stops_batch_witness :
  let r := apply_impute float_digits
             [("age", ("mean", None)); ("nope", ("mode", None));
              ("city", ("mode", None))] (session_of ex_missing) in
  r.2 = Raised (KeyError "nope") /\
  out r.1 = (out (session_of ex_missing)
             ++ skip_notices float_digits ex_missing [("age", ("mean", None))])%list.
Proof.
  pose proof (raising_entry_stops_batch float_digits 2 ex_missing
                [("age", ("mean", None))] ("nope", ("mode", None))
                [("city", ("mode", None))] (KeyError "nope")
                (session_of ex_missing) eq_refl eq_refl
                ltac:(apply (bool_decide_unpack _); vm_compute; exact I)
                ltac:(apply (bool_decide_unpack _); vm_compute; exact I)
                ltac:(repeat constructor) eq_refl) as H.
  split; [exact (proj1 H) | exact (proj1 (proj2 (proj2 H)))].
Defined.

(** ** Apply with the widgets left as they are *)

Section DefaultApply.
Variable py_float : string -> result (option Qc).

Lemma existsb_isnull vs : existsb isnull vs = true <-> Missing ∈ vs.
Proof.
  induction vs as [|c vs IH]; simpl.
  - split; [done|]. intros H. by apply elem_of_nil in H.
  - rewrite elem_of_cons, orb_true_iff, IH. destruct c; simpl; split;
      intros [?|?]; try done; auto.
Qed.

Lemma filter_all {A} (P : A -> Prop) `{!forall x, Decision (P x)} (l : list A) :
  (forall x, x ∈ l -> P x) -> filter P l = l.
Proof.
  induction l as [|x l IH]; intros Hl; [done|].
  rewrite filter_cons_True by (apply Hl, elem_of_cons; by left).
  f_equal. apply IH. intros y Hy. apply Hl, elem_of_cons. by right.
Qed.

(** the mean of a column without a value is NaN *)
Lemma mean_fill_all_missing s :
  Forall (fun c => c = Missing) (s_values s) ->
  try_except (series_mean s) (Num (Q2Qc 0)) = Missing.
Proof.
  intros H. unfold series_mean. by rewrite (as_numbers_all_missing _ H).
Qed.

(** the fill value of the mode strategy is never missing *)
Lemma mode_fill_valid d col s :
  getitem d col = Ok s -> mode_fill d col <> Missing.
Proof.
  intros Hg. unfold mode_fill. rewrite Hg. simpl.
  destruct (series_mode s) as [|x k] eqn:Hs; [done|]. simpl.
  assert (Hx : x ∈ tied_modes (s_values s))
    by (apply series_mode_head; by rewrite Hs).
  apply tied_modes_spec in Hx as [Hx _].
  apply dropna_values_valid in Hx. by destruct x.
Qed.

Lemma fillna_keeps_missing v s :
  Missing ∈ s_values s ->
  Missing ∈ s_values (fillna v s) <-> v = Missing.
Proof.
  intros Hm. split.
  - unfold fillna. simpl. rewrite list_elem_of_fmap.
    intros (c & Hc & _). by destruct c.
  - intros ->. by rewrite fillna_missing.
Qed.

Lemma default_chosen_spec d c :
  c ∈ default_chosen d
  <-> exists s, getitem d c = Ok s /\ Missing ∈ s_values s.
Proof.
  unfold default_chosen. rewrite list_elem_of_filter. split.
  - intros [H _]. destruct (getitem d c) as [s|]; [|done].
    exists s. split; [done|]. by apply existsb_isnull.
  - intros (s & Hg & Hm). rewrite Hg. split; [by apply existsb_isnull|].
    by eapply getitem_Ok_names.
Qed.

Lemma default_batch_names d :
  (build_strategies d (default_widgets d)).*1 = default_chosen d.
Proof.
  rewrite build_strategies_names. simpl. apply filter_all.
  intros c Hc. apply default_chosen_spec in Hc as (s & Hg & _).
  unfold strategy_for. by rewrite Hg.
Qed.

(** the entry the untouched widgets build for a column with a gap, and what
    it does *)
Lemma default_entry_effect d c s :
  getitem d c = Ok s -> Missing ∈ s_values s ->
  exists e v,
    e ∈ build_strategies d (default_widgets d) /\ e.1 = c /\
    entry_effect py_float d e = Applied (fillna v s) /\
    (is_numeric_dtype (s_dtype s) = false -> v <> Missing) /\
    (is_numeric_dtype (s_dtype s) = true ->
     Forall (fun x => x = Missing) (s_values s) -> v = Missing).
Proof.
  intros Hg Hm.
  assert (Hin : c ∈ default_chosen d)
    by (apply default_chosen_spec; by exists s).
  destruct (is_numeric_dtype (s_dtype s)) eqn:Hnum.
  - exists (c, ("mean", None)), (try_except (series_mean s) (Num (Q2Qc 0))).
    split; [|split; [done|split; [|split]]].
    + unfold build_strategies. apply list_elem_of_omap. exists c.
      split; [done|]. unfold strategy_for. by rewrite Hg, Hnum.
    + unfold entry_effect, apply_strategy. simpl. strategy_tests.
      by rewrite Hg, Hnum.
    + done.
    + intros _. apply mean_fill_all_missing.
  - exists (c, ("mode", None)), (mode_fill d c).
    split; [|split; [done|split; [|split]]].
    + unfold build_strategies. apply list_elem_of_omap. exists c.
      split; [done|]. unfold strategy_for. by rewrite Hg, Hnum.
    + unfold entry_effect, apply_strategy. simpl. strategy_tests.
      by rewrite Hg.
    + intros _. by apply (mode_fill_valid _ _ _ Hg).
    + done.
Qed.

End DefaultApply.

(** Apply with the widgets left as the page first shows them (the columns
    with a missing cell chosen, "mean" for the numeric ones and "mode" for
    the others), on a table whose column names are distinct: the action goes
    through.  Afterwards every present cell is where it was, no column that
    is not numeric has a missing cell left, a column that had no missing cell
    is as it was, and a numeric column without any value is still without
    one.  What the gaps of the other numeric columns take is the mean as
    pandas computes it, of which nothing is said here. *)
Theorem default_apply_fills_text_columns
    (py_float : string -> result (option Qc))
    (l : loc) (d : DataFrame) (w : world) :
  ss_df w = Some l -> heap w !! l = Some d ->
  rectangular d -> NoDup (df_names d) ->
  let r := apply_impute py_float (build_strategies d (default_widgets d)) w in
  r.2 = Done (negb (bool_decide (default_chosen d = []))) /\
  exists d', working r.1 = Some d' /\
    forall c s, getitem d c = Ok s ->
      exists s', getitem d' c = Ok s' /\
        (forall i x, s_values s !! i = Some x -> isnull x = false ->
                     s_values s' !! i = Some x) /\
        (is_numeric_dtype (s_dtype s) = false -> Missing ∉ s_values s') /\
        (Missing ∉ s_values s -> s' = s) /\
        (is_numeric_dtype (s_dtype s) = true ->
         Forall (fun x => x = Missing) (s_values s) ->
         s_values s' = s_values s).
Proof.
  intros Hl Hd Hrect Hnames r. subst r.
  set (es := build_strategies d (default_widgets d)).
  assert (Hnm : es.*1 = default_chosen d) by apply default_batch_names.
  assert (Happ : forall e, e ∈ es -> is_applied (entry_effect py_float d e) = true)
    by (intros e; apply build_strategies_applied).
  assert (Hnd : NoDup es.*1).
  { rewrite Hnm. unfold default_chosen. by apply NoDup_filter. }
  assert (Hall : Forall (fun e => is_failed (entry_effect py_float d e) = false) es).
  { apply Forall_forall. intros e He. specialize (Happ e He).
    by destruct (entry_effect py_float d e). }
  assert (Hch : existsb (fun e => is_applied (entry_effect py_float d e)) es
                = negb (bool_decide (default_chosen d = []))).
  { rewrite <- Hnm. clearbody es. destruct es as [|e es'].
    - by rewrite bool_decide_eq_true_2.
    - simpl. by rewrite (Happ e) by (apply elem_of_cons; by left). }
  rewrite (apply_impute_eq _ _ _ _ Hl).
  destruct (impute_loop_frame py_float l es w d false Hd)
    as (d' & Hd' & (_ & _ & Hk & _) & _ & Hun).
  destruct (impute_loop_flag py_float l es w d false Hd Hnd) as [Hb Hok].
  destruct (Hok Hall) as [b Hr]. pose proof (Hb b Hr) as Hbv. simpl in Hbv.
  destruct (impute_loop_applied py_float l es w d false Hd Hrect Hnd Hall)
    as (d2 & Hd2 & Hap).
  assert (d2 = d') by congruence. subst d2.
  destruct (impute_loop py_float l es false w) as [w1 o]. cbn [fst snd] in *.
  subst o. rewrite Hch in Hbv. subst b.
  set (b := negb (bool_decide (default_chosen d = []))).
  assert (Hcols : forall c s, getitem d c = Ok s ->
            exists s', getitem d' c = Ok s' /\
              (forall i x, s_values s !! i = Some x -> isnull x = false ->
                           s_values s' !! i = Some x) /\
              (is_numeric_dtype (s_dtype s) = false -> Missing ∉ s_values s') /\
              (Missing ∉ s_values s -> s' = s) /\
              (is_numeric_dtype (s_dtype s) = true ->
               Forall (fun x => x = Missing) (s_values s) ->
               s_values s' = s_values s)).
  { intros c s Hg. destruct (decide (Missing ∈ s_values s)) as [Hm|Hm].
    - destruct (default_entry_effect py_float d c s Hg Hm)
        as (e & v & He & <- & Heff & Hcat & Hnum).
      exists (fillna v s). split; [by apply Hap|]. split; [|split; [|split]].
      + intros i x Hi Hx. rewrite fillna_lookup, Hi. simpl. by rewrite Hx.
      + intros Hn. rewrite (fillna_keeps_missing v s Hm). by apply Hcat.
      + done.
      + intros Hn Hmiss. rewrite (Hnum Hn Hmiss). by rewrite fillna_missing.
    - exists s. split; [|by repeat split].
      rewrite <- Hg. apply Hun. rewrite Hnm, default_chosen_spec.
      intros (s0 & Hg0 & Hm0). rewrite Hg in Hg0. injection Hg0 as <-. done. }
  destruct b.
  - split; [done|]. exists (reset_index d'). split.
    + unfold working. simpl. by rewrite lookup_snoc, Hd'.
    + intros c s Hg. rewrite getitem_reset_index. by apply Hcols.
  - split; [done|]. exists d'. split; [|done].
    cbn [fst snd]. unfold working. by rewrite Hk, Hl.
Qed.

Lemma default_apply_fills_text_columns_witness :
  (apply_impute float_digits
     (build_strategies ex_missing (default_widgets ex_missing))
     (session_of ex_missing)).2 = Done true /\
  working_column
    (apply_impute float_digits
       (build_strategies ex_missing (default_widgets ex_missing))
       (session_of ex_missing)).1 "city"
  = Some [Text "Paris"; Text "Rome"; Text "Paris"].
Proof.
  pose proof (default_apply_fills_text_columns float_digits 2 ex_missing
                (session_of ex_missing) eq_refl eq_refl
                ltac:(repeat constructor)
                ltac:(apply (bool_decide_unpack _); vm_compute; exact I)) as H.
  split; [exact (proj1 H) | reflexivity].
Defined.

(** ** Before the first table *)

Section NoTable.
Variable py_float : string -> result (option Qc).

(** no file in the uploader, or one that cannot be read *)
Lemma run_without_table inp w :
  ss_df w = None ->
  (forall n d, uploaded_file inp <> Some (n, Ok d)) ->
  exists m,
    run py_float inp w
    = mkWorld (heap w) (ss_uploaded_name w) (ss_original_df w) None m /\
    (uploaded_file inp = None ->
     m = [(LInfo, "Upload a CSV or Excel file (top-left) to start cleaning.")] /\
     (script py_float inp
        (mkWorld (heap w) (ss_uploaded_name w) (ss_original_df w) (ss_df w) [])).2
     = Stopped).
Proof.
  intros Hdf Hup. rewrite run_eq, script_eq. unfold load_upload.
  destruct (uploaded_file inp) as [[n [d|e]]|] eqn:E.
  - by destruct (Hup n d).
  - rewrite bind_apply. simpl. rewrite Hdf. eexists. split; [reflexivity|done].
  - rewrite ret_apply, bind_apply. unfold after_upload.
    rewrite bind_apply. unfold get_world at 1. cbv beta iota.
    rewrite (bool_decide_eq_true_2 (ss_df _ = None)) by exact Hdf.
    rewrite !bind_apply. simpl. rewrite Hdf. eexists. split; [reflexivity|done].
Qed.

Lemma runs_without_table inps : forall w,
  ss_df w = None ->
  Forall (fun i => forall n d, uploaded_file i <> Some (n, Ok d)) inps ->
  exists m,
    runs py_float inps w
    = mkWorld (heap w) (ss_uploaded_name w) (ss_original_df w) None m.
Proof.
  induction inps as [|i inps IH]; intros w Hdf Hall.
  - exists (out w). destruct w. simpl in *. by subst.
  - apply Forall_cons in Hall as [Hi Hall].
    destruct (run_without_table i w Hdf Hi) as (m & Hr & _).
    change (runs py_float (i :: inps) w)
      with (runs py_float inps (run py_float i w)).
    rewrite Hr.
    destruct (IH (mkWorld (heap w) (ss_uploaded_name w) (ss_original_df w) None m)
                 eq_refl Hall) as (m' & ->).
    simpl. by exists m'.
Qed.

End NoTable.

(** Lines 72-74: as long as no file was read, nothing happens.  After any
    runs in which the uploader was empty or held a file that could not be
    read, a run with the uploader empty shows the instructions and stops
    there, whatever button was pressed: the session holds no table, no name
    and no object. *)
Theorem no_table_shows_instructions
    (py_float : string -> result (option Qc))
    (inps : list inputs) (inp : inputs) :
  Forall (fun i => forall n d, uploaded_file i <> Some (n, Ok d)) inps ->
  uploaded_file inp = None ->
  let w := runs py_float inps empty_world in
  run py_float inp w
  = mkWorld [] None None None
      [(LInfo, "Upload a CSV or Excel file (top-left) to start cleaning.")] /\
  (script py_float inp
     (mkWorld (heap w) (ss_uploaded_name w) (ss_original_df w) (ss_df w) [])).2
  = Stopped.
Proof.
  intros Hall Hup w.
  destruct (runs_without_table py_float inps empty_world eq_refl Hall)
    as (m & Hw).
  simpl in Hw. subst w. rewrite Hw.
  destruct (run_without_table py_float inp (mkWorld [] None None None m) eq_refl)
    as (m' & Hr & Hm).
  { intros n d. by rewrite Hup. }
  destruct (Hm Hup) as [-> Hs]. by split.
Qed.

Lemma no_table_shows_instructions_witness :
  run float_digits (mkInputs None true true (Some RemoveDuplicateRows) [] false)
      (runs float_digits
         [mkInputs (Some ("data.csv", Raise "Excel file format cannot be determined")) false false None [] false]
         empty_world)
  = mkWorld [] None None None
      [(LInfo, "Upload a CSV or Excel file (top-left) to start cleaning.")].
Proof.
  apply (no_table_shows_instructions float_digits
           [mkInputs (Some ("data.csv", Raise "Excel file format cannot be determined")) false false None [] false]
           (mkInputs None true true (Some RemoveDuplicateRows) [] false)).
  - repeat constructor. simpl. discriminate.
  - reflexivity.
Defined.

(** ** The dtype guard of mean and median *)

(** Line 153 asks for a numeric column before it computes a mean or a
    median.  On a column that is not numeric the entry falls through to the
    last branch: the frame and the flag stay as they are, the page shows
    "Skipped <column>: incompatible strategy or dtype.", and the loop goes on
    with the entries that follow. *)
Theorem mean_median_skip_non_numeric
    (py_float : string -> result (option Qc))
    (l : loc) (d : DataFrame) (col strategy : string) (param : option string)
    (s : Series) (es : list strategy_entry) (c : bool) (w : world) :
  heap w !! l = Some d ->
  strategy ∈ ["mean"; "median"] ->
  getitem d col = Ok s ->
  is_numeric_dtype (s_dtype s) = false ->
  let w1 := (emit LWarning (skip_notice col) w).1 in
  impute_step py_float l (col, (strategy, param)) c w = (w1, Done c) /\
  heap w1 = heap w /\
  out w1 = (out w ++ [(LWarning,
              ("Skipped " ++ col ++ ": incompatible strategy or dtype.")%string)])%list /\
  impute_loop py_float l ((col, (strategy, param)) :: es) c w
  = impute_loop py_float l es c w1.
Proof.
  intros Hl Hs Hg Hnum w1.
  assert (Hstep : impute_step py_float l (col, (strategy, param)) c w = (w1, Done c)).
  { rewrite (impute_step_eq _ _ _ _ _ _ _ _ Hl). unfold apply_strategy.
    rewrite bool_decide_eq_true_2 by done. by rewrite Hg, Hnum. }
  split; [done|]. split; [done|]. split; [done|].
  by rewrite impute_loop_cons, Hstep.
Qed.

Lemma mean_median_skip_non_numeric_witness :
  let w := session_of ex_missing in
  let w1 := (emit LWarning (skip_notice "city") w).1 in
  impute_step float_digits 2 ("city", ("mean", None)) false w = (w1, Done false) /\
  heap w1 = heap w /\
  out w1 = (out w ++ [(LWarning, "Skipped city: incompatible strategy or dtype.")])%list /\
  impute_loop float_digits 2 [("city", ("mean", None)); ("age", ("median", None))] false w
  = impute_loop float_digits 2 [("age", ("median", None))] false w1.
Proof.
  apply (mean_median_skip_non_numeric float_digits 2 ex_missing "city" "mean"
           None (mkSeries Object [Text "Paris"; Text "Rome"; Missing]));
    [reflexivity | constructor | reflexivity | reflexivity].
Defined.
